(** * tsclean: the field grammar, the rule compiler, the template catalog
      and the two commands of the Node implementation, with their properties.

    The development follows [src/commands/createProject.ts] (the commander
    based script; [dist/index.js] is its compiled form).  JavaScript strings
    are modelled as [string] (sequences of 8-bit characters); case mapping is
    the ASCII one. *)

From Stdlib Require Import String Ascii List Bool Arith Lia.
Import ListNotations.
Local Open Scope list_scope.
Local Open Scope string_scope.

(* ================================================================== *)
(** * Part I. Definitions *)
(* ================================================================== *)

(** ** JavaScript string primitives *)

Module Js.

(** The double quote and the line feed, which a literal cannot hold. *)
Definition dq : string := String "034" "".
Definition nl : string := String "010" "".

Definition truthy (s : string) : bool :=
  match s with "" => false | _ => true end.

(** [a || b] on strings. *)
Definition or_else (a b : string) : string := if truthy a then a else b.

(** [s.startsWith(p)]. *)
Definition startsWith (s p : string) : bool := String.prefix p s.

(** [s.split(sep)] for a one-character separator: never the empty array. *)
Fixpoint split (sep : ascii) (s : string) : list string :=
  match s with
  | "" => [""]
  | String c s' =>
      if Ascii.eqb c sep then "" :: split sep s'
      else match split sep s' with
           | [] => [String c ""]
           | h :: t => String c h :: t
           end
  end.

(** [xs.join(sep)]. *)
Definition join (sep : string) (xs : list string) : string :=
  String.concat sep xs.

(** [s.slice(0, -k)]: all but the last [k] characters (nothing when the
    string is shorter). *)
Fixpoint take (n : nat) (s : string) : string :=
  match n, s with
  | S n', String c s' => String c (take n' s')
  | _, _ => ""
  end.

Definition slice_to_neg (s : string) (k : nat) : string :=
  take (String.length s - k) s.

(** [s.slice(k)]. *)
Fixpoint slice_from (k : nat) (s : string) : string :=
  match k, s with
  | 0, _ => s
  | S k', String _ s' => slice_from k' s'
  | S _, "" => ""
  end.

Definition in_range (lo hi : nat) (c : ascii) : bool :=
  Nat.leb lo (nat_of_ascii c) && Nat.leb (nat_of_ascii c) hi.

Definition isLower (c : ascii) : bool := in_range 97 122 c.
Definition isUpper (c : ascii) : bool := in_range 65 90 c.
Definition isDigit (c : ascii) : bool := in_range 48 57 c.

(** The class [\w] of a regular expression without the [u] flag. *)
Definition isWord (c : ascii) : bool :=
  isLower c || isUpper c || isDigit c || Ascii.eqb c "_".

Definition upperChar (c : ascii) : ascii :=
  if isLower c then ascii_of_nat (nat_of_ascii c - 32) else c.
Definition lowerChar (c : ascii) : ascii :=
  if isUpper c then ascii_of_nat (nat_of_ascii c + 32) else c.

(** [s.toLowerCase()]. *)
Fixpoint toLowerCase (s : string) : string :=
  match s with
  | "" => ""
  | String c s' => String (lowerChar c) (toLowerCase s')
  end.

(** [xs[i]] where the code reads an element that a guard has made present;
    the default stands for [undefined] and is never reached there. *)
Definition at_ (xs : list string) (i : nat) : string := nth i xs "".

(** [s.includes(t)]. *)
Fixpoint includes (s t : string) : bool :=
  String.prefix t s ||
  match s with
  | "" => false
  | String _ s' => includes s' t
  end.

(** No character of [s] is [c]. *)
Fixpoint noChar (c : ascii) (s : string) : bool :=
  match s with
  | "" => true
  | String x s' => negb (Ascii.eqb x c) && noChar c s'
  end.

(** Every character of [s] satisfies [p]. *)
Fixpoint allChars (p : ascii -> bool) (s : string) : bool :=
  match s with
  | "" => true
  | String x s' => p x && allChars p s'
  end.

(** A text in double quotes. *)
Definition q (s : string) : string := dq ++ s ++ dq.

(** The lines of a template literal, one per source line. *)
Definition lines (ls : list string) : string := join nl ls.

(** [xs.map((x, i) => f(i, x))]. *)
Fixpoint mapi_from {A B : Type} (f : nat -> A -> B) (i : nat) (xs : list A)
  : list B :=
  match xs with
  | [] => []
  | x :: xs' => f i x :: mapi_from f (S i) xs'
  end.
Definition mapi {A B : Type} (f : nat -> A -> B) (xs : list A) : list B :=
  mapi_from f 0 xs.

End Js.
Import Js.

(** ** Utility functions *)

(** [str ? str.charAt(0).toUpperCase() + str.slice(1) : str] *)
Definition capitalize (str : string) : string :=
  match str with
  | "" => str
  | String c rest => String (upperChar c) rest
  end.

(** [toTsType], the same in [src/utils/typeUtils.ts] and in the script. *)
Definition toTsType (type : string) : string :=
  if String.eqb type "string" then "string"
  else if String.eqb type "number" then "number"
  else if String.eqb type "boolean" then "boolean"
  else "any".

Definition toMongooseType (type : string) : string :=
  if String.eqb type "string" then "String"
  else if String.eqb type "number" then "Number"
  else if String.eqb type "boolean" then "Boolean"
  else "Mixed".

(** ** Regular expressions decided by [test]

    A regular expression over character classes, matched against the whole
    input by Brzozowski derivatives.  [FieldSchema] is anchored at both ends
    and has no flag, so [test] is whole-string membership. *)

Module Regex.

Inductive re : Type :=
| Void
| Eps
| Class (p : ascii -> bool)
| Cat (r1 r2 : re)
| Alt (r1 r2 : re)
| Star (r : re).

Definition Plus (r : re) : re := Cat r (Star r).
Definition Opt (r : re) : re := Alt r Eps.
Definition Chr (c : ascii) : re := Class (Ascii.eqb c).
Definition NotChr (c : ascii) : re := Class (fun x => negb (Ascii.eqb c x)).

Fixpoint nullable (r : re) : bool :=
  match r with
  | Void => false
  | Eps => true
  | Class _ => false
  | Cat r1 r2 => nullable r1 && nullable r2
  | Alt r1 r2 => nullable r1 || nullable r2
  | Star _ => true
  end.

Fixpoint deriv (c : ascii) (r : re) : re :=
  match r with
  | Void => Void
  | Eps => Void
  | Class p => if p c then Eps else Void
  | Cat r1 r2 =>
      if nullable r1 then Alt (Cat (deriv c r1) r2) (deriv c r2)
      else Cat (deriv c r1) r2
  | Alt r1 r2 => Alt (deriv c r1) (deriv c r2)
  | Star r1 => Cat (deriv c r1) (Star r1)
  end.

Fixpoint test (r : re) (s : string) : bool :=
  match s with
  | "" => nullable r
  | String c s' => test (deriv c r) s'
  end.

(** The language of an expression, for the proofs. *)
Inductive Lang : re -> string -> Prop :=
| LEps : Lang Eps ""
| LClass p c : p c = true -> Lang (Class p) (String c "")
| LCat r1 r2 s1 s2 : Lang r1 s1 -> Lang r2 s2 -> Lang (Cat r1 r2) (s1 ++ s2)%string
| LAltL r1 r2 s : Lang r1 s -> Lang (Alt r1 r2) s
| LAltR r1 r2 s : Lang r2 s -> Lang (Alt r1 r2) s
| LStar0 r : Lang (Star r) ""
| LStarS r s1 s2 : Lang r s1 -> Lang (Star r) s2 -> Lang (Star r) (s1 ++ s2)%string.

End Regex.

(** ** Field definitions *)

(** [/^[^:]+:[^:]+(:[^:]+)?$/] *)
Definition FieldSchema_re : Regex.re :=
  let part := Regex.Plus (Regex.NotChr ":") in
  Regex.Cat part
    (Regex.Cat (Regex.Chr ":")
       (Regex.Cat part (Regex.Opt (Regex.Cat (Regex.Chr ":") part)))).

Definition FieldSchema_message : string :=
  "Field must be in format name:type[:rule]".

(** [FieldSchema.parse(val)]: the value, or the refinement's error. *)
Definition FieldSchema_parse (val : string) : string + string :=
  if Regex.test FieldSchema_re val then inr val else inl FieldSchema_message.

Record Field : Type := mkField {
  name : string;
  type : string;
  rule : option string
}.

(** The roster entry of the command line: a name and its raw field text. *)
Record Feature : Type := mkFeature {
  fname : string;
  fields : string
}.

(** One entry of [parseFields]: destructure, validate, build. *)
Definition parsePair (pair : string) : string + Field :=
  let parts := split ":" pair in
  match FieldSchema_parse pair with
  | inl e => inl e
  | inr _ => inr (mkField (at_ parts 0) (at_ parts 1) (nth_error parts 2))
  end.

(** [xs.map(f)] where [f] may throw: the first throw ends the map. *)
Fixpoint mapThrow {A B : Type} (f : A -> string + B) (xs : list A)
  : string + list B :=
  match xs with
  | [] => inr []
  | x :: xs' =>
      match f x with
      | inl e => inl e
      | inr y =>
          match mapThrow f xs' with
          | inl e => inl e
          | inr ys => inr (y :: ys)
          end
      end
  end.

Definition parseFields (fields : string) : string + list Field :=
  if negb (truthy fields) then inr []
  else mapThrow parsePair (split "," fields).

(** The text between the first and the second ["="]: [rule.split('=')[1]]. *)
Definition ruleArg (rule : string) : string := at_ (split "=" rule) 1.

(** The validator of one field: the body of the loop of [getZodSchema]. *)
Definition zodBase (type : string) : string :=
  if String.eqb type "string" then "z.string()"
  else if String.eqb type "number" then "z.number()"
  else if String.eqb type "boolean" then "z.boolean()"
  else "z.any()".

Definition zodRule (zodType rule : string) : string :=
  if String.eqb rule "email" then zodType ++ ".email()"
  else if startsWith rule "minlength=" then zodType ++ ".min(" ++ ruleArg rule ++ ")"
  else if startsWith rule "maxlength=" then zodType ++ ".max(" ++ ruleArg rule ++ ")"
  else if startsWith rule "min=" then zodType ++ ".min(" ++ ruleArg rule ++ ")"
  else if startsWith rule "max=" then zodType ++ ".max(" ++ ruleArg rule ++ ")"
  else if startsWith rule "enum=" then
    let enums := join ", " (map (fun e => dq ++ e ++ dq) (split "|" (ruleArg rule))) in
    "z.enum([" ++ enums ++ "])"
  else zodType.

Definition zodType (f : Field) : string :=
  match rule f with
  | Some r => if truthy r then zodRule (zodBase (type f)) r else zodBase (type f)
  | None => zodBase (type f)
  end.

Definition getZodSchema (fields : list Field) : string :=
  let schema := "z.object({" ++ nl in
  let schema :=
    fold_left
      (fun schema f => schema ++ "    " ++ name f ++ ": " ++ zodType f ++ "," ++ nl)
      fields schema in
  schema ++ "})".

(** The sample value of one field: the body of the loop of [getSampleJson]. *)
Definition sampleValue (f : Field) : string :=
  if String.eqb (type f) "string" then
    match rule f with
    | Some r =>
        if String.eqb r "email" then dq ++ "test@example.com" ++ dq
        else if startsWith r "enum=" then dq ++ at_ (split "|" (ruleArg r)) 0 ++ dq
        else dq ++ "sample_" ++ name f ++ dq
    | None => dq ++ "sample_" ++ name f ++ dq
    end
  else if String.eqb (type f) "number" then "123"
  else if String.eqb (type f) "boolean" then "true"
  else "null".

Definition getSampleJson (fields : list Field) : string :=
  let json :=
    fold_left
      (fun json f => json ++ dq ++ name f ++ dq ++ ": " ++ sampleValue f ++ ", ")
      fields "{" in
  slice_to_neg json 2 ++ "}".

(** The field text used when a feature has none. *)
Definition defaultFields : string := "name:string:minlength=3,email:string:email".

(** ** File templates *)

Module templates.

(** The two per-feature fragments of [serverIndexTs] and the per-feature
    fragment of [readmeMd] (the arrow functions inside their [map]). *)
Definition importLine (f : Feature) : string :=
  "import { " ++ capitalize (fname f) ++ "Controller } from '../Features/"
    ++ fname f ++ "/delivery/controllers/" ++ fname f ++ ".controller';".

Definition mountLines (f : Feature) : string :=
  lines [
    "const " ++ fname f ++ "Controller = container.resolve(" ++ capitalize (fname f) ++ "Controller);";
    "app.use('/api/" ++ fname f ++ "', " ++ fname f ++ "Controller.getRouter());"
  ].

Definition exampleRequest (sampleJsons : list string) (i : nat) (f : Feature) : string :=
  lines [
    "- Create a " ++ fname f ++ ":";
    "  ```bash";
    "  curl -X POST http://localhost:3000/api/" ++ fname f ++ " -H " ++ q "Content-Type: application/json" ++ " -d '" ++ nth i sampleJsons "undefined" ++ "'";
    "  ```"
  ].

Definition packageJson (projectName : string) : string :=
  lines [
    "{";
    "    " ++ dq ++ "name" ++ dq ++ ": " ++ dq ++ projectName ++ dq ++ ",";
    "    " ++ q "version" ++ ": " ++ q "1.0.0" ++ ",";
    "    " ++ q "description" ++ ": " ++ q "Express API with TypeScript, MongoDB, and clean architecture" ++ ",";
    "    " ++ q "main" ++ ": " ++ q "dist/Server/index.js" ++ ",";
    "    " ++ q "scripts" ++ ": {";
    "      " ++ q "start" ++ ": " ++ q "node dist/Server/index.js" ++ ",";
    "      " ++ q "build" ++ ": " ++ q "tsc" ++ ",";
    "      " ++ q "dev" ++ ": " ++ q "nodemon Server/index.ts" ++ ",";
    "      " ++ q "test" ++ ": " ++ q "jest" ++ ",";
    "      " ++ q "test:watch" ++ ": " ++ q "jest --watch";
    "    },";
    "    " ++ q "dependencies" ++ ": {";
    "      " ++ q "dotenv" ++ ": " ++ q "^16.4.5" ++ ",";
    "      " ++ q "express" ++ ": " ++ q "^4.21.1" ++ ",";
    "      " ++ q "mongoose" ++ ": " ++ q "^8.7.2" ++ ",";
    "      " ++ q "tsyringe" ++ ": " ++ q "^4.8.0" ++ ",";
    "      " ++ q "zod" ++ ": " ++ q "^3.23.8";
    "    },";
    "    " ++ q "devDependencies" ++ ": {";
    "      " ++ q "@types/express" ++ ": " ++ q "^5.0.0" ++ ",";
    "      " ++ q "@types/jest" ++ ": " ++ q "^29.5.13" ++ ",";
    "      " ++ q "@types/node" ++ ": " ++ q "^22.7.5" ++ ",";
    "      " ++ q "@types/supertest" ++ ": " ++ q "^6.0.2" ++ ",";
    "      " ++ q "jest" ++ ": " ++ q "^29.7.0" ++ ",";
    "      " ++ q "nodemon" ++ ": " ++ q "^3.1.7" ++ ",";
    "      " ++ q "supertest" ++ ": " ++ q "^7.0.0" ++ ",";
    "      " ++ q "ts-jest" ++ ": " ++ q "^29.2.5" ++ ",";
    "      " ++ q "ts-node" ++ ": " ++ q "^10.9.2" ++ ",";
    "      " ++ q "typescript" ++ ": " ++ q "^5.6.3";
    "    }";
    "  }"
  ].

Definition tsconfigJson : string :=
  lines [
    "{";
    "    " ++ q "compilerOptions" ++ ": {";
    "      " ++ q "target" ++ ": " ++ q "ES2020" ++ ",";
    "      " ++ q "module" ++ ": " ++ q "commonjs" ++ ",";
    "      " ++ q "outDir" ++ ": " ++ q "./dist" ++ ",";
    "      " ++ q "rootDir" ++ ": " ++ q "./" ++ ",";
    "      " ++ q "strict" ++ ": true,";
    "      " ++ q "esModuleInterop" ++ ": true,";
    "      " ++ q "skipLibCheck" ++ ": true,";
    "      " ++ q "forceConsistentCasingInFileNames" ++ ": true,";
    "      " ++ q "experimentalDecorators" ++ ": true,";
    "      " ++ q "emitDecoratorMetadata" ++ ": true";
    "    },";
    "    " ++ q "include" ++ ": [" ++ q "Core/**/*" ++ ", " ++ q "Features/**/*" ++ ", " ++ q "Server/**/*" ++ ", " ++ q "__tests__/**/*" ++ "],";
    "    " ++ q "exclude" ++ ": [" ++ q "node_modules" ++ ", " ++ q "dist" ++ "]";
    "  }"
  ].

Definition jestConfigTs : string :=
  lines [
    "export default {";
    "    preset: 'ts-jest',";
    "    testEnvironment: 'node',";
    "    testMatch: ['**/__tests__/**/*.test.ts'],";
    "    moduleFileExtensions: ['ts', 'js'],";
    "    coverageDirectory: 'coverage',";
    "    collectCoverageFrom: ['Features/**/*.{ts,js}', 'Core/**/*.{ts,js}'],";
    "  };"
  ].

Definition env (projectName : string) : string :=
  lines [
    "PORT=3000";
    "MONGODB_URI=mongodb://localhost:27017/" ++ projectName
  ].

Definition gitignore : string :=
  lines [
    "node_modules/";
    "dist/";
    ".env";
    "coverage/"
  ].

Definition resultTs : string :=
  lines [
    "export type Result<T, E> = Ok<T> | Err<E>;";
    "";
    "interface Ok<T> {";
    "  kind: 'Ok';";
    "  value: T;";
    "  isOk(): boolean;";
    "  isErr(): boolean;";
    "  unwrap(): T;";
    "  unwrapErr(): never;";
    "}";
    "";
    "interface Err<E> {";
    "  kind: 'Err';";
    "  error: E;";
    "  isOk(): boolean;";
    "  isErr(): boolean;";
    "  unwrap(): never;";
    "  unwrapErr(): E;";
    "}";
    "";
    "export function Ok<T>(value: T): Ok<T> {";
    "  return {";
    "    kind: 'Ok',";
    "    value,";
    "    isOk: () => true,";
    "    isErr: () => false,";
    "    unwrap: () => value,";
    "    unwrapErr: () => { throw new Error('Cannot unwrapErr an Ok value'); },";
    "  };";
    "}";
    "";
    "export function Err<E>(error: E): Err<E> {";
    "  return {";
    "    kind: 'Err',";
    "    error,";
    "    isOk: () => false,";
    "    isErr: () => true,";
    "    unwrap: () => { throw new Error('Cannot unwrap an Err value'); },";
    "    unwrapErr: () => error,";
    "  };";
    "}"
  ].

Definition customErrorTs : string :=
  lines [
    "export class CustomError extends Error {";
    "  constructor(public statusCode: number, message: string) {";
    "    super(message);";
    "    this.name = 'CustomError';";
    "  }";
    "}"
  ].

Definition databaseTs : string :=
  lines [
    "import mongoose from 'mongoose';";
    "";
    "export const connectToDatabase = async () => {";
    "  const uri = process.env.MONGODB_URI;";
    "  if (!uri) {";
    "    throw new Error('MONGODB_URI is not defined in .env');";
    "  }";
    "  await mongoose.connect(uri);";
    "  console.log('Connected to MongoDB');";
    "};"
  ].

Definition serverIndexTs (features : list Feature) : string :=
  lines [
    "import 'reflect-metadata';";
    "import express from 'express';";
    "import dotenv from 'dotenv';";
    "import { container } from 'tsyringe';";
    "import { connectToDatabase } from '../Core/config/database';";
    join nl (map importLine features);
    "";
    "dotenv.config();";
    "";
    "const app = express();";
    "const port = process.env.PORT || 3000;";
    "";
    "app.use(express.json());";
    join nl (map mountLines features);
    "";
    "const startServer = async () => {";
    "  try {";
    "    await connectToDatabase();";
    "    app.listen(port, () => {";
    "      console.log(`Server running on http://localhost:${port}`);";
    "    });";
    "  } catch (error) {";
    "    console.error('Failed to start server:', error);";
    "  }";
    "};";
    "";
    "startServer();"
  ].

Definition featureContainerTs (feature : string) : string :=
  lines [
    "import 'reflect-metadata';";
    "import { container } from 'tsyringe';";
    "import { " ++ capitalize feature ++ "Controller } from './delivery/controllers/" ++ feature ++ ".controller';";
    "import { Create" ++ capitalize feature ++ "UseCase } from './domain/usecases/create-" ++ feature ++ ".usecase';";
    "import { " ++ capitalize feature ++ "RepositoryImpl } from './data/repositories/" ++ feature ++ ".repository';";
    "import { " ++ capitalize feature ++ "DataSource } from './data/datasources/" ++ feature ++ ".datasource';";
    "";
    "container.register<Create" ++ capitalize feature ++ "UseCase>('Create" ++ capitalize feature ++ "UseCase', Create" ++ capitalize feature ++ "UseCase);";
    "container.register<" ++ capitalize feature ++ "RepositoryImpl>('" ++ capitalize feature ++ "Repository', " ++ capitalize feature ++ "RepositoryImpl);";
    "container.register<" ++ capitalize feature ++ "DataSource>('" ++ capitalize feature ++ "DataSource', " ++ capitalize feature ++ "DataSource);";
    "container.register<" ++ capitalize feature ++ "Controller>(" ++ capitalize feature ++ "Controller, " ++ capitalize feature ++ "Controller);";
    "";
    "export { container };"
  ].

Definition featureEntityTs (feature : string) (fields : list Field) : string :=
  lines [
    "export class " ++ capitalize feature ++ " {";
    "  constructor(";
    "    public id: string,";
    "    public " ++ join ", " (map (fun f => name f ++ ": " ++ toTsType (type f)) fields);
    "  ) {}";
    "}"
  ].

Definition featureRepositoryInterfaceTs (feature : string) : string :=
  lines [
    "import { Result } from '../../../../Core/result/result';";
    "import { " ++ capitalize feature ++ " } from '../entity/" ++ feature ++ ".entity';";
    "import { CustomError } from '../../../../Core/error/custom-error';";
    "";
    "export interface " ++ capitalize feature ++ "Repository {";
    "  create(" ++ feature ++ ": " ++ capitalize feature ++ "): Promise<Result<" ++ capitalize feature ++ ", CustomError>>;";
    "  findById(id: string): Promise<Result<" ++ capitalize feature ++ " | null, CustomError>>;";
    "}"
  ].

Definition featureUseCaseTs (feature : string) (fields : list Field) : string :=
  lines [
    "import { injectable, inject } from 'tsyringe';";
    "import { " ++ capitalize feature ++ " } from '../entity/" ++ feature ++ ".entity';";
    "import { " ++ capitalize feature ++ "Repository } from '../repositories/" ++ feature ++ ".repository.interface';";
    "import { Result, Ok, Err } from '../../../../Core/result/result';";
    "import { CustomError } from '../../../../Core/error/custom-error';";
    "";
    "export interface Create" ++ capitalize feature ++ "Dto {";
    "  " ++ join nl (map (fun f => "  " ++ name f ++ ": " ++ toTsType (type f) ++ ";") fields);
    "}";
    "";
    "@injectable()";
    "export class Create" ++ capitalize feature ++ "UseCase {";
    "  constructor(@inject('" ++ capitalize feature ++ "Repository') private " ++ feature ++ "Repository: " ++ capitalize feature ++ "Repository) {}";
    "";
    "  async execute(dto: Create" ++ capitalize feature ++ "Dto): Promise<Result<" ++ capitalize feature ++ ", CustomError>> {";
    "    const " ++ feature ++ " = new " ++ capitalize feature ++ "(";
    "      Math.random().toString(36).substring(2), // Simple ID generation";
    "      " ++ join ", " (map (fun f => "dto." ++ name f) fields);
    "    );";
    "    return await this." ++ feature ++ "Repository.create(" ++ feature ++ ");";
    "  }";
    "}"
  ].

Definition featureModelTs (feature : string) (fields : list Field) : string :=
  lines [
    "import mongoose, { Schema, Document } from 'mongoose';";
    "";
    "export interface I" ++ capitalize feature ++ " extends Document {";
    "  id: string;";
    "  " ++ join (";" ++ nl ++ "  ") (map (fun f => name f ++ ": " ++ toTsType (type f)) fields) ++ ";";
    "}";
    "";
    "const " ++ capitalize feature ++ "Schema: Schema = new Schema({";
    "  id: { type: String, required: true, unique: true },";
    "  " ++ join ("," ++ nl ++ "  ") (map (fun f => name f ++ ": { type: " ++ toMongooseType (type f) ++ ", required: true }") fields);
    "});";
    "";
    "export const " ++ capitalize feature ++ "Model = mongoose.model<I" ++ capitalize feature ++ ">('" ++ capitalize feature ++ "', " ++ capitalize feature ++ "Schema);"
  ].

Definition featureDataSourceTs (feature : string) (fields : list Field) : string :=
  lines [
    "import { injectable } from 'tsyringe';";
    "import { " ++ capitalize feature ++ " } from '../../domain/entity/" ++ feature ++ ".entity';";
    "import { " ++ capitalize feature ++ "Model } from '../models/" ++ feature ++ ".model';";
    "import { Result, Ok, Err } from '../../../../Core/result/result';";
    "import { CustomError } from '../../../../Core/error/custom-error';";
    "";
    "@injectable()";
    "export class " ++ capitalize feature ++ "DataSource {";
    "  async create(" ++ feature ++ ": " ++ capitalize feature ++ "): Promise<Result<" ++ capitalize feature ++ ", CustomError>> {";
    "    try {";
    "      const " ++ feature ++ "Doc = new " ++ capitalize feature ++ "Model(" ++ feature ++ ");";
    "      await " ++ feature ++ "Doc.save();";
    "      return Ok(" ++ feature ++ ");";
    "    } catch (error) {";
    "      return Err(new CustomError(500, 'Failed to create " ++ feature ++ ": ' + (error as Error).message));";
    "    }";
    "  }";
    "";
    "  async findById(id: string): Promise<Result<" ++ capitalize feature ++ " | null, CustomError>> {";
    "    try {";
    "      const " ++ feature ++ "Doc = await " ++ capitalize feature ++ "Model.findOne({ id });";
    "      if (!" ++ feature ++ "Doc) return Ok(null);";
    "      return Ok(new " ++ capitalize feature ++ "(" ++ feature ++ "Doc.id, " ++ join ", " (map (fun f => feature ++ "Doc." ++ name f) fields) ++ "));";
    "    } catch (error) {";
    "      return Err(new CustomError(500, 'Failed to find " ++ feature ++ ": ' + (error as Error).message));";
    "    }";
    "  }";
    "}"
  ].

Definition featureRepositoryTs (feature : string) : string :=
  lines [
    "import { injectable, inject } from 'tsyringe';";
    "import { " ++ capitalize feature ++ " } from '../../domain/entity/" ++ feature ++ ".entity';";
    "import { " ++ capitalize feature ++ "Repository } from '../../domain/repositories/" ++ feature ++ ".repository.interface';";
    "import { " ++ capitalize feature ++ "DataSource } from '../datasources/" ++ feature ++ ".datasource';";
    "import { Result } from '../../../../Core/result/result';";
    "import { CustomError } from '../../../../Core/error/custom-error';";
    "";
    "@injectable()";
    "export class " ++ capitalize feature ++ "RepositoryImpl implements " ++ capitalize feature ++ "Repository {";
    "  constructor(@inject('" ++ capitalize feature ++ "DataSource') private dataSource: " ++ capitalize feature ++ "DataSource) {}";
    "";
    "  async create(" ++ feature ++ ": " ++ capitalize feature ++ "): Promise<Result<" ++ capitalize feature ++ ", CustomError>> {";
    "    return await this.dataSource.create(" ++ feature ++ ");";
    "  }";
    "";
    "  async findById(id: string): Promise<Result<" ++ capitalize feature ++ " | null, CustomError>> {";
    "    return await this.dataSource.findById(id);";
    "  }";
    "}"
  ].

Definition featureMiddlewareTs (feature : string) (zodSchema : string) : string :=
  lines [
    "import { Request, Response, NextFunction } from 'express';";
    "import { z } from 'zod';";
    "import { CustomError } from '../../../Core/error/custom-error';";
    "";
    "const " ++ feature ++ "Schema = " ++ zodSchema ++ ";";
    "";
    "export const validate" ++ capitalize feature ++ " = (req: Request, res: Response, next: NextFunction) => {";
    "  try {";
    "    " ++ feature ++ "Schema.parse(req.body);";
    "    next();";
    "  } catch (error) {";
    "    if (error instanceof z.ZodError) {";
    "      throw new CustomError(400, error.errors.map(e => e.message).join(', '));";
    "    }";
    "    throw new CustomError(500, 'Validation error');";
    "  }";
    "};"
  ].

Definition featureControllerTs (feature : string) : string :=
  lines [
    "import { injectable, inject } from 'tsyringe';";
    "import { Request, Response, NextFunction } from 'express';";
    "import { Router } from 'express';";
    "import { Create" ++ capitalize feature ++ "UseCase, Create" ++ capitalize feature ++ "Dto } from '../../domain/usecases/create-" ++ feature ++ ".usecase';";
    "import { CustomError } from '../../../Core/error/custom-error';";
    "import { validate" ++ capitalize feature ++ " } from '../middlewares/validate-" ++ feature ++ ".middleware';";
    "";
    "@injectable()";
    "export class " ++ capitalize feature ++ "Controller {";
    "  private router: Router;";
    "";
    "  constructor(@inject('Create" ++ capitalize feature ++ "UseCase') private create" ++ capitalize feature ++ "UseCase: Create" ++ capitalize feature ++ "UseCase) {";
    "    this.router = Router();";
    "    this.router.post('/', validate" ++ capitalize feature ++ ", this.create" ++ capitalize feature ++ ".bind(this));";
    "  }";
    "";
    "  async create" ++ capitalize feature ++ "(req: Request, res: Response): Promise<void> {";
    "    const dto: Create" ++ capitalize feature ++ "Dto = req.body;";
    "    const result = await this.create" ++ capitalize feature ++ "UseCase.execute(dto);";
    "    if (result.isOk()) {";
    "      res.status(201).json(result.unwrap());";
    "    } else {";
    "      const error = result.unwrapErr();";
    "      res.status(error.statusCode).json({ message: error.message });";
    "    }";
    "  }";
    "";
    "  getRouter(): Router {";
    "    return this.router;";
    "  }";
    "}"
  ].

Definition featureUseCaseTestTs (feature : string) (fields : list Field) (sampleJson : string) : string :=
  lines [
    "import { container } from 'tsyringe';";
    "import { Create" ++ capitalize feature ++ "UseCase, Create" ++ capitalize feature ++ "Dto } from '../../../Features/" ++ feature ++ "/domain/usecases/create-" ++ feature ++ ".usecase';";
    "import { " ++ capitalize feature ++ "Repository } from '../../../Features/" ++ feature ++ "/domain/repositories/" ++ feature ++ ".repository.interface';";
    "import { Result, Ok, Err } from '../../../Core/result/result';";
    "import { CustomError } from '../../../Core/error/custom-error';";
    "import { " ++ capitalize feature ++ " } from '../../../Features/" ++ feature ++ "/domain/entity/" ++ feature ++ ".entity';";
    "";
    "describe('Create" ++ capitalize feature ++ "UseCase', () => {";
    "  let create" ++ capitalize feature ++ "UseCase: Create" ++ capitalize feature ++ "UseCase;";
    "  let mockRepository: jest.Mocked<" ++ capitalize feature ++ "Repository>;";
    "";
    "  beforeEach(() => {";
    "    mockRepository = {";
    "      create: jest.fn(),";
    "      findById: jest.fn(),";
    "    };";
    "    container.registerInstance('" ++ capitalize feature ++ "Repository', mockRepository);";
    "    create" ++ capitalize feature ++ "UseCase = container.resolve<Create" ++ capitalize feature ++ "UseCase>('Create" ++ capitalize feature ++ "UseCase');";
    "  });";
    "";
    "  afterEach(() => {";
    "    container.reset();";
    "  });";
    "";
    "  it('should create a " ++ feature ++ " successfully', async () => {";
    "    const dto: Create" ++ capitalize feature ++ "Dto = " ++ sampleJson ++ ";";
    "    const " ++ feature ++ " = new " ++ capitalize feature ++ "('123', " ++ join ", " (map (fun f => "dto." ++ name f) fields) ++ ");";
    "    mockRepository.create.mockResolvedValue(Ok(" ++ feature ++ "));";
    "";
    "    const result = await create" ++ capitalize feature ++ "UseCase.execute(dto);";
    "";
    "    expect(result.isOk()).toBe(true);";
    "    expect(result.unwrap()).toEqual(" ++ feature ++ ");";
    "    expect(mockRepository.create).toHaveBeenCalledWith(expect.any(" ++ capitalize feature ++ "));";
    "  });";
    "";
    "  it('should return an error if repository fails', async () => {";
    "    const dto: Create" ++ capitalize feature ++ "Dto = " ++ sampleJson ++ ";";
    "    const error = new CustomError(500, 'Repository error');";
    "    mockRepository.create.mockResolvedValue(Err(error));";
    "";
    "    const result = await create" ++ capitalize feature ++ "UseCase.execute(dto);";
    "";
    "    expect(result.isErr()).toBe(true);";
    "    expect(result.unwrapErr()).toEqual(error);";
    "  });";
    "});"
  ].

Definition featureControllerTestTs (feature : string) (fields : list Field) (sampleJson : string) : string :=
  lines [
    "import request from 'supertest';";
    "import express from 'express';";
    "import { container } from 'tsyringe';";
    "import { " ++ capitalize feature ++ "Controller } from '../../../Features/" ++ feature ++ "/delivery/controllers/" ++ feature ++ ".controller';";
    "import { Create" ++ capitalize feature ++ "UseCase } from '../../../Features/" ++ feature ++ "/domain/usecases/create-" ++ feature ++ ".usecase';";
    "import { Result, Ok } from '../../../Core/result/result';";
    "import { " ++ capitalize feature ++ " } from '../../../Features/" ++ feature ++ "/domain/entity/" ++ feature ++ ".entity';";
    "";
    "describe('" ++ capitalize feature ++ "Controller', () => {";
    "  let app: express.Application;";
    "  let mockUseCase: jest.Mocked<Create" ++ capitalize feature ++ "UseCase>;";
    "";
    "  beforeEach(() => {";
    "    mockUseCase = {";
    "      execute: jest.fn(),";
    "    };";
    "    container.registerInstance('Create" ++ capitalize feature ++ "UseCase', mockUseCase);";
    "    const controller = container.resolve(" ++ capitalize feature ++ "Controller);";
    "    app = express();";
    "    app.use(express.json());";
    "    app.use('/api/" ++ feature ++ "', controller.getRouter());";
    "  });";
    "";
    "  afterEach(() => {";
    "    container.reset();";
    "  });";
    "";
    "  it('should create a " ++ feature ++ " and return 201', async () => {";
    "    const dto = " ++ sampleJson ++ ";";
    "    const " ++ feature ++ " = new " ++ capitalize feature ++ "('123', " ++ join ", " (map (fun f => "dto." ++ name f) fields) ++ ");";
    "    mockUseCase.execute.mockResolvedValue(Ok(" ++ feature ++ "));";
    "";
    "    const response = await request(app)";
    "      .post('/api/" ++ feature ++ "')";
    "      .send(dto)";
    "      .set('Accept', 'application/json');";
    "";
    "    expect(response.status).toBe(201);";
    "    expect(response.body).toEqual({";
    "      id: '123',";
    "      " ++ join ", " (map (fun f => name f ++ ": dto." ++ name f) fields);
    "    });";
    "    expect(mockUseCase.execute).toHaveBeenCalledWith(dto);";
    "  });";
    "";
    "  it('should return 400 for invalid input', async () => {";
    "    const invalidDto = {};";
    "";
    "    const response = await request(app)";
    "      .post('/api/" ++ feature ++ "')";
    "      .send(invalidDto)";
    "      .set('Accept', 'application/json');";
    "";
    "    expect(response.status).toBe(400);";
    "    expect(response.body.message).toContain('is required');";
    "  });";
    "};"
  ].

Definition readmeMd (projectName : string) (features : list Feature) (sampleJsons : list string) : string :=
  lines [
    "# " ++ projectName;
    "";
    "A TypeScript-based Express API with MongoDB, Mongoose, clean architecture, Zod validation, tsyringe DI, and Jest testing.";
    "";
    "## Setup";
    "";
    "1. Ensure MongoDB is running locally or update `.env` with your MongoDB URI.";
    "2. Install dependencies:";
    "   ```bash";
    "   npm install";
    "   ```";
    "3. Run in development mode:";
    "   ```bash";
    "   npm run dev";
    "   ```";
    "4. Build for production:";
    "   ```bash";
    "   npm run build";
    "   npm start";
    "   ```";
    "5. Run tests:";
    "   ```bash";
    "   npm test";
    "   ```";
    "";
    "## Testing";
    "";
    join nl (mapi (exampleRequest sampleJsons) features);
    "";
    "## Structure";
    "";
    "- `Core/`: Shared utilities (config, error, result).";
    "- `Features/`: Feature-specific modules (" ++ join ", " (map fname features) ++ ").";
    "  - `domain/`: Business logic (entities, use cases, repositories).";
    "  - `data/`: Data access (models, data sources, repositories).";
    "  - `delivery/`: HTTP layer (controllers, middleware).";
    "  - `container.ts`: DI container setup.";
    "- `Server/`: Application entry point.";
    "- `__tests__/`: Jest tests for features.";
    "";
    "## Notes";
    "";
    "- Uses `tsyringe` for dependency injection and `zod` for validation.";
    "- Run `npm test` to execute unit and integration tests.";
    "- Ensure MongoDB is running for integration tests."
  ].

End templates.

(** ** The regular expressions of the roster recovery

    The three expressions [/import { (\w+)Controller }/g], [/(\w+)Controller/]
    and [/Create a (\w+)/g] all have the shape literal, [(\w+)], literal.
    [wordsThen post] is the greedy [\w+] followed by [post]: it first tries
    to take one more word character and only gives characters back when the
    rest does not match. *)

Module Scan.

Fixpoint wordsThen (post s : string) : option string :=
  match s with
  | "" => None
  | String c s' =>
      if isWord c then
        match wordsThen post s' with
        | Some cap => Some (String c cap)
        | None => if startsWith s' post then Some (String c "") else None
        end
      else None
  end.

(** A match at the very start of [s]: the matched text and the group. *)
Definition matchAt (pre post s : string) : option (string * string) :=
  if startsWith s pre then
    match wordsThen post (slice_from (String.length pre) s) with
    | Some cap => Some (pre ++ cap ++ post, cap)
    | None => None
    end
  else None.

(** [s.match(re)] without the [g] flag: the leftmost match. *)
Fixpoint firstMatch (pre post s : string) : option (string * string) :=
  match matchAt pre post s with
  | Some r => Some r
  | None =>
      match s with
      | "" => None
      | String _ s' => firstMatch pre post s'
      end
  end.

(** [s.match(re)] with the [g] flag: every matched text, left to right,
    the search resuming where the previous match ended ([skip] counts the
    characters of a match still to pass). *)
Fixpoint matchAll_from (pre post s : string) (skip : nat) : list string :=
  match s with
  | "" => []
  | String _ s' =>
      match skip with
      | S k => matchAll_from pre post s' k
      | 0 =>
          match matchAt pre post s with
          | Some (m, _) => m :: matchAll_from pre post s' (String.length m - 1)
          | None => matchAll_from pre post s' 0
          end
      end
  end.
Definition matchAll (pre post s : string) : list string :=
  matchAll_from pre post s 0.

(** [/^# (.+)/m]: [^] is the start of a line, [.] any character but a
    line terminator. *)
Definition isLineTerminator (c : ascii) : bool :=
  Ascii.eqb c "010" || Ascii.eqb c "013".

Fixpoint takeLine (s : string) : string :=
  match s with
  | "" => ""
  | String c s' => if isLineTerminator c then "" else String c (takeLine s')
  end.

Definition headingAt (s : string) : option string :=
  if startsWith s "# " then
    let l := takeLine (slice_from 2 s) in
    if truthy l then Some l else None
  else None.

Fixpoint heading_from (s : string) (lineStart : bool) : option string :=
  match (if lineStart then headingAt s else None) with
  | Some l => Some l
  | None =>
      match s with
      | "" => None
      | String c s' => heading_from s' (isLineTerminator c)
      end
  end.
Definition heading (s : string) : option string := heading_from s true.

End Scan.

(** ** The process and its file system

    A run either returns, ends the process with [process.exit(code)], or
    throws.  The file system keeps the directories and the files under their
    resolved paths; [mkdir] (always recursive in the source) and [writeFile]
    succeed, [readFile] of a missing file throws.

    This is a file system whose calls succeed: [mkdir] lists the path it is
    given, not the parents that the recursive call makes on the way;
    [writeFile] does not ask for the directory of the file; paths are
    joined and resolved as they are spelled, without normalisation.  The
    properties of the runs are therefore stated for names under which the
    writes of the source go into directories it has made (a feature name
    that is one path segment, see [pathSegment]), about the directories the
    source asks for, and about the paths as the source spells them. *)

Record World : Type := mkWorld {
  dirs : list string;
  files : list (string * string);
  cwd : string;
  version : string;
  console : list string
}.

Inductive Outcome (A : Type) : Type :=
| Ret (a : A) (w : World)
| Exit (code : nat) (w : World)
| Throw (error : string) (w : World).
Arguments Ret {A}.
Arguments Exit {A}.
Arguments Throw {A}.

Definition M (A : Type) : Type := World -> Outcome A.

Definition ret {A : Type} (a : A) : M A := fun w => Ret a w.

Definition bind {A B : Type} (m : M A) (k : A -> M B) : M B :=
  fun w =>
    match m w with
    | Ret a w' => k a w'
    | Exit c w' => Exit c w'
    | Throw e w' => Throw e w'
    end.

Declare Scope proc_scope.
Delimit Scope proc_scope with proc.
Notation "x <- m ;; k" := (bind m (fun x => k))
  (at level 61, m at next level, right associativity) : proc_scope.
Notation "m ;; k" := (bind m (fun _ => k))
  (at level 61, right associativity) : proc_scope.
Local Open Scope proc_scope.

(** [try { m } catch (error) { h error }]: [process.exit] is not caught. *)
Definition try_catch {A : Type} (m : M A) (h : string -> M A) : M A :=
  fun w =>
    match m w with
    | Throw e w' => h e w'
    | r => r
    end.

Definition throw {A : Type} (e : string) : M A := fun w => Throw e w.

Definition liftThrow {A : Type} (r : string + A) : M A :=
  match r with
  | inl e => throw e
  | inr a => ret a
  end.

Definition when (b : bool) (m : M unit) : M unit := if b then m else ret tt.

(** [await Promise.all(xs.map(f))], one after the other. *)
Fixpoint forEach {A : Type} (f : A -> M unit) (xs : list A) : M unit :=
  match xs with
  | [] => ret tt
  | x :: xs' => f x ;; forEach f xs'
  end.

Module path.
(** [path.join(a, b, ...)], without the normalisation. *)
Definition join (parts : list string) : string := Js.join "/" parts.
End path.

Definition resolve (w : World) (p : string) : string :=
  if startsWith p "/" then p else path.join [cwd w; p].

Fixpoint lookup (p : string) (fs : list (string * string)) : option string :=
  match fs with
  | [] => None
  | (k, v) :: fs' => if String.eqb k p then Some v else lookup p fs'
  end.

Definition existsb_str (p : string) (xs : list string) : bool :=
  existsb (String.eqb p) xs.

Module fs.

Definition exists_ (w : World) (p : string) : bool :=
  existsb_str p (dirs w) ||
  match lookup p (files w) with Some _ => true | None => false end.

(** [fs.access(p).then(() => true).catch(() => false)] *)
Definition access (p : string) : M bool :=
  fun w => Ret (exists_ w (resolve w p)) w.

(** [fs.mkdir(p, { recursive: true })] *)
Definition mkdir (p : string) : M unit :=
  fun w =>
    let p' := resolve w p in
    if existsb_str p' (dirs w) then Ret tt w
    else Ret tt (mkWorld (dirs w ++ [p'])%list (files w) (cwd w) (version w) (console w)).

(** [fs.writeFile(p, content)]: the last write wins. *)
Definition writeFile (p content : string) : M unit :=
  fun w =>
    Ret tt (mkWorld (dirs w) ((resolve w p, content) :: files w)
                    (cwd w) (version w) (console w)).

(** [fs.readFile(p, 'utf8')] *)
Definition readFile (p : string) : M string :=
  fun w =>
    match lookup (resolve w p) (files w) with
    | Some content => Ret content w
    | None => Throw ("ENOENT: no such file or directory, open '" ++ p ++ "'") w
    end.

End fs.

Module process.

Definition exit {A : Type} (code : nat) : M A := fun w => Exit code w.

Definition cwd_ : M string := fun w => Ret (cwd w) w.

Definition chdir (p : string) : M unit :=
  fun w => Ret tt (mkWorld (dirs w) (files w) (resolve w p) (version w) (console w)).

Definition version_ : M string := fun w => Ret (version w) w.

End process.

Definition console_print (line : string) : M unit :=
  fun w => Ret tt (mkWorld (dirs w) (files w) (cwd w) (version w) (console w ++ [line])%list).
Definition console_log := console_print.
Definition console_error := console_print.

(** The exit status of a finished run: a run that returns ends with 0, an
    uncaught throw with 1. *)
Definition exit_status {A : Type} (o : Outcome A) : nat :=
  match o with
  | Ret _ _ => 0
  | Exit c _ => c
  | Throw _ _ => 1
  end.

Definition final {A : Type} (o : Outcome A) : World :=
  match o with
  | Ret _ w => w
  | Exit _ w => w
  | Throw _ w => w
  end.

(** ** Main CLI logic *)

Definition NODE_VERSION : string := "18".

(** [parseInt] of a text of decimal digits. *)
Definition parseInt (s : string) : nat :=
  (fix go (s : string) (acc : nat) : nat :=
     match s with
     | "" => acc
     | String c s' =>
         if isDigit c then go s' (10 * acc + (nat_of_ascii c - 48)) else acc
     end) s 0.

(** [process.version.match(/^v(\d+)/)?.[1]] *)
Fixpoint takeDigits (s : string) : string :=
  match s with
  | "" => ""
  | String c s' => if isDigit c then String c (takeDigits s') else ""
  end.

Definition nodeVersionOf (v : string) : option string :=
  match v with
  | String "v" rest => if truthy (takeDigits rest) then Some (takeDigits rest) else None
  | _ => None
  end.

Definition featureDirNames : list string :=
  ["domain/entity"; "domain/usecases"; "domain/repositories";
   "data/repositories"; "data/datasources"; "data/models";
   "delivery/routes"; "delivery/controllers"; "delivery/middlewares"].

Definition generateFeature (projectRoot feature : string) (fields : list Field)
  : M unit :=
  let featurePath := path.join ["Features"; feature] in
  let zodSchema := getZodSchema fields in
  let sampleJson := getSampleJson fields in
  let featureDirs :=
    List.app (map (fun d => path.join [featurePath; d]) featureDirNames)
             [path.join ["__tests__"; "Features"; feature]] in
  forEach (fun dir => fs.mkdir (path.join [projectRoot; dir])) featureDirs ;;
  fs.writeFile (path.join [projectRoot; featurePath; "container.ts"])
    (templates.featureContainerTs feature) ;;
  fs.writeFile (path.join [projectRoot; featurePath; "domain/entity"; feature ++ ".entity.ts"])
    (templates.featureEntityTs feature fields) ;;
  fs.writeFile (path.join [projectRoot; featurePath; "domain/repositories"; feature ++ ".repository.interface.ts"])
    (templates.featureRepositoryInterfaceTs feature) ;;
  fs.writeFile (path.join [projectRoot; featurePath; "domain/usecases"; "create-" ++ feature ++ ".usecase.ts"])
    (templates.featureUseCaseTs feature fields) ;;
  fs.writeFile (path.join [projectRoot; featurePath; "data/models"; feature ++ ".model.ts"])
    (templates.featureModelTs feature fields) ;;
  fs.writeFile (path.join [projectRoot; featurePath; "data/datasources"; feature ++ ".datasource.ts"])
    (templates.featureDataSourceTs feature fields) ;;
  fs.writeFile (path.join [projectRoot; featurePath; "data/repositories"; feature ++ ".repository.ts"])
    (templates.featureRepositoryTs feature) ;;
  fs.writeFile (path.join [projectRoot; featurePath; "delivery/middlewares"; "validate-" ++ feature ++ ".middleware.ts"])
    (templates.featureMiddlewareTs feature zodSchema) ;;
  fs.writeFile (path.join [projectRoot; featurePath; "delivery/controllers"; feature ++ ".controller.ts"])
    (templates.featureControllerTs feature) ;;
  fs.writeFile (path.join [projectRoot; "__tests__"; "Features"; feature; feature ++ ".usecase.test.ts"])
    (templates.featureUseCaseTestTs feature fields sampleJson) ;;
  fs.writeFile (path.join [projectRoot; "__tests__"; "Features"; feature; feature ++ ".controller.test.ts"])
    (templates.featureControllerTestTs feature fields sampleJson) ;;
  console_log ("Created folder structure for feature: " ++ feature).

(** The loop of [createProject] over the features: parse, remember the
    sample, generate. *)
Fixpoint generateFeatures (projectRoot : string) (features : list Feature)
  (sampleJsons : list string) : M (list string) :=
  match features with
  | [] => ret sampleJsons
  | f :: rest =>
      fields <- liftThrow (parseFields (or_else (fields f) defaultFields)) ;;
      generateFeature projectRoot (fname f) fields ;;
      generateFeatures projectRoot rest (sampleJsons ++ [getSampleJson fields])%list
  end.

Definition createProject (projectName pathSpec : string) (features : list Feature)
  : M unit :=
  let projectRoot := path.join [pathSpec; projectName] in
  try_catch
    (v <- process.version_ ;;
     when (match nodeVersionOf v with
           | None => true
           | Some nodeVersion => Nat.ltb (parseInt nodeVersion) (parseInt NODE_VERSION)
           end)
       (console_error ("Node.js version " ++ NODE_VERSION ++ " or higher is required. Found: " ++ v) ;;
        process.exit 1) ;;
     present <- fs.access projectRoot ;;
     when present
       (console_error ("Directory " ++ projectRoot ++ " already exists. Please remove it or choose a different name.") ;;
        process.exit 1) ;;
     fs.mkdir projectRoot ;;
     let directories :=
       List.app ["Core/config"; "Core/error"; "Core/result"; "Server"; "__tests__"]
         (flat_map (fun f =>
            List.app (map (fun d => "Features/" ++ fname f ++ "/" ++ d) featureDirNames)
                     ["__tests__/Features/" ++ fname f]) features) in
     forEach (fun dir => fs.mkdir (path.join [projectRoot; dir])) directories ;;
     console_log "Created core folder structure" ;;
     process.chdir projectRoot ;;
     fs.writeFile "package.json" (templates.packageJson projectName) ;;
     fs.writeFile "tsconfig.json" templates.tsconfigJson ;;
     fs.writeFile "jest.config.ts" templates.jestConfigTs ;;
     fs.writeFile ".env" (templates.env projectName) ;;
     fs.writeFile ".gitignore" templates.gitignore ;;
     fs.writeFile "Core/result/result.ts" templates.resultTs ;;
     fs.writeFile "Core/error/custom-error.ts" templates.customErrorTs ;;
     fs.writeFile "Core/config/database.ts" templates.databaseTs ;;
     fs.writeFile "Server/index.ts" (templates.serverIndexTs features) ;;
     console_log "Initialized Node.js project" ;;
     sampleJsons <- generateFeatures projectRoot features [] ;;
     fs.writeFile "README.md" (templates.readmeMd projectName features sampleJsons) ;;
     console_log "Project setup complete!" ;;
     console_log "To start the development server, run:" ;;
     console_log ("  cd " ++ projectRoot) ;;
     console_log "  npm install" ;;
     console_log "  npm run dev" ;;
     console_log "To run tests, run:" ;;
     console_log "  npm test" ;;
     console_log "Ensure MongoDB is running and update .env with the correct MONGODB_URI if needed.")
    (fun error =>
       console_error ("Failed to create project: " ++ error) ;;
       process.exit 1).

(** The roster read back from the bootstrap file:
    [serverContent.match(/import { (\w+)Controller }/g)?.map(m =>
       ({ name: m.match(/(\w+)Controller/)![1].toLowerCase(), fields: '' })) || []] *)
Definition controllerOf (m : string) : string + Feature :=
  match Scan.firstMatch "" "Controller" m with
  | Some (_, cap) => inr (mkFeature (toLowerCase cap) "")
  | None => inl "TypeError: Cannot read properties of null (reading '1')"
  end.

Definition serverRoster (serverContent : string) : string + list Feature :=
  mapThrow controllerOf (Scan.matchAll "import { " "Controller }" serverContent).

(** The roster read back from the README:
    [readmeContent.match(/Create a (\w+)/g)?.map(m => m.split(' ')[2]) || []] *)
Definition readmeRoster (readmeContent : string) : list string :=
  map (fun m => at_ (split " " m) 2) (Scan.matchAll "Create a " "" readmeContent).

(** [readmeContent.match(/^# (.+)/m)?.[1] || 'Project'] *)
Definition readmeProjectName (readmeContent : string) : string :=
  match Scan.heading readmeContent with
  | Some n => n
  | None => "Project"
  end.

Definition addFeature (featureName fields_ : string) : M unit :=
  projectRoot <- process.cwd_ ;;
  try_catch
    (marker <- fs.access (path.join [projectRoot; "Server/index.ts"]) ;;
     when (negb marker)
       (console_error "Error: Current directory is not a tsclean project. Run from the project root." ;;
        process.exit 1) ;;
     parsedFields <- liftThrow (parseFields (or_else fields_ defaultFields)) ;;
     generateFeature projectRoot featureName parsedFields ;;
     serverContent <- fs.readFile (path.join [projectRoot; "Server/index.ts"]) ;;
     let feature := mkFeature featureName fields_ in
     recovered <- liftThrow (serverRoster serverContent) ;;
     let newServerContent := templates.serverIndexTs (recovered ++ [feature])%list in
     fs.writeFile (path.join [projectRoot; "Server/index.ts"]) newServerContent ;;
     readmeContent <- fs.readFile (path.join [projectRoot; "README.md"]) ;;
     let projectName := readmeProjectName readmeContent in
     let existingFeatures := readmeRoster readmeContent in
     let newFeatures :=
       map (fun name => mkFeature name (if String.eqb name featureName then fields_ else ""))
           (existingFeatures ++ [featureName])%list in
     sampleJsons <-
       liftThrow (mapThrow
         (fun f => match parseFields (or_else (fields f) defaultFields) with
                   | inl e => inl e
                   | inr fs_ => inr (getSampleJson fs_)
                   end) newFeatures) ;;
     fs.writeFile (path.join [projectRoot; "README.md"])
       (templates.readmeMd projectName newFeatures sampleJsons) ;;
     console_log ("Feature '" ++ featureName ++ "' added to " ++ projectName) ;;
     console_log "Ensure MongoDB is running and update .env with the correct MONGODB_URI if needed.")
    (fun error =>
       console_error ("Failed to add feature: " ++ error) ;;
       process.exit 1).

(** ** The two descriptions the properties compare the code with *)

(** An entry in the words of the grammar: two or three parts between
    colons, none of them empty. *)
Definition validEntry (entry : string) : bool :=
  let parts := split ":" entry in
  (Nat.eqb (List.length parts) 2 || Nat.eqb (List.length parts) 3)
  && forallb truthy parts.

(** A field written back as [name:type] or [name:type:rule]. *)
Definition serializeField (f : Field) : string :=
  name f ++ ":" ++ type f ++
  match rule f with
  | Some r => ":" ++ r
  | None => ""
  end.

Definition serializeFields (fs : list Field) : string :=
  join "," (map serializeField fs).

(** The identifier of the creation use case of a feature. *)
Definition createUseCaseName (feature : string) : string :=
  "Create" ++ capitalize feature ++ "UseCase".

(** The member of the sample object and the member of the schema object
    that one field contributes. *)
Definition sampleMember (f : Field) : string :=
  q (name f) ++ ": " ++ sampleValue f.

Definition schemaMember (f : Field) : string :=
  "    " ++ name f ++ ": " ++ zodType f ++ "," ++ nl.


(** ** Vocabulary for the runs *)

(** The three ways the commands change the world. *)
Definition add_dir (w : World) (d : string) : World :=
  mkWorld (dirs w ++ [d])%list (files w) (cwd w) (version w) (console w).

Definition add_file (w : World) (p content : string) : World :=
  mkWorld (dirs w) ((p, content) :: files w) (cwd w) (version w) (console w).

Definition add_line (w : World) (line : string) : World :=
  mkWorld (dirs w) (files w) (cwd w) (version w) (console w ++ [line])%list.

Definition set_cwd (w : World) (d : string) : World :=
  mkWorld (dirs w) (files w) d (version w) (console w).

(** The running Node.js is recent enough for [createProject]. *)
Definition nodeOk (w : World) : bool :=
  match nodeVersionOf (version w) with
  | None => false
  | Some nodeVersion => negb (Nat.ltb (parseInt nodeVersion) (parseInt NODE_VERSION))
  end.

(** A later start of the tool in the same shell: the file system of [w'],
    the working directory and the Node.js of [w]. *)
Definition next_start (w w' : World) : World :=
  mkWorld (dirs w') (files w') (cwd w) (version w) (console w').

(** A run that returns, keeping an invariant [I]; a run that throws. *)
Definition returns {A : Type} (I : World -> Prop) (m : M A) (Q : A -> Prop) : Prop :=
  forall w, I w -> exists a w', m w = Ret a w' /\ I w' /\ Q a.

Definition throws {A : Type} (I : World -> Prop) (m : M A) (Q : string -> Prop) : Prop :=
  forall w, I w -> exists e w', m w = Throw e w' /\ I w' /\ Q e.

(** What an invariant must tolerate. *)
Definition keeps_dirs (I : World -> Prop) : Prop :=
  forall w d, I w -> I (add_dir w d).
Definition keeps_lines (I : World -> Prop) : Prop :=
  forall w l, I w -> I (add_line w l).
Definition keeps_write (I : World -> Prop) (p : string) : Prop :=
  forall w c, I w -> I (add_file w (resolve w p) c).

Definition keeps_cwd (I : World -> Prop) : Prop :=
  forall w d, I w -> I (set_cwd w d).

(** A run that returns or throws, never [process.exit]s, and keeps [I]. *)
Definition ends {A : Type} (I : World -> Prop) (m : M A)
  (QR : A -> Prop) (QT : string -> Prop) : Prop :=
  forall w, I w ->
    match m w with
    | Ret a w' => I w' /\ QR a
    | Throw e w' => I w' /\ QT e
    | Exit _ _ => False
    end.

(** ** Worlds for the examples *)

(** An empty disk, a shell in [/home/dev], Node.js 20. *)
Definition fresh_world : World :=
  mkWorld [] [] "/home/dev" "v20.11.0" [].

(** A project created under [/tmp] with the given feature names (default
    fields), and a shell inside it. *)
Definition project_world (projectName : string) (names : list string) : World :=
  set_cwd
    (final (createProject projectName "/tmp"
              (map (fun n => mkFeature n "") names) fresh_world))
    (path.join ["/tmp"; projectName]).

(** The project [shop] with the features [a] and [b]. *)
Definition shop_world : World := project_world "shop" ["a"; "b"].

(** ** Vocabulary for the roster recovery *)

(** A feature name the recovery reads back unchanged: non-empty, of
    lower-case letters, digits and underscores. *)
Definition isLowerWord (c : ascii) : bool :=
  isLower c || isDigit c || Ascii.eqb c "_".

Definition lowerName (s : string) : bool := truthy s && allChars isLowerWord s.

(** The phrase the README roster is recovered from. *)
Definition phrase : string := "Create a ".

(** [p] and [s] differ at a position that both have. *)
Fixpoint mismatch (p s : string) : bool :=
  match p, s with
  | String a p', String b s' => if Ascii.eqb a b then mismatch p' s' else true
  | _, _ => false
  end.

(** [\w+] followed by [post] cannot match at the start of [s], whatever
    follows [s]. *)
Fixpoint wordsNone (post s : string) : bool :=
  match s with
  | "" => false
  | String c s' =>
      if isWord c then wordsNone post s' && mismatch post s' else true
  end.

(** The pattern cannot match at the start of [l], whatever follows [l]. *)
Definition noMatchAt (pre post l : string) : bool :=
  mismatch pre l ||
  (String.prefix pre l && wordsNone post (slice_from (String.length pre) l)).

(** No match of the pattern can start inside [l], whatever follows. *)
Fixpoint clean (pre post l : string) : bool :=
  match l with
  | "" => true
  | String _ l' => noMatchAt pre post l && clean pre post l'
  end.

(** No match of [pre] can start inside a run of word characters that is
    followed by [lit]. *)
Fixpoint word_follow (pre lit : string) : bool :=
  match pre with
  | "" => false
  | String c pre' =>
      if isWord c then mismatch pre' lit && word_follow pre' lit else true
  end.

(** No match of [pre] can start inside a text and end in the [lit] that
    follows it. *)
Fixpoint free_follow (pre lit : string) : bool :=
  match pre with
  | "" => true
  | String _ "" => true
  | String _ pre' => mismatch pre' lit && free_follow pre' lit
  end.

(** The sections of the bootstrap file and of the README. *)
Definition importSection (features : list Feature) : string :=
  join nl (map templates.importLine features).

Definition mountSection (features : list Feature) : string :=
  join nl (map templates.mountLines features).

Definition testingSection (sampleJsons : list string) (features : list Feature)
  : string :=
  join nl (mapi (templates.exampleRequest sampleJsons) features).

(** The fixed text around the sections, read off the templates at the
    empty roster. *)
Definition server_head : string :=
  Eval vm_compute in take 186 (templates.serverIndexTs []).
Definition server_mid : string :=
  Eval vm_compute in take 108 (slice_from 186 (templates.serverIndexTs [])).
Definition server_tail : string :=
  Eval vm_compute in slice_from 294 (templates.serverIndexTs []).

Definition readme_head : string :=
  Eval vm_compute in slice_from 2 (take 463 (templates.readmeMd "" [] [])).
Definition readme_mid : string :=
  Eval vm_compute in take 110 (slice_from 463 (templates.readmeMd "" [] [])).
Definition readme_tail : string :=
  Eval vm_compute in slice_from 573 (templates.readmeMd "" [] []).

(** The two files [addFeature] regenerates, as the run from [w] resolves
    them. *)
Definition markerPath (w : World) : string :=
  resolve w (path.join [cwd w; "Server/index.ts"]).

Definition readmePath (w : World) : string :=
  resolve w (path.join [cwd w; "README.md"]).

(** The sample object [addFeature] writes for a roster entry. *)
Definition sampleOf (f : Feature) : string :=
  match parseFields (or_else (fields f) defaultFields) with
  | inr fs => getSampleJson fs
  | inl _ => ""
  end.

(** The README roster of [addFeature]: the names read back, then the new
    one; only entries of the new name carry its field text. *)
Definition newRoster (existing : list string) (featureName fields_ : string)
  : list Feature :=
  map (fun name => mkFeature name (if String.eqb name featureName then fields_ else ""))
      (existing ++ [featureName])%list.

(** ** Vocabulary for the lemmas *)

(** A part of an entry: non-empty, without a colon. *)
Definition part (s : string) : Prop := s <> "" /\ noChar ":" s = true.

Definition lowerFeature (f : Feature) : Prop := lowerName (fname f) = true.

(** A feature name the pattern [\w+] matches as a whole. *)
Definition wordName (s : string) : bool := truthy s && allChars isWord s.

Definition wordFeature (f : Feature) : Prop := wordName (fname f) = true.

(** The text [/import { (\w+)Controller }/] matches in the import line of a
    feature. *)
Definition importMatch (f : Feature) : string :=
  "import { " ++ capitalize (fname f) ++ "Controller }".

Definition noPhrase (s : string) : Prop := includes s phrase = false.


(** ** The two actions of the command line *)

(** [features[features.length - 1].fields = v] *)
Fixpoint setLastFields (features : list Feature) (v : string) : list Feature :=
  match features with
  | [] => []
  | f :: rest =>
      match rest with
      | [] => [mkFeature (fname f) v]
      | _ :: _ => f :: setLastFields rest v
      end
  end.

(** One turn of the loop of the [create] action over [options.feature]:
    the features so far and [currentFeature]. *)
Definition collectStep (st : list Feature * option string) (arg : string)
  : list Feature * option string :=
  let (features, currentFeature) := st in
  if startsWith arg "--feature=" then
    let currentFeature' := at_ (split "=" arg) 1 in
    (List.app features [mkFeature currentFeature' ""], Some currentFeature')
  else if startsWith arg "--fields=" &&
          match currentFeature with Some n => truthy n | None => false end
  then (setLastFields features (at_ (split "=" arg) 1), currentFeature)
  else st.

Definition collectFeatures (args : list string) : list Feature :=
  fst (fold_left collectStep args ([], None)).

(** [.action(async (projectName, pathSpec = '.', options) => ...)] of the
    [create] command. *)
Definition createAction (projectName : string) (pathSpec : option string)
  (feature : option (list string)) : M unit :=
  createProject projectName
    (match pathSpec with Some p => p | None => "." end)
    (collectFeatures (match feature with Some args => args | None => [] end)).

(** [.action(async (featureName, options) => ...)] of the [feature]
    command. *)
Definition featureAction (featureName : string) (fields_ : option string) : M unit :=
  addFeature featureName (or_else (match fields_ with Some f => f | None => "" end) "").

(** The arguments that spell one feature for the [create] action. *)
Definition featureArgs (entry : string * option string) : list string :=
  ("--feature=" ++ fst entry)
    :: match snd entry with
       | Some f => ["--fields=" ++ f]
       | None => []
       end.

Definition featureOf (entry : string * option string) : Feature :=
  mkFeature (fst entry) (match snd entry with Some f => f | None => "" end).

(** ** Vocabulary for the parsed fields *)

(** A part of a field as [parseFields] returns it: non-empty, without a
    colon and without a comma. *)
Definition cleanPart (s : string) : bool :=
  truthy s && noChar ":" s && noChar "," s.

Definition wellFormed (f : Field) : bool :=
  cleanPart (name f) && cleanPart (type f) &&
  match rule f with
  | Some r => cleanPart r
  | None => true
  end.

(** ** Vocabulary for the files of a run *)

(** The files of a feature, by their paths under the project root, in the
    order [generateFeature] writes them. *)
Definition featureFiles (feature : string) (fields : list Field)
  : list (string * string) :=
  [ ("Features/" ++ feature ++ "/container.ts",
     templates.featureContainerTs feature);
    ("Features/" ++ feature ++ "/domain/entity/" ++ feature ++ ".entity.ts",
     templates.featureEntityTs feature fields);
    ("Features/" ++ feature ++ "/domain/repositories/" ++ feature ++ ".repository.interface.ts",
     templates.featureRepositoryInterfaceTs feature);
    ("Features/" ++ feature ++ "/domain/usecases/create-" ++ feature ++ ".usecase.ts",
     templates.featureUseCaseTs feature fields);
    ("Features/" ++ feature ++ "/data/models/" ++ feature ++ ".model.ts",
     templates.featureModelTs feature fields);
    ("Features/" ++ feature ++ "/data/datasources/" ++ feature ++ ".datasource.ts",
     templates.featureDataSourceTs feature fields);
    ("Features/" ++ feature ++ "/data/repositories/" ++ feature ++ ".repository.ts",
     templates.featureRepositoryTs feature);
    ("Features/" ++ feature ++ "/delivery/middlewares/validate-" ++ feature ++ ".middleware.ts",
     templates.featureMiddlewareTs feature (getZodSchema fields));
    ("Features/" ++ feature ++ "/delivery/controllers/" ++ feature ++ ".controller.ts",
     templates.featureControllerTs feature);
    ("__tests__/Features/" ++ feature ++ "/" ++ feature ++ ".usecase.test.ts",
     templates.featureUseCaseTestTs feature fields (getSampleJson fields));
    ("__tests__/Features/" ++ feature ++ "/" ++ feature ++ ".controller.test.ts",
     templates.featureControllerTestTs feature fields (getSampleJson fields)) ].

(** The directories of a feature, by their paths under the project root. *)
Definition featureDirs (feature : string) : list string :=
  List.app (map (fun d => "Features/" ++ feature ++ "/" ++ d) featureDirNames)
           ["__tests__/Features/" ++ feature].

(** A list of files put on the disk under [base], the last one on top. *)
Definition written (base : string) (l : list (string * string))
  : list (string * string) :=
  rev (map (fun e => (base ++ fst e, snd e)) l).

(** The core files of a project, by their paths under the project root, in
    the order [createProject] writes them. *)
Definition coreFiles (projectName : string) (features : list Feature)
  : list (string * string) :=
  [ ("package.json", templates.packageJson projectName);
    ("tsconfig.json", templates.tsconfigJson);
    ("jest.config.ts", templates.jestConfigTs);
    (".env", templates.env projectName);
    (".gitignore", templates.gitignore);
    ("Core/result/result.ts", templates.resultTs);
    ("Core/error/custom-error.ts", templates.customErrorTs);
    ("Core/config/database.ts", templates.databaseTs);
    ("Server/index.ts", templates.serverIndexTs features) ].

(** The field text of a feature parses; the fields it parses to. *)
Definition parses (f : Feature) : Prop :=
  exists fl, parseFields (or_else (fields f) defaultFields) = inr fl.

Definition fieldsOf (f : Feature) : list Field :=
  match parseFields (or_else (fields f) defaultFields) with
  | inr fl => fl
  | inl _ => []
  end.

(** What lies between the directory [createProject] changes to and the
    paths [generateFeature] resolves from there: nothing when the project
    root is an absolute path, the project root once more when it is a
    relative one. *)
Definition nested (projectRoot : string) : string :=
  if startsWith projectRoot "/" then "" else projectRoot ++ "/".

(** [resolve] from a given working directory. *)
Definition resolveFrom (dir p : string) : string :=
  if startsWith p "/" then p else path.join [dir; p].

(** How often a character occurs in a text. *)
Fixpoint countChar (c : ascii) (s : string) : nat :=
  match s with
  | "" => 0
  | String x s' => (if Ascii.eqb x c then 1 else 0) + countChar c s'
  end.

(** A character of the ASCII range, where the case mapping of JavaScript
    is the one of [upperChar] and [lowerChar]. *)
Definition isAscii (c : ascii) : bool := Nat.ltb (nat_of_ascii c) 128.

(** The text of [s] before the first occurrence of the character [c]; all
    of [s] when [c] does not occur in it. *)
Fixpoint upTo (c : ascii) (s : string) : string :=
  match s with
  | "" => ""
  | String x s' => if Ascii.eqb x c then "" else String x (upTo c s')
  end.

(** The directories [createProject] asks for under the project root: its
    list [directories]. *)
Definition projectDirs (features : list Feature) : list string :=
  List.app ["Core/config"; "Core/error"; "Core/result"; "Server"; "__tests__"]
    (flat_map (fun f =>
       List.app (map (fun d => "Features/" ++ fname f ++ "/" ++ d) featureDirNames)
                ["__tests__/Features/" ++ fname f]) features).

(** A feature whose field text does not parse. *)
Definition malformed (f : Feature) : Prop :=
  parseFields (or_else (fields f) defaultFields) = inl FieldSchema_message.

(** A name that is one segment of a path: not empty, not ["."] or [".."],
    and without ["/"] and the NUL character.  [generateFeature] makes the
    directories [Features/<name>/...] and writes [<name>.entity.ts] and the
    like into them; for such a name every file it writes lies in a
    directory it has made. *)
Definition pathSegment (s : string) : bool :=
  truthy s && negb (String.eqb s ".") && negb (String.eqb s "..")
  && noChar "/" s && noChar "000" s.

(** ** Vocabulary for the identifiers of a generated file *)

(** The identifiers of a text: its maximal runs of word characters, from
    left to right.  [acc] is the run that is being read. *)
Fixpoint identifiers_from (acc s : string) : list string :=
  match s with
  | "" => if truthy acc then [acc] else []
  | String c s' =>
      if isWord c then identifiers_from (acc ++ String c "") s'
      else if truthy acc then acc :: identifiers_from "" s'
      else identifiers_from "" s'
  end.

Definition identifiers (s : string) : list string := identifiers_from "" s.

(** [s.endsWith(t)] *)
Fixpoint endsWith (s t : string) : bool :=
  String.eqb s t ||
  match s with
  | "" => false
  | String _ s' => endsWith s' t
  end.

(** An identifier of the form of the name of a creation use case:
    ["Create"], anything, ["UseCase"]. *)
Definition namesCreateUseCase (t : string) : bool :=
  startsWith t "Create" && endsWith t "UseCase".

(** The identifiers of that form in a text, from left to right. *)
Definition createUseCaseNames (text : string) : list string :=
  filter namesCreateUseCase (identifiers text).

(** What follows serves the proofs about [createUseCaseNames]: a template
    is read piece by piece, a piece being a literal, a hole filled with a
    word, or a hole filled with any text. *)

(** The run that is being read, as an identifier, when it is not empty. *)
Definition flushRun (acc : string) : list string :=
  if truthy acc then [acc] else [].

(** Reading a literal: the identifiers it closes and the run it leaves
    open. *)
Fixpoint readLit (acc l : string) : list string * string :=
  match l with
  | "" => ([], acc)
  | String c l' =>
      if isWord c then readLit (acc ++ String c "") l'
      else let r := readLit "" l' in (List.app (flushRun acc) (fst r), snd r)
  end.

(** The first run of a literal, and what follows its first character that
    is not a word character. *)
Fixpoint firstRun (l : string) : string :=
  match l with
  | "" => ""
  | String c l' => if isWord c then String c (firstRun l') else ""
  end.

Fixpoint afterBreak (l : string) : option string :=
  match l with
  | "" => None
  | String c l' => if isWord c then afterBreak l' else Some l'
  end.

(** The names of the form, with a run already read. *)
Definition namesFrom (acc s : string) : list string :=
  filter namesCreateUseCase (identifiers_from acc s).

Definition nameOfRun (acc : string) : list string :=
  filter namesCreateUseCase (flushRun acc).

(** The names found in a hole of a template. *)
Definition holeNames (h : string) : list string := createUseCaseNames h.

(** What a literal with a character that is not a word character
    contributes: its first run, the names it closes after it, the run it
    leaves open. *)
Definition litParts (l : string) : option (string * list string * string) :=
  match afterBreak l with
  | Some l' =>
      let r := readLit "" l' in
      Some (firstRun l, filter namesCreateUseCase (fst r), snd r)
  | None => None
  end.

Definition startsNonWord (l : string) : bool :=
  match l with
  | "" => false
  | String c _ => negb (isWord c)
  end.

(** The last character of a text. *)
Fixpoint lastChar (s : string) : option ascii :=
  match s with
  | "" => None
  | String c s' => match lastChar s' with Some d => Some d | None => Some c end
  end.

(** Every file of a feature is written directly into one of the directories
    made for the feature, or into [Features/<name>], which the recursive
    [mkdir] makes on the way. *)
Definition filesInDirs (feature : string) (fl : list Field) : Prop :=
  forall rel,
    In rel (map fst (featureFiles feature fl)) ->
    exists d file,
      rel = d ++ "/" ++ file /\ noChar "/" file = true /\
      (In d (featureDirs feature) \/ d = "Features/" ++ feature).
(* ================================================================== *)
(** * Part II. Lemmas *)
(* ================================================================== *)

(** ** Strings *)

Section Strings.

Lemma app_assoc_s (a b c : string) : (a ++ b) ++ c = a ++ (b ++ c).
Proof. induction a as [|x a IH]; simpl; [reflexivity | now rewrite IH]. Qed.

Lemma app_nil_r_s (a : string) : a ++ "" = a.
Proof. induction a as [|x a IH]; simpl; [reflexivity | now rewrite IH]. Qed.

Lemma length_app_s (a b : string) :
  String.length (a ++ b) = String.length a + String.length b.
Proof. induction a as [|x a IH]; simpl; [reflexivity | now rewrite IH]. Qed.

Lemma app_inv_head_s (a b c : string) : a ++ b = a ++ c -> b = c.
Proof. induction a as [|x a IH]; simpl; intros H; [exact H | injection H; auto]. Qed.

Lemma take_app_length (a b : string) : take (String.length a) (a ++ b) = a.
Proof.
  induction a as [|x a IH]; simpl.
  - destruct b; reflexivity.
  - now rewrite IH.
Qed.

Lemma slice_to_neg_app (a b : string) :
  slice_to_neg (a ++ b) (String.length b) = a.
Proof.
  unfold slice_to_neg. rewrite length_app_s.
  replace (String.length a + String.length b - String.length b)
    with (String.length a) by lia.
  apply take_app_length.
Qed.

Lemma slice_from_app (a b : string) : slice_from (String.length a) (a ++ b) = b.
Proof. induction a as [|x a IH]; simpl; [reflexivity | exact IH]. Qed.

Lemma prefix_nil (s : string) : String.prefix "" s = true.
Proof. destruct s; reflexivity. Qed.

Lemma prefix_cons (x y : ascii) (p s : string) :
  String.prefix (String x p) (String y s) = Ascii.eqb x y && String.prefix p s.
Proof.
  simpl. destruct (ascii_dec x y) as [->|Hne].
  - now rewrite Ascii.eqb_refl.
  - apply Ascii.eqb_neq in Hne. now rewrite Hne.
Qed.

Lemma prefix_app (p s : string) : String.prefix p (p ++ s) = true.
Proof.
  induction p as [|x p IH]; simpl.
  - apply prefix_nil.
  - destruct (ascii_dec x x); [exact IH | congruence].
Qed.

Lemma prefix_true_iff (p s : string) :
  String.prefix p s = true <-> exists t, s = p ++ t.
Proof.
  split.
  - revert s. induction p as [|x p IH]; intros s H.
    + now exists s.
    + destruct s as [|y s]; [discriminate|].
      rewrite prefix_cons in H. apply andb_true_iff in H as [Hxy Hp].
      apply Ascii.eqb_eq in Hxy. subst y.
      destruct (IH _ Hp) as [t ->]. now exists t.
  - intros [t ->]. apply prefix_app.
Qed.

Lemma startsWith_app (p s : string) : startsWith (p ++ s) p = true.
Proof. apply prefix_app. Qed.

Lemma includes_prefix (s t : string) :
  String.prefix t s = true -> includes s t = true.
Proof. intros H. destruct s; unfold includes; fold includes; now rewrite H. Qed.

Lemma includes_tail (x : ascii) (s t : string) :
  includes s t = true -> includes (String x s) t = true.
Proof.
  intros H. unfold includes; fold includes. rewrite H. apply orb_true_r.
Qed.

Lemma includes_intro (a t b : string) : includes (a ++ t ++ b) t = true.
Proof.
  induction a as [|x a IH].
  - change (includes (t ++ b) t = true). apply includes_prefix, prefix_app.
  - change (includes (String x (a ++ t ++ b)) t = true).
    apply includes_tail, IH.
Qed.

Lemma includes_true_iff (s t : string) :
  includes s t = true <-> exists a b, s = a ++ t ++ b.
Proof.
  split.
  - induction s as [|x s IH]; intros H.
    + change (String.prefix t "" || false = true) in H.
      rewrite orb_false_r in H. apply prefix_true_iff in H as [u Hu].
      exists "", u. exact Hu.
    + change (String.prefix t (String x s) || includes s t = true) in H.
      apply orb_true_iff in H as [H|H].
      * apply prefix_true_iff in H as [u Hu]. exists "", u. exact Hu.
      * destruct (IH H) as (a & b & ->). now exists (String x a), b.
  - intros (a & b & ->). apply includes_intro.
Qed.

Lemma includes_trans (s t u : string) :
  includes s t = true -> includes t u = true -> includes s u = true.
Proof.
  rewrite !includes_true_iff.
  intros (a & b & ->) (c & d & ->).
  exists (a ++ c), (d ++ b). now rewrite !app_assoc_s.
Qed.

Lemma includes_refl (s : string) : includes s s = true.
Proof.
  apply includes_true_iff. exists "", "". now rewrite app_nil_r_s.
Qed.

Lemma join_cons2 (sep x y : string) (l : list string) :
  join sep (x :: y :: l) = x ++ sep ++ join sep (y :: l).
Proof. reflexivity. Qed.

Lemma includes_join (sep l : string) (ls : list string) :
  In l ls -> includes (join sep ls) l = true.
Proof.
  induction ls as [|x ls IH]; intros Hin; [destruct Hin|].
  destruct ls as [|y ls].
  - destruct Hin as [->|[]]. apply includes_refl.
  - rewrite join_cons2. destruct Hin as [->|Hin].
    + apply includes_true_iff. now exists "", (sep ++ join sep (y :: ls)).
    + specialize (IH Hin). apply includes_true_iff in IH as (a & b & E).
      apply includes_true_iff. exists (x ++ sep ++ a), b.
      rewrite E. now rewrite !app_assoc_s.
Qed.

Lemma includes_lines (l : string) (ls : list string) :
  In l ls -> includes (lines ls) l = true.
Proof. apply includes_join. Qed.

End Strings.

(** ** [split] and [join] *)

Section SplitJoin.

Variable c : ascii.

Lemma split_cons_form (s : string) : exists h t, split c s = h :: t.
Proof.
  induction s as [|x s (h & t & E)]; simpl.
  - now exists "", [].
  - destruct (Ascii.eqb x c).
    + now exists "", (split c s).
    + rewrite E. now exists (String x h), t.
Qed.


Lemma split_noChar (s : string) : noChar c s = true -> split c s = [s].
Proof.
  induction s as [|x s IH]; simpl; intros H; [reflexivity|].
  apply andb_true_iff in H as [Hx Hs].
  apply negb_true_iff in Hx. rewrite Hx, (IH Hs). reflexivity.
Qed.

Lemma split_app_sep (a b : string) :
  noChar c a = true -> split c (a ++ String c b) = a :: split c b.
Proof.
  induction a as [|x a IH]; simpl; intros H.
  - now rewrite Ascii.eqb_refl.
  - apply andb_true_iff in H as [Hx Hs].
    apply negb_true_iff in Hx. rewrite Hx, (IH Hs). reflexivity.
Qed.

Lemma join_split (s : string) : join (String c "") (split c s) = s.
Proof.
  induction s as [|x s IH]; simpl; [reflexivity|].
  destruct (Ascii.eqb x c) eqn:E.
  - apply Ascii.eqb_eq in E. subst x.
    destruct (split_cons_form s) as (h & t & Hs).
    rewrite Hs in *. unfold join in *. simpl in *. now rewrite IH.
  - destruct (split_cons_form s) as (h & t & Hs).
    rewrite Hs in *. unfold join in *.
    destruct t as [|h' t]; simpl in *; now rewrite IH.
Qed.

Lemma split_parts_noChar (s : string) :
  Forall (fun p => noChar c p = true) (split c s).
Proof.
  induction s as [|x s IH]; simpl.
  - repeat constructor.
  - destruct (Ascii.eqb x c) eqn:E.
    + constructor; [reflexivity | exact IH].
    + destruct (split c s) as [|h t]; [repeat constructor; simpl; now rewrite E|].
      inversion IH; subst. constructor; [simpl; rewrite E; assumption | assumption].
Qed.

Lemma split_join (l : list string) :
  l <> [] -> Forall (fun p => noChar c p = true) l ->
  split c (join (String c "") l) = l.
Proof.
  induction l as [|x l IH]; intros Hne Hall; [congruence|].
  inversion Hall as [|? ? Hx Hl]; subst.
  destruct l as [|y l].
  - simpl. now apply split_noChar.
  - rewrite join_cons2. change (String c "" ++ join (String c "") (y :: l))
      with (String c (join (String c "") (y :: l))).
    rewrite split_app_sep by assumption.
    rewrite IH; [reflexivity | discriminate | assumption].
Qed.

Lemma split_app_head (a b : string) :
  noChar c a = true ->
  split c (a ++ b) = (a ++ hd "" (split c b)) :: tl (split c b).
Proof.
  induction a as [|x a IH]; simpl; intros H.
  - destruct (split_cons_form b) as (h & t & ->). reflexivity.
  - apply andb_true_iff in H as [Hx Hs].
    apply negb_true_iff in Hx. rewrite Hx, (IH Hs). reflexivity.
Qed.

Lemma noChar_app (a b : string) :
  noChar c (a ++ b) = noChar c a && noChar c b.
Proof.
  induction a as [|x a IH]; simpl; [reflexivity|].
  now rewrite IH, andb_assoc.
Qed.

End SplitJoin.

(** A text without ["="] after a rule name is the rule's argument. *)
Lemma ruleArg_prefix (key arg : string) :
  noChar "=" key = true -> noChar "=" arg = true ->
  ruleArg (key ++ "=" ++ arg) = arg.
Proof.
  intros Hk Ha. unfold ruleArg.
  change (key ++ "=" ++ arg) with (key ++ String "=" arg).
  rewrite split_app_sep by assumption.
  now rewrite split_noChar.
Qed.

(** When only the first item of a ["|"] list is free of ["="], the argument
    still starts with that item. *)
Lemma ruleArg_first (key first rest : string) :
  noChar "=" key = true -> noChar "=" first = true -> noChar "|" first = true ->
  at_ (split "|" (ruleArg (key ++ "=" ++ first ++ "|" ++ rest))) 0 = first.
Proof.
  intros Hk Hf Hb. unfold ruleArg.
  change (key ++ "=" ++ first ++ "|" ++ rest)
    with (key ++ String "=" (first ++ String "|" rest)).
  rewrite split_app_sep by assumption.
  rewrite split_app_head by assumption.
  cbn [at_ nth].
  destruct (split_cons_form "=" (String "|" rest)) as (h & t & E).
  assert (Hh : exists u, h = String "|" u).
  { simpl in E. destruct (split_cons_form "=" rest) as (h' & t' & E').
    rewrite E' in E. injection E as <- _. now exists h'. }
  destruct Hh as [u ->]. rewrite E. cbn [hd].
  rewrite split_app_sep by assumption. reflexivity.
Qed.

Lemma noChar_join (c : ascii) (sep : string) (l : list string) :
  noChar c sep = true -> Forall (fun p => noChar c p = true) l ->
  noChar c (join sep l) = true.
Proof.
  intros Hsep Hall. induction Hall as [|x l Hx Hl IH]; [reflexivity|].
  destruct l as [|y l]; [exact Hx|].
  rewrite join_cons2, !noChar_app, Hx, Hsep, IH. reflexivity.
Qed.

(** ** The sample object and the schema object *)

Lemma fold_left_append {A : Type} (step : string -> A -> string)
  (g : A -> string) (xs : list A) (acc : string) :
  (forall s x, step s x = s ++ g x) ->
  fold_left step xs acc = acc ++ join "" (map g xs).
Proof.
  intros Hstep. revert acc. induction xs as [|x xs IH]; intros acc; simpl.
  - now rewrite app_nil_r_s.
  - rewrite IH, Hstep, app_assoc_s.
    destruct xs; simpl; [now rewrite app_nil_r_s | reflexivity].
Qed.

Lemma join_members (g : Field -> string) (sep : string) (f : Field) (fs : list Field) :
  join "" (map (fun x => g x ++ sep) (f :: fs)) = join sep (map g (f :: fs)) ++ sep.
Proof.
  revert f. induction fs as [|f' fs IH]; intros f.
  - reflexivity.
  - change (map (fun x => g x ++ sep) (f :: f' :: fs))
      with ((g f ++ sep) :: map (fun x => g x ++ sep) (f' :: fs)).
    change (map g (f :: f' :: fs)) with (g f :: map g (f' :: fs)).
    change (map (fun x => g x ++ sep) (f' :: fs))
      with ((g f' ++ sep) :: map (fun x => g x ++ sep) fs).
    rewrite join_cons2.
    change ((g f' ++ sep) :: map (fun x => g x ++ sep) fs)
      with (map (fun x => g x ++ sep) (f' :: fs)).
    rewrite IH.
    change (map g (f' :: fs)) with (g f' :: map g fs).
    rewrite join_cons2. simpl. now rewrite !app_assoc_s.
Qed.

Lemma getSampleJson_members (f : Field) (fs : list Field) :
  getSampleJson (f :: fs) = "{" ++ join ", " (map sampleMember (f :: fs)) ++ "}".
Proof.
  unfold getSampleJson.
  rewrite (fold_left_append _ (fun x => sampleMember x ++ ", ")).
  - rewrite join_members, <- app_assoc_s.
    change 2 with (String.length ", "). rewrite slice_to_neg_app.
    now rewrite app_assoc_s.
  - intros s x. unfold sampleMember, q. now rewrite !app_assoc_s.
Qed.


Lemma getZodSchema_members (fs : list Field) :
  getZodSchema fs = "z.object({" ++ nl ++ join "" (map schemaMember fs) ++ "})".
Proof.
  unfold getZodSchema.
  rewrite (fold_left_append _ schemaMember).
  - now rewrite !app_assoc_s.
  - intros s x. reflexivity.
Qed.

(** ** Derivatives decide the language *)

Section RegexCorrect.

Import Regex.

Lemma app_eq_nil_s (a b : string) : a ++ b = "" -> a = "" /\ b = "".
Proof. destruct a; simpl; [auto | discriminate]. Qed.

Lemma Lang_Void_inv s : Lang Void s -> False.
Proof. inversion 1. Qed.

Lemma Lang_Eps_inv s : Lang Eps s -> s = "".
Proof. now inversion 1. Qed.

Lemma Lang_Class_inv p s : Lang (Class p) s -> exists c, s = String c "" /\ p c = true.
Proof. inversion 1; subst. eauto. Qed.

Lemma Lang_Cat_inv r1 r2 s :
  Lang (Cat r1 r2) s -> exists s1 s2, s = s1 ++ s2 /\ Lang r1 s1 /\ Lang r2 s2.
Proof. inversion 1; subst. eauto. Qed.

Lemma Lang_Alt_inv r1 r2 s : Lang (Alt r1 r2) s -> Lang r1 s \/ Lang r2 s.
Proof. inversion 1; subst; auto. Qed.

Lemma Lang_Star_cons r c s :
  Lang (Star r) (String c s) ->
  exists s1 s2, s = s1 ++ s2 /\ Lang r (String c s1) /\ Lang (Star r) s2.
Proof.
  remember (Star r) as r' eqn:Er. remember (String c s) as t eqn:Et.
  intros H. revert r c s Er Et.
  induction H as [ | ? ? ? | ? ? ? ? ? ? ? ? | ? ? ? ? ? | ? ? ? ? ?
                 | r0 | r0 s1 s2 H1 IH1 H2 IH2 ];
    intros r' c' s' Er Et; try discriminate.
  injection Er as ->.
  destruct s1 as [|x s1].
  - simpl in Et. apply (IH2 r' c' s' eq_refl Et).
  - simpl in Et. injection Et as -> <-. exists s1, s2. auto.
Qed.

Lemma nullable_Lang r : nullable r = true <-> Lang r "".
Proof.
  induction r as [ | | p | r1 IH1 r2 IH2 | r1 IH1 r2 IH2 | r IH ]; simpl.
  - split; [discriminate | intros H; now apply Lang_Void_inv in H].
  - split; [constructor | reflexivity].
  - split; [discriminate|].
    intros H. apply Lang_Class_inv in H as (c & E & _). discriminate.
  - rewrite andb_true_iff, IH1, IH2. split.
    + intros [H1 H2]. change "" with ("" ++ ""). now constructor.
    + intros H. apply Lang_Cat_inv in H as (s1 & s2 & E & H1 & H2).
      symmetry in E. apply app_eq_nil_s in E as [-> ->]. auto.
  - rewrite orb_true_iff, IH1, IH2. split.
    + intros [H|H]; [now apply LAltL | now apply LAltR].
    + apply Lang_Alt_inv.
  - split; [constructor | reflexivity].
Qed.

Lemma deriv_Lang r : forall c s, Lang (deriv c r) s <-> Lang r (String c s).
Proof.
  induction r as [ | | p | r1 IH1 r2 IH2 | r1 IH1 r2 IH2 | r IH ];
    intros c s; simpl.
  - split; intros H; [now apply Lang_Void_inv in H | inversion H].
  - split; intros H; [now apply Lang_Void_inv in H | inversion H].
  - destruct (p c) eqn:Hp; split; intros H.
    + apply Lang_Eps_inv in H. subst. now constructor.
    + apply Lang_Class_inv in H as (c' & E & _). injection E as <- ->. constructor.
    + now apply Lang_Void_inv in H.
    + apply Lang_Class_inv in H as (c' & E & Hp'). injection E as <- _. congruence.
  - assert (Hcat : Lang (Cat (deriv c r1) r2) s ->
                   Lang (Cat r1 r2) (String c s)).
    { intros H. apply Lang_Cat_inv in H as (s1 & s2 & -> & H1 & H2).
      apply IH1 in H1. change (String c (s1 ++ s2)) with (String c s1 ++ s2).
      now constructor. }
    assert (Hback : Lang (Cat r1 r2) (String c s) ->
                    Lang (Cat (deriv c r1) r2) s \/
                    (Lang r1 "" /\ Lang (deriv c r2) s)).
    { intros H. apply Lang_Cat_inv in H as (s1 & s2 & E & H1 & H2).
      destruct s1 as [|x s1]; simpl in E.
      - subst s2. right. split; [assumption | now apply IH2].
      - injection E as <- ->. left. constructor; [now apply IH1 | assumption]. }
    destruct (nullable r1) eqn:Hn; split; intros H.
    + apply Lang_Alt_inv in H as [H|H]; [auto|].
      change (String c s) with ("" ++ String c s).
      constructor; [now apply nullable_Lang | now apply IH2].
    + destruct (Hback H) as [H'|[_ H']]; [now apply LAltL | now apply LAltR].
    + auto.
    + destruct (Hback H) as [H'|[H' _]]; [assumption|].
      apply nullable_Lang in H'. congruence.
  - split; intros H.
    + apply Lang_Alt_inv in H as [H|H];
        [apply LAltL; now apply IH1 | apply LAltR; now apply IH2].
    + apply Lang_Alt_inv in H as [H|H];
        [apply LAltL; now apply IH1 | apply LAltR; now apply IH2].
  - split; intros H.
    + apply Lang_Cat_inv in H as (s1 & s2 & -> & H1 & H2).
      apply IH in H1. change (String c (s1 ++ s2)) with (String c s1 ++ s2).
      now constructor.
    + apply Lang_Star_cons in H as (s1 & s2 & -> & H1 & H2).
      constructor; [now apply IH | assumption].
Qed.

Theorem test_Lang r s : test r s = true <-> Lang r s.
Proof.
  revert r. induction s as [|c s IH]; intros r; simpl.
  - apply nullable_Lang.
  - rewrite IH. apply deriv_Lang.
Qed.

(** Runs of one character class. *)
Lemma Lang_Star_Class p s : Lang (Star (Class p)) s <-> allChars p s = true.
Proof.
  split.
  - induction s as [|c s IH]; intros H; [reflexivity|].
    apply Lang_Star_cons in H as (s1 & s2 & -> & H1 & H2).
    apply Lang_Class_inv in H1 as (c' & E & Hp).
    injection E as Ec Es. subst c' s1.
    simpl. rewrite Hp. now apply IH.
  - induction s as [|c s IH]; simpl; intros H; [constructor|].
    apply andb_true_iff in H as [Hp Hs].
    change (String c s) with (String c "" ++ s).
    constructor; [now constructor | auto].
Qed.

Lemma Lang_Plus_Class p s :
  Lang (Plus (Class p)) s <-> s <> "" /\ allChars p s = true.
Proof.
  unfold Plus. split.
  - intros H. apply Lang_Cat_inv in H as (s1 & s2 & -> & H1 & H2).
    apply Lang_Class_inv in H1 as (c & -> & Hp).
    apply Lang_Star_Class in H2. simpl. rewrite Hp, H2. split; [discriminate | reflexivity].
  - intros [Hne H]. destruct s as [|c s]; [congruence|].
    simpl in H. apply andb_true_iff in H as [Hp Hs].
    change (String c s) with (String c "" ++ s).
    constructor; [now constructor | now apply Lang_Star_Class].
Qed.

End RegexCorrect.

(** ** The field pattern *)

Lemma allChars_notColon (s : string) :
  allChars (fun x => negb (Ascii.eqb ":" x)) s = noChar ":" s.
Proof.
  induction s as [|x s IH]; [reflexivity|].
  cbn [allChars noChar]. now rewrite IH, (Ascii.eqb_sym ":" x).
Qed.

Lemma Lang_part (s : string) :
  Regex.Lang (Regex.Plus (Regex.NotChr ":")) s <-> part s.
Proof.
  unfold Regex.NotChr, part. rewrite Lang_Plus_Class, allChars_notColon. reflexivity.
Qed.

Lemma Lang_colon (s : string) : Regex.Lang (Regex.Chr ":") s <-> s = ":".
Proof.
  unfold Regex.Chr. split.
  - intros H. apply Lang_Class_inv in H as (c & -> & Hc).
    apply Ascii.eqb_eq in Hc. now subst.
  - intros ->. constructor. reflexivity.
Qed.

(** The language of the pattern: two or three parts between colons. *)
Lemma Lang_FieldSchema (s : string) :
  Regex.Lang FieldSchema_re s <->
  exists n t, part n /\ part t /\
    (s = n ++ ":" ++ t \/ exists r, part r /\ s = n ++ ":" ++ t ++ ":" ++ r).
Proof.
  unfold FieldSchema_re, Regex.Opt. split.
  - intros H.
    apply Lang_Cat_inv in H as (n & s1 & -> & Hn & H).
    apply Lang_Cat_inv in H as (k & s2 & -> & Hk & H).
    apply Lang_Cat_inv in H as (t & s3 & -> & Ht & H).
    apply Lang_part in Hn, Ht. apply Lang_colon in Hk. subst k.
    exists n, t. split; [assumption|]. split; [assumption|].
    apply Lang_Alt_inv in H as [H|H].
    + right. apply Lang_Cat_inv in H as (k & r & -> & Hk & Hr).
      apply Lang_colon in Hk. subst k. apply Lang_part in Hr.
      exists r. split; [assumption | reflexivity].
    + left. apply Lang_Eps_inv in H. subst. now rewrite app_nil_r_s.
  - intros (n & t & Hn & Ht & [-> | (r & Hr & ->)]).
    + constructor; [now apply Lang_part|].
      constructor; [now apply Lang_colon|].
      rewrite <- (app_nil_r_s t).
      constructor; [now apply Lang_part|]. apply Regex.LAltR. constructor.
    + constructor; [now apply Lang_part|].
      constructor; [now apply Lang_colon|].
      constructor; [now apply Lang_part|]. apply Regex.LAltL.
      constructor; [now apply Lang_colon | now apply Lang_part].
Qed.

Lemma truthy_true_iff (s : string) : truthy s = true <-> s <> "".
Proof. destruct s; simpl; split; congruence. Qed.

Lemma split_two (n t : string) :
  noChar ":" n = true -> noChar ":" t = true ->
  split ":" (n ++ ":" ++ t) = [n; t].
Proof.
  intros Hn Ht. change (n ++ ":" ++ t) with (n ++ String ":" t).
  rewrite split_app_sep by assumption. now rewrite split_noChar.
Qed.

Lemma split_three (n t r : string) :
  noChar ":" n = true -> noChar ":" t = true -> noChar ":" r = true ->
  split ":" (n ++ ":" ++ t ++ ":" ++ r) = [n; t; r].
Proof.
  intros Hn Ht Hr. change (n ++ ":" ++ t ++ ":" ++ r) with (n ++ String ":" (t ++ ":" ++ r)).
  rewrite split_app_sep by assumption. now rewrite split_two.
Qed.

Lemma validEntry_true_iff (entry : string) :
  validEntry entry = true <->
  exists n t, part n /\ part t /\
    (entry = n ++ ":" ++ t \/ exists r, part r /\ entry = n ++ ":" ++ t ++ ":" ++ r).
Proof.
  unfold validEntry, part. split.
  - intros H. apply andb_true_iff in H as [Hlen Hall].
    pose proof (split_parts_noChar ":" entry) as Hno.
    pose proof (join_split ":" entry) as Hjoin.
    destruct (split ":" entry) as [|n [|t [|r [|x l]]]]; try discriminate.
    + inversion Hno as [|? ? Hn Hno']; subst. inversion Hno' as [|? ? Ht _]; subst.
      simpl in Hall. apply andb_true_iff in Hall as [Tn Hall].
      apply andb_true_iff in Hall as [Tt _].
      apply truthy_true_iff in Tn, Tt.
      exists n, t. repeat split; try assumption. left. reflexivity.
    + inversion Hno as [|? ? Hn Hno']; subst. inversion Hno' as [|? ? Ht Hno'']; subst.
      inversion Hno'' as [|? ? Hr _]; subst.
      simpl in Hall. apply andb_true_iff in Hall as [Tn Hall].
      apply andb_true_iff in Hall as [Tt Hall]. apply andb_true_iff in Hall as [Tr _].
      apply truthy_true_iff in Tn, Tt, Tr.
      exists n, t. repeat split; try assumption. right.
      exists r. repeat split; try assumption.
  - intros (n & t & [Nn Hn] & [Nt Ht] & [-> | (r & [Nr Hr] & ->)]).
    + rewrite split_two by assumption.
      apply truthy_true_iff in Nn, Nt. simpl. now rewrite Nn, Nt.
    + rewrite split_three by assumption.
      apply truthy_true_iff in Nn, Nt, Nr. simpl. now rewrite Nn, Nt, Nr.
Qed.

(** The pattern accepts exactly the entries of two or three non-empty
    parts. *)
Lemma FieldSchema_test_validEntry (entry : string) :
  Regex.test FieldSchema_re entry = validEntry entry.
Proof.
  destruct (validEntry entry) eqn:V.
  - apply test_Lang, Lang_FieldSchema, validEntry_true_iff, V.
  - destruct (Regex.test FieldSchema_re entry) eqn:T; [|reflexivity].
    apply test_Lang, Lang_FieldSchema, validEntry_true_iff in T. congruence.
Qed.

Lemma parsePair_invalid (pair : string) :
  validEntry pair = false -> parsePair pair = inl FieldSchema_message.
Proof.
  intros V. unfold parsePair, FieldSchema_parse.
  now rewrite FieldSchema_test_validEntry, V.
Qed.

Lemma parsePair_valid (pair : string) :
  validEntry pair = true ->
  exists f, parsePair pair = inr f /\ serializeField f = pair.
Proof.
  intros V. unfold parsePair, FieldSchema_parse.
  rewrite FieldSchema_test_validEntry, V.
  apply validEntry_true_iff in V
    as (n & t & [_ Hn] & [_ Ht] & [-> | (r & [_ Hr] & ->)]).
  - rewrite split_two by assumption. eexists. split; [reflexivity|].
    unfold serializeField. simpl. now rewrite app_nil_r_s.
  - rewrite split_three by assumption. eexists. split; [reflexivity|].
    reflexivity.
Qed.

Lemma mapThrow_all (entries : list string) :
  forallb validEntry entries = true ->
  exists fs, mapThrow parsePair entries = inr fs /\
             List.length fs = List.length entries /\
             map serializeField fs = entries.
Proof.
  induction entries as [|e es IH]; simpl; intros H.
  - now exists [].
  - apply andb_true_iff in H as [He Hes].
    destruct (parsePair_valid e He) as (f & -> & Ef).
    destruct (IH Hes) as (fs & -> & El & Em).
    exists (f :: fs). simpl. now rewrite El, Em, Ef.
Qed.

Lemma mapThrow_some_invalid (entries : list string) :
  forallb validEntry entries = false ->
  mapThrow parsePair entries = inl FieldSchema_message.
Proof.
  induction entries as [|e es IH]; simpl; intros H; [discriminate|].
  destruct (validEntry e) eqn:He.
  - destruct (parsePair_valid e He) as (f & -> & _).
    simpl in H. now rewrite (IH H).
  - now rewrite (parsePair_invalid e He).
Qed.

Lemma parseFields_nonempty (spec : string) :
  spec <> "" -> parseFields spec = mapThrow parsePair (split "," spec).
Proof.
  intros H. unfold parseFields. apply truthy_true_iff in H. now rewrite H.
Qed.

(** Every failure of [parseFields] carries the message of the pattern. *)
Lemma parseFields_error (spec e : string) :
  parseFields spec = inl e -> e = FieldSchema_message.
Proof.
  unfold parseFields. destruct (truthy spec); simpl; [|discriminate].
  destruct (forallb validEntry (split "," spec)) eqn:V.
  - destruct (mapThrow_all _ V) as (fs & -> & _). discriminate.
  - rewrite (mapThrow_some_invalid _ V). congruence.
Qed.

(** ** Runs *)

Section Runs.

Variable I : World -> Prop.

Lemma returns_ret {A : Type} (a : A) (Q : A -> Prop) :
  Q a -> returns I (ret a) Q.
Proof. intros HQ w Hw. now exists a, w. Qed.

Lemma returns_bind {A B : Type} (m : M A) (k : A -> M B)
      (Q1 : A -> Prop) (Q : B -> Prop) :
  returns I m Q1 -> (forall a, Q1 a -> returns I (k a) Q) ->
  returns I (bind m k) Q.
Proof.
  intros Hm Hk w Hw. destruct (Hm w Hw) as (a & w1 & E & Hw1 & Ha).
  unfold bind. rewrite E. now apply Hk.
Qed.


Lemma throws_bind_l {A B : Type} (m : M A) (k : A -> M B) (Q : string -> Prop) :
  throws I m Q -> throws I (bind m k) Q.
Proof.
  intros Hm w Hw. destruct (Hm w Hw) as (e & w1 & E & Hw1 & He).
  unfold bind. rewrite E. now exists e, w1.
Qed.

Lemma throws_bind_r {A B : Type} (m : M A) (k : A -> M B)
      (Q1 : A -> Prop) (Q : string -> Prop) :
  returns I m Q1 -> (forall a, Q1 a -> throws I (k a) Q) ->
  throws I (bind m k) Q.
Proof.
  intros Hm Hk w Hw. destruct (Hm w Hw) as (a & w1 & E & Hw1 & Ha).
  unfold bind. rewrite E. now apply Hk.
Qed.



Lemma returns_mkdir (p : string) :
  keeps_dirs I -> returns I (fs.mkdir p) (fun _ => True).
Proof.
  intros K w Hw. unfold fs.mkdir.
  destruct (existsb_str (resolve w p) (dirs w)).
  - now exists tt, w.
  - exists tt, (add_dir w (resolve w p)). repeat split. now apply K.
Qed.

Lemma returns_writeFile (p c : string) :
  keeps_write I p -> returns I (fs.writeFile p c) (fun _ => True).
Proof.
  intros K w Hw. exists tt, (add_file w (resolve w p) c).
  repeat split. now apply K.
Qed.

Lemma returns_console (l : string) :
  keeps_lines I -> returns I (console_print l) (fun _ => True).
Proof.
  intros K w Hw. exists tt, (add_line w l). repeat split. now apply K.
Qed.

Lemma returns_forEach {A : Type} (f : A -> M unit) (xs : list A) :
  (forall x, returns I (f x) (fun _ => True)) ->
  returns I (forEach f xs) (fun _ => True).
Proof.
  intros Hf. induction xs as [|x xs IH]; simpl.
  - now apply returns_ret.
  - eapply returns_bind; [apply Hf | intros; apply IH].
Qed.

Lemma returns_seq {A B : Type} (m : M A) (k : M B) (Q : B -> Prop) :
  returns I m (fun _ => True) -> returns I k Q ->
  returns I (bind m (fun _ => k)) Q.
Proof. intros Hm Hk. eapply returns_bind; [exact Hm | intros; exact Hk]. Qed.

Lemma throws_seq {A B : Type} (m : M A) (k : M B) (Q : string -> Prop) :
  returns I m (fun _ => True) -> throws I k Q ->
  throws I (bind m (fun _ => k)) Q.
Proof. intros Hm Hk. eapply throws_bind_r; [exact Hm | intros; exact Hk]. Qed.

(** [generateFeature] returns whenever the invariant tolerates new
    directories, new lines and the eleven files of the feature. *)
Lemma returns_generateFeature (projectRoot feature : string) (fl : list Field) :
  keeps_dirs I -> keeps_lines I ->
  (forall rel, keeps_write I (path.join [projectRoot; "Features"; feature; rel])) ->
  (forall rel, keeps_write I (path.join [projectRoot; "__tests__"; "Features"; feature; rel])) ->
  returns I (generateFeature projectRoot feature fl) (fun _ => True).
Proof.
  intros KD KL KF KT. unfold generateFeature.
  apply returns_seq.
  { apply returns_forEach. intros x. now apply returns_mkdir. }
  repeat (apply returns_seq;
          [ apply returns_writeFile;
            first [ apply (KF "container.ts")
                  | apply KT
                  | match goal with
                    | |- keeps_write _ (path.join [_; path.join [_; _]; ?a; ?b]) =>
                        apply (KF (a ++ "/" ++ b))
                    end ] | ]).
  now apply returns_console.
Qed.

End Runs.

Section Ends.

Variable I : World -> Prop.

Lemma bind_Ret {A B : Type} (m : M A) (k : A -> M B) (w w' : World) (a : A) :
  m w = Ret a w' -> bind m k w = k a w'.
Proof. intros E. unfold bind. now rewrite E. Qed.

Lemma returns_ends {A : Type} (m : M A) (QR : A -> Prop) (QT : string -> Prop) :
  returns I m QR -> ends I m QR QT.
Proof.
  intros H w Hw. destruct (H w Hw) as (a & w' & -> & Hw' & Ha). auto.
Qed.

Lemma throws_ends {A : Type} (m : M A) (QR : A -> Prop) (QT : string -> Prop) :
  throws I m QT -> ends I m QR QT.
Proof.
  intros H w Hw. destruct (H w Hw) as (e & w' & -> & Hw' & He). auto.
Qed.

Lemma ends_bind {A B : Type} (m : M A) (k : A -> M B)
      (Q1 : A -> Prop) (QR : B -> Prop) (QT : string -> Prop) :
  ends I m Q1 QT -> (forall a, Q1 a -> ends I (k a) QR QT) ->
  ends I (bind m k) QR QT.
Proof.
  intros Hm Hk w Hw. specialize (Hm w Hw). unfold bind.
  destruct (m w) as [a w1|c w1|e w1]; [|contradiction|assumption].
  destruct Hm as [Hw1 Ha]. now apply Hk.
Qed.

Lemma ends_seq {A B : Type} (m : M A) (k : M B)
      (QR : B -> Prop) (QT : string -> Prop) :
  returns I m (fun _ => True) -> ends I k QR QT ->
  ends I (bind m (fun _ => k)) QR QT.
Proof.
  intros Hm Hk. eapply ends_bind; [apply returns_ends, Hm | intros; exact Hk].
Qed.

Lemma returns_chdir (p : string) :
  keeps_cwd I -> returns I (process.chdir p) (fun _ => True).
Proof.
  intros K w Hw. exists tt, (set_cwd w (resolve w p)). repeat split. now apply K.
Qed.

Section Features.

Variable projectRoot : string.
Hypothesis KD : keeps_dirs I.
Hypothesis KL : keeps_lines I.
Hypothesis KW : forall p, keeps_write I p.

Lemma ends_generateFeatures (features : list Feature) :
  forall acc,
    ends I (generateFeatures projectRoot features acc)
         (fun _ => True) (fun e => e = FieldSchema_message).
Proof.
  induction features as [|f rest IH]; intros acc; simpl.
  - apply returns_ends. now apply returns_ret.
  - destruct (parseFields (or_else (fields f) defaultFields)) as [e|fl] eqn:P.
    + apply throws_ends, throws_bind_l.
      intros w Hw. exists e, w. repeat split; [assumption|].
      now apply (parseFields_error _ _ P).
    + eapply ends_bind.
      * apply returns_ends. now apply (returns_ret I fl (fun x => x = fl)).
      * intros a ->. apply ends_seq; [|apply IH].
        apply returns_generateFeature; auto.
Qed.

Lemma throws_generateFeatures (features : list Feature) :
  (exists f, In f features /\
             parseFields (or_else (fields f) defaultFields)
             = inl FieldSchema_message) ->
  forall acc,
    throws I (generateFeatures projectRoot features acc)
           (fun e => e = FieldSchema_message).
Proof.
  induction features as [|f rest IH]; intros (g & Hin & Hg) acc;
    [destruct Hin|].
  simpl.
  destruct (parseFields (or_else (fields f) defaultFields)) as [e|fl] eqn:P.
  - apply throws_bind_l. intros w Hw. exists e, w.
    repeat split; [assumption|]. now apply (parseFields_error _ _ P).
  - destruct Hin as [->|Hin]; [congruence|].
    eapply throws_bind_r.
    + now apply (returns_ret I fl (fun x => x = fl)).
    + intros a ->. apply throws_seq.
      * apply returns_generateFeature; auto.
      * apply IH. eauto.
Qed.

End Features.

End Ends.

(** ** [createProject] *)

Section Create.

Variables (projectName pathSpec : string) (features : list Feature).
Variable w : World.

Let projectRoot := path.join [pathSpec; projectName].
Let root := resolve w projectRoot.

Lemma nodeOk_check :
  nodeOk w = true ->
  match nodeVersionOf (version w) with
  | None => true
  | Some nodeVersion => Nat.ltb (parseInt nodeVersion) (parseInt NODE_VERSION)
  end = false.
Proof.
  unfold nodeOk. destruct (nodeVersionOf (version w)); [|discriminate].
  now intros H%negb_true_iff.
Qed.

Lemma exists_dirs_false :
  fs.exists_ w root = false -> existsb_str root (dirs w) = false.
Proof. unfold fs.exists_. now intros H%orb_false_iff. Qed.

Lemma createProject_old_node :
  nodeOk w = false ->
  exists line,
    createProject projectName pathSpec features w = Exit 1 (add_line w line).
Proof.
  intros Hn. unfold createProject. fold projectRoot. unfold try_catch.
  rewrite (bind_Ret process.version_ _ w w (version w) eq_refl).
  unfold nodeOk in Hn. eexists.
  destruct (nodeVersionOf (version w)) as [v|].
  - apply negb_false_iff in Hn. rewrite Hn. reflexivity.
  - reflexivity.
Qed.

(** The target exists: the run ends at once with status 1. *)
Lemma createProject_existing :
  fs.exists_ w root = true ->
  exists line,
    createProject projectName pathSpec features w = Exit 1 (add_line w line) /\
    (nodeOk w = true ->
     line = "Directory " ++ projectRoot
            ++ " already exists. Please remove it or choose a different name.").
Proof.
  intros Hx. unfold createProject. fold projectRoot. unfold try_catch.
  rewrite (bind_Ret process.version_ _ w w (version w) eq_refl).
  destruct (nodeOk w) eqn:Hn.
  - rewrite (nodeOk_check Hn).
    rewrite (bind_Ret (when false _) _ w w tt eq_refl).
    rewrite (bind_Ret (fs.access projectRoot) _ w w true)
      by (unfold fs.access; fold root; now rewrite Hx).
    eexists. split; [reflexivity | reflexivity].
  - unfold nodeOk in Hn.
    eexists. split; [|discriminate].
    destruct (nodeVersionOf (version w)) as [v|].
    + apply negb_false_iff in Hn. rewrite Hn. reflexivity.
    + reflexivity.
Qed.

(** The invariant of a run that got past the checks: the project root
    is there. *)
Let rooted (w' : World) : Prop := In root (dirs w').

Lemma rooted_dirs : keeps_dirs rooted.
Proof. intros w' d H. unfold rooted, add_dir. simpl. apply in_or_app. now left. Qed.
Lemma rooted_lines : keeps_lines rooted.
Proof. intros w' l H. exact H. Qed.
Lemma rooted_write p : keeps_write rooted p.
Proof. intros w' c H. exact H. Qed.
Lemma rooted_cwd : keeps_cwd rooted.
Proof. intros w' d H. exact H. Qed.

Ltac step :=
  first [ apply returns_mkdir; apply rooted_dirs
        | apply returns_writeFile; apply rooted_write
        | apply returns_console; apply rooted_lines
        | apply returns_chdir; apply rooted_cwd
        | apply returns_forEach; intros; apply returns_mkdir; apply rooted_dirs ].

Lemma createProject_checked :
  nodeOk w = true -> fs.exists_ w root = false ->
  exists w',
    In root (dirs w') /\
    (createProject projectName pathSpec features w = Ret tt w' \/
     createProject projectName pathSpec features w = Exit 1 w') /\
    ((exists f, In f features /\
                parseFields (or_else (fields f) defaultFields)
                = inl FieldSchema_message) ->
     createProject projectName pathSpec features w = Exit 1 w').
Proof.
  intros Hn Hx. unfold createProject. fold projectRoot. unfold try_catch.
  rewrite (bind_Ret process.version_ _ w w (version w) eq_refl).
  rewrite (nodeOk_check Hn).
  rewrite (bind_Ret (when false _) _ w w tt eq_refl).
  rewrite (bind_Ret (fs.access projectRoot) _ w w false)
    by (unfold fs.access; fold root; now rewrite Hx).
  rewrite (bind_Ret (when false _) _ w w tt eq_refl).
  rewrite (bind_Ret (fs.mkdir projectRoot) _ w (add_dir w root) tt)
    by (unfold fs.mkdir; fold root; now rewrite (exists_dirs_false Hx)).
  cbv zeta.
  assert (Hroot : rooted (add_dir w root)).
  { unfold rooted, add_dir. simpl. apply in_or_app. right. now left. }
  match goal with
  | |- context [match ?body (add_dir w root) with _ => _ end] =>
      set (run := body)
  end.
  assert (Hends : ends rooted run (fun _ => True) (fun e => e = FieldSchema_message)).
  { unfold run.
    do 13 (apply ends_seq; [step|]).
    eapply ends_bind.
    - apply ends_generateFeatures;
        [apply rooted_dirs | apply rooted_lines | apply rooted_write].
    - intros sampleJsons _.
      do 8 (apply ends_seq; [step|]).
      apply returns_ends. step. }
  assert (Hthrows :
    (exists f, In f features /\
               parseFields (or_else (fields f) defaultFields)
               = inl FieldSchema_message) ->
    throws rooted run (fun e => e = FieldSchema_message)).
  { intros Hbad. unfold run.
    do 13 (apply throws_seq; [step|]).
    apply throws_bind_l.
    apply throws_generateFeatures;
      [apply rooted_dirs | apply rooted_lines | apply rooted_write | exact Hbad]. }
  specialize (Hends _ Hroot).
  destruct (run (add_dir w root)) as [[] w1|c w1|e w1] eqn:E.
  - exists w1. destruct Hends as [H1 _]. split; [exact H1|]. split; [now left|].
    intros Hbad. destruct (Hthrows Hbad _ Hroot) as (e & w2 & E2 & _).
    congruence.
  - contradiction.
  - destruct Hends as [H1 _]. eexists. split; [|split; [right; reflexivity|reflexivity]].
    exact H1.
Qed.

End Create.

Lemma existsb_str_In (p : string) (xs : list string) :
  In p xs -> existsb_str p xs = true.
Proof.
  intros H. unfold existsb_str. apply existsb_exists.
  exists p. split; [assumption | apply String.eqb_refl].
Qed.

(** ** [addFeature] without the marker file *)

Lemma addFeature_no_marker (featureName fields_ : string) (w : World) :
  fs.exists_ w (resolve w (path.join [cwd w; "Server/index.ts"])) = false ->
  addFeature featureName fields_ w
  = Exit 1 (add_line w
      "Error: Current directory is not a tsclean project. Run from the project root.").
Proof.
  intros Hx. unfold addFeature.
  rewrite (bind_Ret process.cwd_ _ w w (cwd w) eq_refl).
  unfold try_catch.
  rewrite (bind_Ret (fs.access _) _ w w false)
    by (unfold fs.access; now rewrite Hx).
  reflexivity.
Qed.

(** ** Finding a text in a template *)

Lemma includes_in_lines (pre t post : string) (ls : list string) :
  In (pre ++ t ++ post) ls -> includes (lines ls) t = true.
Proof.
  intros H. eapply includes_trans.
  - apply includes_lines, H.
  - apply includes_intro.
Qed.

Ltac norm_app :=
  repeat rewrite app_assoc_s; repeat rewrite app_nil_r_s.

Ltac find_line :=
  lazymatch goal with
  | |- In _ (_ :: _) =>
      first [ left; norm_app; reflexivity | right; find_line ]
  end.

Ltac in_template pre post :=
  apply (includes_in_lines pre _ post); unfold createUseCaseName; find_line.

(** ** The shape of the two regenerated files *)

Lemma serverIndexTs_shape (features : list Feature) :
  templates.serverIndexTs features
  = server_head ++ importSection features ++ server_mid
      ++ mountSection features ++ server_tail.
Proof.
  unfold templates.serverIndexTs, lines, importSection, mountSection.
  cbn [join String.concat]. norm_app. reflexivity.
Qed.

Lemma readmeMd_shape (projectName : string) (features : list Feature)
      (sampleJsons : list string) :
  templates.readmeMd projectName features sampleJsons
  = "# " ++ projectName ++ readme_head
      ++ testingSection sampleJsons features ++ readme_mid
      ++ join ", " (map fname features) ++ readme_tail.
Proof.
  unfold templates.readmeMd, lines, testingSection.
  cbn [join String.concat]. norm_app. reflexivity.
Qed.

(** ** Scanning for the matches of a pattern *)

Section Scanning.

Import Scan.

Lemma mismatch_prefix (p s r : string) :
  mismatch p s = true -> String.prefix p (s ++ r) = false.
Proof.
  revert s. induction p as [|a p IH]; intros [|b s] H; try discriminate.
  change (String b s ++ r) with (String b (s ++ r)).
  rewrite prefix_cons. simpl in H.
  destruct (Ascii.eqb a b); [|reflexivity].
  simpl. now apply IH.
Qed.

Lemma wordsThen_greedy (post X rest : string) :
  X <> "" -> allChars isWord X = true ->
  wordsThen post (post ++ rest) = None ->
  wordsThen post (X ++ post ++ rest) = Some X.
Proof.
  intros Hne Hw Hnone. induction X as [|c X IH]; [congruence|].
  cbn [allChars] in Hw. apply andb_true_iff in Hw as [Hc HX].
  change (String c X ++ post ++ rest) with (String c (X ++ post ++ rest)).
  cbn [wordsThen]. rewrite Hc.
  destruct X as [|d X'].
  - change ("" ++ post ++ rest) with (post ++ rest).
    rewrite Hnone. unfold startsWith. now rewrite prefix_app.
  - rewrite IH; [reflexivity | discriminate | assumption].
Qed.

Variables pre post : string.

Lemma matchAt_no_prefix (s : string) :
  String.prefix pre s = false -> matchAt pre post s = None.
Proof. intros H. unfold matchAt, startsWith. now rewrite H. Qed.

Lemma scan_step (c : ascii) (s : string) :
  matchAt pre post (String c s) = None ->
  matchAll_from pre post (String c s) 0 = matchAll_from pre post s 0.
Proof. intros H. cbn [matchAll_from]. now rewrite H. Qed.

Lemma wordsNone_app (s rest : string) :
  wordsNone post s = true -> wordsThen post (s ++ rest) = None.
Proof.
  induction s as [|c s IH]; intros H; [discriminate|].
  change (String c s ++ rest) with (String c (s ++ rest)).
  cbn [wordsNone] in H. cbn [wordsThen].
  destruct (isWord c); [|reflexivity].
  apply andb_true_iff in H as [Hs Hm].
  rewrite (IH Hs). unfold startsWith.
  now rewrite (mismatch_prefix _ _ _ Hm).
Qed.

Lemma noMatchAt_app (l rest : string) :
  noMatchAt pre post l = true -> matchAt pre post (l ++ rest) = None.
Proof.
  unfold noMatchAt. intros H. apply orb_true_iff in H as [H|H].
  - apply matchAt_no_prefix. now apply mismatch_prefix.
  - apply andb_true_iff in H as [Hp Hw].
    apply prefix_true_iff in Hp as [t ->]. rewrite slice_from_app in Hw.
    unfold matchAt.
    rewrite app_assoc_s, startsWith_app, slice_from_app.
    now rewrite (wordsNone_app _ rest Hw).
Qed.

Lemma scan_lit (l rest : string) :
  clean pre post l = true ->
  matchAll_from pre post (l ++ rest) 0 = matchAll_from pre post rest 0.
Proof.
  induction l as [|c l IH]; intros H; [reflexivity|].
  cbn [clean] in H. apply andb_true_iff in H as [Hm Hc].
  change (String c l ++ rest) with (String c (l ++ rest)).
  rewrite scan_step; [now apply IH|].
  now apply (noMatchAt_app (String c l) rest).
Qed.

Lemma scan_lit_end (l : string) :
  clean pre post l = true -> matchAll_from pre post l 0 = [].
Proof.
  intros H. rewrite <- (app_nil_r_s l). now rewrite scan_lit.
Qed.

Lemma scan_skip (u rest : string) :
  matchAll_from pre post (u ++ rest) (String.length u) = matchAll_from pre post rest 0.
Proof. induction u as [|c u IH]; [destruct rest; reflexivity | exact IH]. Qed.

Lemma scan_match (X rest : string) :
  X <> "" -> allChars isWord X = true ->
  wordsThen post (post ++ rest) = None ->
  matchAll_from pre post (pre ++ X ++ post ++ rest) 0 = (pre ++ X ++ post) :: matchAll_from pre post rest 0.
Proof.
  intros Hne Hw Hnone.
  assert (Hat : matchAt pre post (pre ++ X ++ post ++ rest)
                = Some (pre ++ X ++ post, X)).
  { unfold matchAt. rewrite startsWith_app, slice_from_app.
    now rewrite wordsThen_greedy. }
  assert (Hm : exists c m', pre ++ X ++ post = String c m').
  { destruct pre as [|c p]; [|now exists c, (p ++ X ++ post)].
    destruct X as [|c X']; [congruence|]. now exists c, (X' ++ post). }
  destruct Hm as (c & m' & Em).
  assert (Es : pre ++ X ++ post ++ rest = String c (m' ++ rest)).
  { change (String c (m' ++ rest)) with (String c m' ++ rest).
    rewrite <- Em. now rewrite !app_assoc_s. }
  rewrite Es in *. cbn [matchAll_from]. rewrite Hat, Em.
  replace (String.length (String c m') - 1) with (String.length m')
    by (cbn [String.length]; lia).
  now rewrite scan_skip.
Qed.

Lemma word_follow_prefix (lit rest : string) :
  forall p u,
    word_follow p lit = true -> u <> "" -> allChars isWord u = true ->
    String.prefix p (u ++ lit ++ rest) = false.
Proof.
  induction p as [|c p IH]; intros u H Hne Hw; [discriminate|].
  destruct u as [|d u]; [congruence|].
  change (String d u ++ lit ++ rest) with (String d (u ++ lit ++ rest)).
  rewrite prefix_cons.
  cbn [allChars] in Hw. apply andb_true_iff in Hw as [Hd Hu].
  destruct (Ascii.eqb c d) eqn:E; [|reflexivity].
  apply Ascii.eqb_eq in E. subst d.
  cbn [word_follow] in H. rewrite Hd in H.
  apply andb_true_iff in H as [Hm Hf]. cbn [andb].
  destruct u as [|e u].
  - apply (mismatch_prefix p lit rest Hm).
  - apply IH; [assumption | discriminate | assumption].
Qed.

Lemma scan_word (x lit rest : string) :
  allChars isWord x = true -> word_follow pre lit = true ->
  matchAll_from pre post (x ++ lit ++ rest) 0 = matchAll_from pre post (lit ++ rest) 0.
Proof.
  intros Hw Hf. induction x as [|c x IH]; [reflexivity|].
  change (String c x ++ lit ++ rest) with (String c (x ++ lit ++ rest)).
  rewrite scan_step.
  - apply IH. cbn [allChars] in Hw. now apply andb_true_iff in Hw as [_ Hx].
  - apply matchAt_no_prefix.
    apply (word_follow_prefix lit rest pre (String c x));
      [assumption | discriminate | assumption].
Qed.

Lemma free_follow_prefix (lit rest : string) :
  forall p u,
    free_follow p lit = true -> u <> "" ->
    String.prefix p (u ++ lit ++ rest) = true -> String.prefix p u = true.
Proof.
  induction p as [|c p IH]; intros u H Hne Hp; [apply prefix_nil|].
  destruct u as [|d u]; [congruence|].
  change (String d u ++ lit ++ rest) with (String d (u ++ lit ++ rest)) in Hp.
  rewrite prefix_cons in *. apply andb_true_iff in Hp as [Hcd Hp].
  rewrite Hcd. cbn [andb].
  destruct p as [|c' p']; [apply prefix_nil|].
  cbn [free_follow] in H. apply andb_true_iff in H as [Hm Hf].
  destruct u as [|e u].
  - change ("" ++ lit ++ rest) with (lit ++ rest) in Hp.
    rewrite (mismatch_prefix _ _ _ Hm) in Hp. discriminate.
  - apply IH; [assumption | discriminate | assumption].
Qed.

Lemma includes_cons_false (c : ascii) (x t : string) :
  includes (String c x) t = false ->
  String.prefix t (String c x) = false /\ includes x t = false.
Proof.
  intros H. change (String.prefix t (String c x) || includes x t = false) in H.
  now apply orb_false_iff in H.
Qed.

Lemma scan_free (x lit rest : string) :
  includes x pre = false -> free_follow pre lit = true ->
  matchAll_from pre post (x ++ lit ++ rest) 0 = matchAll_from pre post (lit ++ rest) 0.
Proof.
  intros Hi Hf. induction x as [|c x IH]; [reflexivity|].
  apply includes_cons_false in Hi as [Hp Hx].
  change (String c x ++ lit ++ rest) with (String c (x ++ lit ++ rest)).
  rewrite scan_step; [now apply IH|]. apply matchAt_no_prefix.
  destruct (String.prefix pre (String c (x ++ lit ++ rest))) eqn:E; [|reflexivity].
  change (String c (x ++ lit ++ rest)) with (String c x ++ lit ++ rest) in E.
  apply (free_follow_prefix lit rest pre (String c x)) in E;
    [congruence | assumption | discriminate].
Qed.

End Scanning.

(** ** Character classes *)

Ltac by_cases_on_ascii c :=
  destruct c as [[] [] [] [] [] [] [] []];
  vm_compute; intros; try reflexivity; try discriminate.

Lemma isLowerWord_isWord (c : ascii) : isLowerWord c = true -> isWord c = true.
Proof. by_cases_on_ascii c. Qed.

Lemma isLowerWord_upper_isWord (c : ascii) :
  isLowerWord c = true -> isWord (upperChar c) = true.
Proof. by_cases_on_ascii c. Qed.

Lemma lower_upper (c : ascii) :
  isLowerWord c = true -> lowerChar (upperChar c) = c.
Proof. by_cases_on_ascii c. Qed.

Lemma lower_fixed (c : ascii) : isLowerWord c = true -> lowerChar c = c.
Proof. by_cases_on_ascii c. Qed.

Lemma isWord_not_space (c : ascii) : isWord c = true -> negb (Ascii.eqb c " ") = true.
Proof. by_cases_on_ascii c. Qed.

Lemma allChars_impl (p p' : ascii -> bool) (s : string) :
  (forall c, p c = true -> p' c = true) ->
  allChars p s = true -> allChars p' s = true.
Proof.
  intros Hpp. induction s as [|c s IH]; [reflexivity|].
  cbn [allChars]. intros H. apply andb_true_iff in H as [Hc Hs].
  now rewrite (Hpp c Hc), IH.
Qed.

Lemma toLowerCase_fixed (s : string) :
  allChars isLowerWord s = true -> toLowerCase s = s.
Proof.
  induction s as [|c s IH]; [reflexivity|].
  cbn [allChars toLowerCase]. intros H. apply andb_true_iff in H as [Hc Hs].
  now rewrite (lower_fixed c Hc), IH.
Qed.

Lemma lowerName_inv (a : string) :
  lowerName a = true ->
  exists c a', a = String c a' /\ isLowerWord c = true /\ allChars isLowerWord a' = true.
Proof.
  unfold lowerName. destruct a as [|c a']; [discriminate|].
  cbn [truthy allChars andb]. intros H. apply andb_true_iff in H as [Hc Ha].
  now exists c, a'.
Qed.

Lemma lowerName_word (a : string) : lowerName a = true -> allChars isWord a = true.
Proof.
  intros H. apply andb_true_iff in H as [_ H].
  revert H. apply allChars_impl, isLowerWord_isWord.
Qed.

Lemma lowerName_capitalize (a : string) :
  lowerName a = true ->
  capitalize a <> "" /\
  allChars isWord (capitalize a) = true /\
  toLowerCase (capitalize a) = a.
Proof.
  intros H. destruct (lowerName_inv a H) as (c & a' & -> & Hc & Ha).
  cbn [capitalize]. split; [discriminate|]. split.
  - cbn [allChars]. rewrite (isLowerWord_upper_isWord c Hc).
    revert Ha. apply allChars_impl, isLowerWord_isWord.
  - cbn [toLowerCase]. now rewrite (lower_upper c Hc), toLowerCase_fixed.
Qed.

Lemma word_noSpace (a : string) : allChars isWord a = true -> noChar " " a = true.
Proof.
  induction a as [|c a IH]; [reflexivity|].
  cbn [allChars noChar]. intros H. apply andb_true_iff in H as [Hc Ha].
  now rewrite (isWord_not_space c Hc), IH.
Qed.

(** ** The roster read back from the bootstrap file *)

Ltac scan_through :=
  repeat first
    [ rewrite scan_lit by (vm_compute; reflexivity)
    | rewrite scan_word by (first [assumption | vm_compute; reflexivity])
    | rewrite scan_free by (first [assumption | vm_compute; reflexivity]) ].

Lemma wordName_nonempty (a : string) : wordName a = true -> a <> "".
Proof. destruct a; [discriminate | discriminate]. Qed.

Lemma wordName_word (a : string) : wordName a = true -> allChars isWord a = true.
Proof. intros H. now apply andb_true_iff in H as [_ H]. Qed.

Lemma isWord_upperChar (c : ascii) : isWord c = true -> isWord (upperChar c) = true.
Proof. by_cases_on_ascii c. Qed.

Lemma lowerChar_upperChar (c : ascii) : lowerChar (upperChar c) = lowerChar c.
Proof. by_cases_on_ascii c. Qed.

Lemma wordName_capitalize (a : string) :
  wordName a = true ->
  capitalize a <> "" /\
  allChars isWord (capitalize a) = true /\
  toLowerCase (capitalize a) = toLowerCase a.
Proof.
  unfold wordName. destruct a as [|c a']; [discriminate|].
  cbn [truthy allChars andb capitalize]. intros H.
  apply andb_true_iff in H as [Hc Ha].
  split; [discriminate|]. split.
  - cbn [allChars]. now rewrite (isWord_upperChar c Hc), Ha.
  - cbn [toLowerCase]. now rewrite lowerChar_upperChar.
Qed.

Lemma lowerName_wordName (a : string) : lowerName a = true -> wordName a = true.
Proof.
  intros H. unfold wordName. rewrite (lowerName_word a H).
  apply andb_true_iff in H as [-> _]. reflexivity.
Qed.

Section ServerRoster.

Import Scan.

Lemma scan_importLine (f : Feature) (rest : string) :
  wordFeature f ->
  matchAll_from "import { " "Controller }" (templates.importLine f ++ rest) 0
  = importMatch f :: matchAll_from "import { " "Controller }" rest 0.
Proof.
  intros Hf.
  destruct (wordName_capitalize _ Hf) as (Hne & Hcap & _).
  pose proof (wordName_word _ Hf) as Hw.
  unfold templates.importLine.
  change ("Controller } from '../Features/" ++ fname f ++ "/delivery/controllers/"
            ++ fname f ++ ".controller';")
    with ("Controller }" ++ " from '../Features/" ++ fname f
            ++ "/delivery/controllers/" ++ fname f ++ ".controller';").
  norm_app.
  rewrite scan_match by (first [assumption | reflexivity]).
  scan_through. reflexivity.
Qed.

Lemma scan_mountLines (f : Feature) (rest : string) :
  wordFeature f ->
  matchAll_from "import { " "Controller }" (templates.mountLines f ++ rest) 0
  = matchAll_from "import { " "Controller }" rest 0.
Proof.
  intros Hf.
  destruct (wordName_capitalize _ Hf) as (Hne & Hcap & _).
  pose proof (wordName_word _ Hf) as Hw.
  unfold templates.mountLines, lines. cbn [join String.concat].
  norm_app. scan_through. reflexivity.
Qed.

Lemma scan_importSection (fs : list Feature) (rest : string) :
  Forall wordFeature fs ->
  matchAll_from "import { " "Controller }" (importSection fs ++ rest) 0
  = (map importMatch fs
       ++ matchAll_from "import { " "Controller }" rest 0)%list.
Proof.
  unfold importSection. induction 1 as [|f fs Hf Hfs IH]; [reflexivity|].
  destruct fs as [|g fs].
  - cbn [map join String.concat]. now rewrite scan_importLine.
  - change (map templates.importLine (f :: g :: fs))
      with (templates.importLine f :: map templates.importLine (g :: fs)).
    change (map templates.importLine (g :: fs))
      with (templates.importLine g :: map templates.importLine fs) at 1.
    rewrite join_cons2.
    change (templates.importLine g :: map templates.importLine fs)
      with (map templates.importLine (g :: fs)).
    norm_app. rewrite scan_importLine by assumption.
    rewrite scan_lit by (vm_compute; reflexivity).
    rewrite IH. reflexivity.
Qed.

Lemma scan_mountSection (fs : list Feature) (rest : string) :
  Forall wordFeature fs ->
  matchAll_from "import { " "Controller }" (mountSection fs ++ rest) 0
  = matchAll_from "import { " "Controller }" rest 0.
Proof.
  unfold mountSection. induction 1 as [|f fs Hf Hfs IH]; [reflexivity|].
  destruct fs as [|g fs].
  - cbn [map join String.concat]. now rewrite scan_mountLines.
  - change (map templates.mountLines (f :: g :: fs))
      with (templates.mountLines f :: map templates.mountLines (g :: fs)).
    change (map templates.mountLines (g :: fs))
      with (templates.mountLines g :: map templates.mountLines fs) at 1.
    rewrite join_cons2.
    change (templates.mountLines g :: map templates.mountLines fs)
      with (map templates.mountLines (g :: fs)).
    norm_app. rewrite scan_mountLines by assumption.
    rewrite scan_lit by (vm_compute; reflexivity).
    exact IH.
Qed.

Lemma controllerOf_importMatch (f : Feature) :
  wordFeature f ->
  controllerOf (importMatch f) = inr (mkFeature (toLowerCase (fname f)) "").
Proof.
  intros Hf.
  destruct (wordName_capitalize _ Hf) as (Hne & Hcap & Hlow).
  unfold controllerOf, importMatch.
  assert (Eskip : forall t,
             firstMatch "" "Controller" ("import { " ++ t)
             = firstMatch "" "Controller" t) by reflexivity.
  rewrite Eskip.
  assert (Eat : matchAt "" "Controller" (capitalize (fname f) ++ "Controller }")
                = Some (capitalize (fname f) ++ "Controller", capitalize (fname f))).
  { unfold matchAt. rewrite prefix_nil || (unfold startsWith; rewrite prefix_nil).
    cbn [String.length slice_from].
    change "Controller }" with ("Controller" ++ " }").
    now rewrite wordsThen_greedy. }
  destruct (capitalize (fname f) ++ "Controller }") eqn:E;
    cbn [firstMatch]; rewrite Eat; now rewrite Hlow.
Qed.

Lemma serverRoster_generated (fs : list Feature) :
  Forall wordFeature fs ->
  serverRoster (templates.serverIndexTs fs)
  = inr (map (fun f => mkFeature (toLowerCase (fname f)) "") fs).
Proof.
  intros Hfs. unfold serverRoster, matchAll.
  rewrite serverIndexTs_shape.
  rewrite scan_lit by (vm_compute; reflexivity).
  rewrite scan_importSection by assumption.
  rewrite scan_lit by (vm_compute; reflexivity).
  rewrite scan_mountSection by assumption.
  rewrite scan_lit_end by (vm_compute; reflexivity).
  rewrite app_nil_r.
  induction Hfs as [|f fs Hf Hfs IH]; [reflexivity|].
  cbn [map mapThrow]. rewrite (controllerOf_importMatch f Hf), IH. reflexivity.
Qed.

Lemma serverRoster_recovered (fs : list Feature) :
  Forall lowerFeature fs ->
  serverRoster (templates.serverIndexTs fs)
  = inr (map (fun f => mkFeature (fname f) "") fs).
Proof.
  intros Hfs. rewrite serverRoster_generated.
  - f_equal. apply map_ext_in. intros f Hf.
    rewrite Forall_forall in Hfs. specialize (Hfs f Hf).
    apply andb_true_iff in Hfs as [_ Hl]. now rewrite toLowerCase_fixed.
  - revert Hfs. apply Forall_impl. intros f. apply lowerName_wordName.
Qed.

End ServerRoster.

(** ** The roster read back from the README *)

Section ReadmeRoster.

Import Scan.

Lemma scan_match_nopost (pre X rest : string) :
  X <> "" -> allChars isWord X = true -> wordsThen "" rest = None ->
  matchAll_from pre "" (pre ++ X ++ rest) 0
  = (pre ++ X) :: matchAll_from pre "" rest 0.
Proof.
  intros Hne Hw Hn.
  pose proof (scan_match pre "" X rest Hne Hw Hn) as H.
  change ("" ++ rest) with rest in H. now rewrite app_nil_r_s in H.
Qed.

Lemma nth_noPhrase (samples : list string) (i : nat) :
  Forall noPhrase samples -> noPhrase (nth i samples "undefined").
Proof.
  intros H. revert i. induction H as [|s l Hs Hl IH]; intros [|i]; cbn [nth];
    try reflexivity; auto.
Qed.

Lemma scan_exampleRequest (samples : list string) (i : nat) (f : Feature)
      (rest : string) :
  wordFeature f -> Forall noPhrase samples ->
  matchAll_from phrase "" (templates.exampleRequest samples i f ++ rest) 0
  = (phrase ++ fname f) :: matchAll_from phrase "" rest 0.
Proof.
  intros Hf Hs.
  pose proof (wordName_word _ Hf) as Hw.
  pose proof (nth_noPhrase samples i Hs) as Hn. unfold noPhrase in Hn.
  pose proof (wordName_nonempty _ Hf) as Hne.
  unfold templates.exampleRequest, lines, q. cbn [join String.concat].
  change ("- Create a " ++ fname f ++ ":") with ("- " ++ phrase ++ fname f ++ ":").
  norm_app.
  rewrite scan_lit by (vm_compute; reflexivity).
  rewrite scan_match_nopost by (first [assumption | reflexivity]).
  scan_through. reflexivity.
Qed.

Lemma scan_testing (samples : list string) (fs : list Feature) (rest : string) :
  Forall wordFeature fs -> Forall noPhrase samples ->
  forall i,
    matchAll_from phrase ""
      (join nl (mapi_from (templates.exampleRequest samples) i fs) ++ rest) 0
    = List.app (map (fun f => phrase ++ fname f) fs)
               (matchAll_from phrase "" rest 0).
Proof.
  intros Hfs Hs. induction Hfs as [|f fs Hf Hfs IH]; intros i; [reflexivity|].
  destruct fs as [|g fs].
  - cbn [mapi_from map join String.concat]. now rewrite scan_exampleRequest.
  - cbn [mapi_from]. rewrite join_cons2.
    change (templates.exampleRequest samples (S i) g
              :: mapi_from (templates.exampleRequest samples) (S (S i)) fs)
      with (mapi_from (templates.exampleRequest samples) (S i) (g :: fs)).
    norm_app. rewrite scan_exampleRequest by assumption.
    rewrite scan_lit by (vm_compute; reflexivity).
    rewrite IH. reflexivity.
Qed.

Lemma scan_names (fs : list Feature) (lit rest : string) :
  Forall wordFeature fs ->
  word_follow phrase lit = true ->
  matchAll_from phrase "" (join ", " (map fname fs) ++ lit ++ rest) 0
  = matchAll_from phrase "" (lit ++ rest) 0.
Proof.
  intros Hfs Hl. induction Hfs as [|f fs Hf Hfs IH]; [reflexivity|].
  pose proof (wordName_word _ Hf) as Hw.
  destruct fs as [|g fs].
  - cbn [map join String.concat]. now rewrite scan_word.
  - change (map fname (f :: g :: fs)) with (fname f :: map fname (g :: fs)).
    change (map fname (g :: fs)) with (fname g :: map fname fs) at 1.
    rewrite join_cons2.
    change (fname g :: map fname fs) with (map fname (g :: fs)).
    norm_app.
    rewrite scan_word by (first [assumption | vm_compute; reflexivity]).
    rewrite scan_lit by (vm_compute; reflexivity).
    exact IH.
Qed.

Lemma phrase_word (a : string) :
  allChars isWord a = true -> at_ (split " " (phrase ++ a)) 2 = a.
Proof.
  intros Hw. apply word_noSpace in Hw.
  change (phrase ++ a) with ("Create" ++ String " " ("a" ++ String " " a)).
  rewrite split_app_sep by reflexivity.
  rewrite split_app_sep by reflexivity.
  now rewrite split_noChar.
Qed.

Lemma readmeRoster_generated (projectName : string) (fs : list Feature)
      (samples : list string) :
  noPhrase projectName -> Forall wordFeature fs -> Forall noPhrase samples ->
  readmeRoster (templates.readmeMd projectName fs samples) = map fname fs.
Proof.
  intros Hp Hfs Hs. unfold noPhrase in Hp.
  unfold readmeRoster, matchAll. rewrite readmeMd_shape.
  rewrite scan_lit by (vm_compute; reflexivity).
  rewrite scan_free by (first [assumption | vm_compute; reflexivity]).
  rewrite scan_lit by (vm_compute; reflexivity).
  unfold testingSection, mapi.
  rewrite scan_testing by assumption.
  rewrite scan_lit by (vm_compute; reflexivity).
  rewrite <- (app_nil_r_s readme_tail).
  rewrite scan_names by (first [assumption | vm_compute; reflexivity]).
  rewrite scan_lit by (vm_compute; reflexivity).
  cbn [matchAll_from]. rewrite app_nil_r, map_map.
  induction Hfs as [|f fs Hf Hfs IH]; [reflexivity|].
  cbn [map]. rewrite IH, phrase_word; [reflexivity|].
  now apply wordName_word.
Qed.

Lemma readmeRoster_recovered (projectName : string) (fs : list Feature)
      (samples : list string) :
  noPhrase projectName -> Forall lowerFeature fs -> Forall noPhrase samples ->
  readmeRoster (templates.readmeMd projectName fs samples) = map fname fs.
Proof.
  intros Hp Hfs Hs. apply readmeRoster_generated; try assumption.
  revert Hfs. apply Forall_impl. intros f. apply lowerName_wordName.
Qed.

End ReadmeRoster.

(** ** [addFeature] in a project *)

Lemma resolve_same_cwd (w w' : World) (p : string) :
  cwd w' = cwd w -> resolve w' p = resolve w p.
Proof. intros H. unfold resolve. now rewrite H. Qed.

Lemma resolve_join_inj (w : World) (r x y : string) :
  resolve w (path.join [r; x]) = resolve w (path.join [r; y]) -> x = y.
Proof.
  unfold resolve, path.join, join. cbn [String.concat].
  assert (E : forall z, startsWith (r ++ "/" ++ z) "/" = startsWith (r ++ "/") "/").
  { intros z. destruct r as [|c r']; unfold startsWith; cbn [append];
      rewrite !prefix_cons, !prefix_nil; reflexivity. }
  rewrite (E x), (E y).
  destruct (startsWith (r ++ "/") "/"); intros H.
  - apply app_inv_head_s in H. now injection H.
  - apply app_inv_head_s in H. injection H as H.
    apply app_inv_head_s in H. now injection H.
Qed.

Lemma mapThrow_ok {A B : Type} (g : A -> string + B) (d : B) (xs : list A) :
  (forall x, In x xs -> exists y, g x = inr y) ->
  mapThrow g xs
  = inr (map (fun x => match g x with inr y => y | inl _ => d end) xs).
Proof.
  induction xs as [|x xs IH]; intros H; [reflexivity|].
  cbn [mapThrow map]. destruct (H x (or_introl eq_refl)) as [y Ey].
  rewrite Ey, IH; [reflexivity|]. intros x' Hx'. apply H. now right.
Qed.

Section AddFeature.

Variables (w : World) (featureName fields_ : string).
Variables (parsed : list Field) (server0 readme0 : string).
Variable recovered : list Feature.

Hypothesis Hparse : parseFields (or_else fields_ defaultFields) = inr parsed.
Hypothesis Hserver : lookup (markerPath w) (files w) = Some server0.
Hypothesis Hreadme : lookup (readmePath w) (files w) = Some readme0.
Hypothesis Hroster : serverRoster server0 = inr recovered.

Let inProject (w' : World) : Prop :=
  cwd w' = cwd w /\
  lookup (markerPath w) (files w') = Some server0 /\
  lookup (readmePath w) (files w') = Some readme0.

Lemma inProject_write (rel : string) :
  rel <> "Server/index.ts" -> rel <> "README.md" ->
  keeps_write inProject (path.join [cwd w; rel]).
Proof.
  intros H1 H2 w' c (Hc & Hs & Hr). unfold inProject, add_file.
  cbn [cwd files lookup].
  split; [exact Hc|].
  rewrite (resolve_same_cwd w w' _ Hc).
  assert (E1 : String.eqb (resolve w (path.join [cwd w; rel])) (markerPath w) = false).
  { apply String.eqb_neq. intros E. now apply resolve_join_inj in E. }
  assert (E2 : String.eqb (resolve w (path.join [cwd w; rel])) (readmePath w) = false).
  { apply String.eqb_neq. intros E. now apply resolve_join_inj in E. }
  now rewrite E1, E2.
Qed.

Lemma newRoster_samples (existing : list string) :
  mapThrow
    (fun f => match parseFields (or_else (fields f) defaultFields) with
              | inl e => inl e
              | inr fs_ => inr (getSampleJson fs_)
              end)
    (newRoster existing featureName fields_)
  = inr (map sampleOf (newRoster existing featureName fields_)).
Proof.
  rewrite (mapThrow_ok _ "").
  - f_equal. apply map_ext. intros f. unfold sampleOf.
    now destruct (parseFields (or_else (fields f) defaultFields)).
  - intros f Hf. unfold newRoster in Hf. apply in_map_iff in Hf as (n & <- & _).
    cbn [fields]. destruct (String.eqb n featureName).
    + rewrite Hparse. eauto.
    + cbn. eauto.
Qed.

Lemma addFeature_regenerates :
  exists w',
    addFeature featureName fields_ w = Ret tt w' /\
    lookup (markerPath w) (files w')
    = Some (templates.serverIndexTs
              (recovered ++ [mkFeature featureName fields_])%list) /\
    lookup (readmePath w) (files w')
    = Some (templates.readmeMd (readmeProjectName readme0)
              (newRoster (readmeRoster readme0) featureName fields_)
              (map sampleOf (newRoster (readmeRoster readme0) featureName fields_))).
Proof.
  assert (Hw : inProject w) by (repeat split; assumption).
  assert (KD : keeps_dirs inProject) by (intros w' d H; exact H).
  assert (KL : keeps_lines inProject) by (intros w' l H; exact H).
  unfold addFeature.
  rewrite (bind_Ret process.cwd_ _ w w (cwd w) eq_refl).
  unfold try_catch.
  rewrite (bind_Ret (fs.access _) _ w w true).
  2:{ unfold fs.access, fs.exists_. fold (markerPath w). now rewrite Hserver, orb_true_r. }
  rewrite (bind_Ret (when (negb true) _) _ w w tt eq_refl).
  rewrite (bind_Ret (liftThrow _) _ w w parsed) by (now rewrite Hparse).
  destruct (returns_generateFeature inProject (cwd w) featureName parsed KD KL)
    with (w := w) as ([] & w1 & E1 & (Hc1 & Hs1 & Hr1) & _).
  { intros rel. apply inProject_write; discriminate. }
  { intros rel. apply inProject_write; discriminate. }
  { exact Hw. }
  rewrite (bind_Ret _ _ w w1 tt E1).
  rewrite (bind_Ret (fs.readFile _) _ w1 w1 server0).
  2:{ unfold fs.readFile. rewrite (resolve_same_cwd w w1 _ Hc1).
      fold (markerPath w). now rewrite Hs1. }
  cbv zeta.
  rewrite (bind_Ret (liftThrow _) _ w1 w1 recovered) by (now rewrite Hroster).
  rewrite (bind_Ret (fs.writeFile _ _) _ w1 _ tt eq_refl).
  rewrite (resolve_same_cwd w w1 _ Hc1). fold (markerPath w).
  match goal with
  | |- context [add_file w1 (markerPath w) ?c] => set (w2 := add_file w1 (markerPath w) c)
  | |- context [mkWorld (dirs w1) ((markerPath w, ?c) :: files w1) _ _ _] =>
      set (w2 := mkWorld (dirs w1) ((markerPath w, c) :: files w1)
                         (cwd w1) (version w1) (console w1))
  end.
  assert (Hne : String.eqb (markerPath w) (readmePath w) = false).
  { apply String.eqb_neq. intros E. apply resolve_join_inj in E. discriminate. }
  rewrite (bind_Ret (fs.readFile _) _ w2 w2 readme0).
  2:{ unfold fs.readFile.
      replace (resolve w2 (path.join [cwd w; "README.md"])) with (readmePath w)
        by (symmetry; apply resolve_same_cwd; exact Hc1).
      unfold w2. cbn [files lookup]. now rewrite Hne, Hr1. }
  fold (newRoster (readmeRoster readme0) featureName fields_).
  rewrite newRoster_samples.
  rewrite (bind_Ret (liftThrow (inr _)) _ w2 w2 _ eq_refl).
  rewrite (bind_Ret (fs.writeFile _ _) _ w2 _ tt eq_refl).
  replace (resolve w2 (path.join [cwd w; "README.md"])) with (readmePath w)
    by (symmetry; apply resolve_same_cwd; exact Hc1).
  eexists. split; [reflexivity|].
  cbn [files final lookup]. unfold w2. cbn [files lookup].
  rewrite String.eqb_sym, Hne, !String.eqb_refl. split; reflexivity.
Qed.

End AddFeature.

(** ** The project name read back from the README *)

Lemma takeLine_line (l rest : string) :
  allChars (fun ch => negb (Scan.isLineTerminator ch)) l = true ->
  Scan.takeLine (l ++ String "010" rest) = l.
Proof.
  induction l as [|ch l IH]; [reflexivity|].
  cbn [allChars]. intros H. apply andb_true_iff in H as [Hc Hl].
  change (String ch l ++ String "010" rest) with (String ch (l ++ String "010" rest)).
  cbn [Scan.takeLine]. apply negb_true_iff in Hc. now rewrite Hc, IH.
Qed.

Lemma readmeProjectName_recovered (projectName : string) (fs : list Feature)
  (samples : list string) :
  truthy projectName = true ->
  allChars (fun ch => negb (Scan.isLineTerminator ch)) projectName = true ->
  readmeProjectName (templates.readmeMd projectName fs samples) = projectName.
Proof.
  intros Hne Hline. rewrite readmeMd_shape.
  assert (Eh : exists t, readme_head = String "010" t) by (eexists; reflexivity).
  destruct Eh as [t Eh]. rewrite Eh.
  unfold readmeProjectName, Scan.heading.
  set (rest := testingSection samples fs ++ readme_mid
                 ++ join ", " (map fname fs) ++ readme_tail).
  change ("# " ++ projectName ++ String "010" t ++ rest)
    with (String "#" (String " " (projectName ++ String "010" (t ++ rest)))).
  cbn [Scan.heading_from].
  assert (Eat : Scan.headingAt
                  (String "#" (String " " (projectName ++ String "010" (t ++ rest))))
                = Some projectName).
  { unfold Scan.headingAt.
    change (String "#" (String " " (projectName ++ String "010" (t ++ rest))))
      with ("# " ++ projectName ++ String "010" (t ++ rest)).
    rewrite startsWith_app.
    change 2 with (String.length "# "). rewrite slice_from_app.
    rewrite takeLine_line by assumption. now rewrite Hne. }
  now rewrite Eat.
Qed.

(** ** The loop of the [create] action *)

Lemma setLastFields_length (fs : list Feature) (v : string) :
  List.length (setLastFields fs v) = List.length fs.
Proof.
  induction fs as [|f [|g fs] IH]; [reflexivity | reflexivity |].
  change (setLastFields (f :: g :: fs) v) with (f :: setLastFields (g :: fs) v).
  cbn [List.length]. now rewrite IH.
Qed.

Lemma setLastFields_snoc (fs : list Feature) (f : Feature) (v : string) :
  setLastFields (List.app fs [f]) v = List.app fs [mkFeature (fname f) v].
Proof.
  induction fs as [|g fs IH]; [reflexivity|].
  cbn [List.app]. destruct (List.app fs [f]) as [|h t] eqn:E.
  - destruct fs; discriminate.
  - change (setLastFields (g :: h :: t) v) with (g :: setLastFields (h :: t) v).
    now rewrite IH.
Qed.

Lemma setLastFields_In (fs : list Feature) (v : string) (f : Feature) :
  In f (setLastFields fs v) ->
  In f fs \/ (fields f = v /\ exists g, In g fs /\ fname g = fname f).
Proof.
  induction fs as [|g [|h fs] IH]; intros H.
  - destruct H.
  - destruct H as [<-|[]]. right. split; [reflexivity|]. exists g. split; [now left | reflexivity].
  - change (setLastFields (g :: h :: fs) v) with (g :: setLastFields (h :: fs) v) in H.
    destruct H as [<-|H]; [left; now left|].
    destruct (IH H) as [H'|(Hv & g' & Hg' & Hn)].
    + left. now right.
    + right. split; [assumption|]. exists g'. split; [now right | assumption].
Qed.

Lemma at_split_noChar (c : ascii) (s : string) (i : nat) :
  noChar c (at_ (split c s) i) = true.
Proof.
  unfold at_. pose proof (split_parts_noChar c s) as H.
  revert i. induction H as [|x l Hx Hl IH]; intros [|i]; cbn [nth];
    try reflexivity; auto.
Qed.

Lemma startsWith_split (k t : string) :
  noChar "=" k = true -> at_ (split "=" (k ++ "=" ++ t)) 1 = at_ (split "=" t) 0.
Proof.
  intros Hk. change (k ++ "=" ++ t) with (k ++ String "=" t).
  rewrite split_app_sep by assumption. reflexivity.
Qed.

Lemma collect_length (args : list string) :
  forall st,
    List.length (fst (fold_left collectStep args st))
    = List.length (fst st)
      + List.length (filter (fun a => startsWith a "--feature=") args).
Proof.
  induction args as [|a args IH]; intros [fs cur]; cbn [fold_left filter].
  - cbn. lia.
  - rewrite IH. unfold collectStep.
    destruct (startsWith a "--feature=").
    + cbn [fst List.length]. rewrite length_app. cbn. lia.
    + destruct (startsWith a "--fields=" &&
                match cur with Some n => truthy n | None => false end);
        cbn [fst]; [rewrite setLastFields_length|]; lia.
Qed.

Lemma collect_noEq (args : list string) :
  forall st,
    Forall (fun f => noChar "=" (fname f) = true /\ noChar "=" (fields f) = true)
           (fst st) ->
    Forall (fun f => noChar "=" (fname f) = true /\ noChar "=" (fields f) = true)
           (fst (fold_left collectStep args st)).
Proof.
  induction args as [|a args IH]; intros [fs cur] H; cbn [fold_left]; [exact H|].
  apply IH. unfold collectStep.
  destruct (startsWith a "--feature=").
  - cbn [fst]. apply Forall_app. split; [exact H|].
    constructor; [|constructor]. cbn [fname fields]. split; [|reflexivity].
    apply at_split_noChar.
  - destruct (startsWith a "--fields=" &&
              match cur with Some n => truthy n | None => false end);
      [|exact H].
    cbn [fst] in *. apply Forall_forall. intros f Hf.
    rewrite Forall_forall in H.
    destruct (setLastFields_In _ _ _ Hf) as [Hin|(Hv & g & Hg & Hn)].
    + now apply H.
    + split.
      * rewrite <- Hn. now apply H.
      * rewrite Hv. apply at_split_noChar.
Qed.

Lemma collect_entries (entries : list (string * option string)) :
  Forall (fun e => truthy (fst e) = true /\ noChar "=" (fst e) = true /\
                   match snd e with Some f => noChar "=" f = true | None => True end)
         entries ->
  forall fs cur,
    fst (fold_left collectStep (flat_map featureArgs entries) (fs, cur))
    = List.app fs (map featureOf entries).
Proof.
  induction 1 as [|[n fo] es (Hn & Hne & Hf) Hes IH]; intros fs cur.
  - cbn. now rewrite app_nil_r.
  - cbn [flat_map featureArgs fst snd] in *.
    assert (Ename : at_ (split "=" ("--feature=" ++ n)) 1 = n).
    { change ("--feature=" ++ n) with ("--feature" ++ "=" ++ n).
      rewrite startsWith_split by reflexivity. now rewrite split_noChar. }
    assert (S1 : collectStep (fs, cur) ("--feature=" ++ n)
                 = (List.app fs [mkFeature n ""], Some n)).
    { unfold collectStep. unfold startsWith at 1. rewrite prefix_app.
      now rewrite Ename. }
    destruct fo as [f|].
    + assert (Efields : at_ (split "=" ("--fields=" ++ f)) 1 = f).
      { change ("--fields=" ++ f) with ("--fields" ++ "=" ++ f).
        rewrite startsWith_split by reflexivity. now rewrite split_noChar. }
      assert (S2 : collectStep (List.app fs [mkFeature n ""], Some n) ("--fields=" ++ f)
                   = (List.app fs [mkFeature n f], Some n)).
      { unfold collectStep.
        change (startsWith ("--fields=" ++ f) "--feature=") with false.
        cbv iota. unfold startsWith. rewrite prefix_app, Hn. cbn [andb].
        now rewrite Efields, setLastFields_snoc. }
      unfold featureArgs. cbn [fst snd List.app fold_left]. rewrite S1, S2, IH.
      rewrite <- app_assoc. reflexivity.
    + unfold featureArgs. cbn [fst snd List.app fold_left]. rewrite S1, IH.
      rewrite <- app_assoc. reflexivity.
Qed.

Lemma noChar_split (c d : ascii) (s : string) :
  noChar c s = true -> Forall (fun p => noChar c p = true) (split d s).
Proof.
  induction s as [|x s IH]; cbn [noChar split]; intros H.
  - repeat constructor.
  - apply andb_true_iff in H as [Hx Hs]. specialize (IH Hs).
    destruct (Ascii.eqb x d).
    + constructor; [reflexivity | exact IH].
    + destruct (split d s) as [|h t]; [repeat constructor; cbn; now rewrite Hx|].
      inversion IH; subst. constructor; [cbn [noChar]; now rewrite Hx | assumption].
Qed.

Lemma mapThrow_Forall {A B : Type} (g : A -> string + B) (P : B -> Prop)
  (xs : list A) :
  (forall a b, In a xs -> g a = inr b -> P b) ->
  forall ys, mapThrow g xs = inr ys -> Forall P ys.
Proof.
  induction xs as [|x xs IH]; intros H ys E; cbn [mapThrow] in E.
  - injection E as <-. constructor.
  - destruct (g x) as [e|y] eqn:Ex; [discriminate|].
    destruct (mapThrow g xs) as [e|ys'] eqn:Exs; [discriminate|].
    injection E as <-. constructor.
    + apply (H x y); [now left | assumption].
    + apply IH; [|reflexivity]. intros a b Ha. apply H. now right.
Qed.

Lemma startsWith_noChar (c : ascii) (r k : string) :
  noChar c r = true -> noChar c k = false -> startsWith r k = false.
Proof.
  intros Hr Hk. destruct (startsWith r k) eqn:E; [|reflexivity].
  apply prefix_true_iff in E as [t ->].
  rewrite noChar_app, Hk in Hr. discriminate.
Qed.

(** A rule without ["="] is [email] or has no effect. *)
Lemma zodType_noEq (x : Field) :
  match rule x with Some r => noChar "=" r = true | None => True end ->
  zodType x = zodBase (type x) \/ zodType x = zodBase (type x) ++ ".email()".
Proof.
  unfold zodType. destruct (rule x) as [r|]; [|now left].
  intros Hr. destruct (truthy r); [|now left].
  unfold zodRule. destruct (String.eqb r "email"); [now right|].
  rewrite !(startsWith_noChar "=" r) by (assumption || reflexivity).
  now left.
Qed.

Lemma parseFields_noEq (spec : string) (fl : list Field) :
  noChar "=" spec = true -> parseFields spec = inr fl ->
  Forall (fun x => match rule x with Some r => noChar "=" r = true | None => True end) fl.
Proof.
  intros Hs E. unfold parseFields in E.
  destruct (truthy spec); cbn [negb] in E; [|injection E as <-; constructor].
  revert fl E. apply mapThrow_Forall. intros pair x Hin Ex.
  pose proof (noChar_split "=" "," spec Hs) as Hp.
  rewrite Forall_forall in Hp. specialize (Hp pair Hin).
  unfold parsePair in Ex. destruct (FieldSchema_parse pair); [discriminate|].
  injection Ex as <-. cbn [rule].
  pose proof (noChar_split "=" ":" pair Hp) as Hparts.
  rewrite Forall_forall in Hparts.
  destruct (split ":" pair) as [|a [|b [|c t]]]; cbn [nth_error]; try exact I.
  apply Hparts. right; right; now left.
Qed.

(** ** The fields [parseFields] returns *)

Lemma cleanPart_true_iff (s : string) :
  cleanPart s = true <-> s <> "" /\ noChar ":" s = true /\ noChar "," s = true.
Proof.
  unfold cleanPart. rewrite !andb_true_iff, truthy_true_iff. tauto.
Qed.

Lemma parsePair_wellFormed (pair : string) (x : Field) :
  noChar "," pair = true -> parsePair pair = inr x -> wellFormed x = true.
Proof.
  intros Hc E.
  destruct (validEntry pair) eqn:V;
    [|rewrite (parsePair_invalid _ V) in E; discriminate].
  unfold parsePair, FieldSchema_parse in E.
  rewrite FieldSchema_test_validEntry, V in E.
  apply validEntry_true_iff in V
    as (n & t & [Nn Hn] & [Nt Ht] & [-> | (r & [Nr Hr] & ->)]).
  - rewrite split_two in E by assumption. injection E as <-.
    rewrite !noChar_app in Hc. apply andb_true_iff in Hc as [Cn Ct].
    apply andb_true_iff in Ct as [_ Ct].
    unfold wellFormed. cbn [name type rule at_ nth nth_error].
    rewrite andb_true_r, andb_true_iff. split; apply cleanPart_true_iff; auto.
  - rewrite split_three in E by assumption. injection E as <-.
    rewrite !noChar_app in Hc. apply andb_true_iff in Hc as [Cn Ct].
    apply andb_true_iff in Ct as [_ Ct]. apply andb_true_iff in Ct as [Ct Cr].
    apply andb_true_iff in Cr as [_ Cr].
    unfold wellFormed. cbn [name type rule at_ nth nth_error].
    rewrite !andb_true_iff. repeat split; apply cleanPart_true_iff; auto.
Qed.

Lemma parsePair_serializeField (x : Field) :
  wellFormed x = true -> parsePair (serializeField x) = inr x.
Proof.
  destruct x as [n t r]. unfold wellFormed. cbn [name type rule].
  rewrite !andb_true_iff. intros [[Hn Ht] Hr].
  apply cleanPart_true_iff in Hn as (Nn & Cn & _).
  apply cleanPart_true_iff in Ht as (Nt & Ct & _).
  unfold parsePair, FieldSchema_parse, serializeField. cbn [name type rule].
  rewrite FieldSchema_test_validEntry.
  destruct r as [r|].
  - apply cleanPart_true_iff in Hr as (Nr & Cr & _).
    assert (V : validEntry (n ++ ":" ++ t ++ ":" ++ r) = true).
    { apply validEntry_true_iff. exists n, t. repeat split; try assumption.
      right. exists r. repeat split; assumption. }
    rewrite V, split_three by assumption. reflexivity.
  - rewrite app_nil_r_s.
    assert (V : validEntry (n ++ ":" ++ t) = true).
    { apply validEntry_true_iff. exists n, t. repeat split; try assumption.
      now left. }
    rewrite V, split_two by assumption. reflexivity.
Qed.

Lemma serializeField_noComma (x : Field) :
  wellFormed x = true -> noChar "," (serializeField x) = true.
Proof.
  destruct x as [n t r]. unfold wellFormed. cbn [name type rule].
  rewrite !andb_true_iff. intros [[Hn Ht] Hr].
  apply cleanPart_true_iff in Hn as (_ & _ & Cn).
  apply cleanPart_true_iff in Ht as (_ & _ & Ct).
  unfold serializeField. cbn [name type rule].
  rewrite !noChar_app, Cn, Ct. destruct r as [r|]; [|reflexivity].
  apply cleanPart_true_iff in Hr as (_ & _ & Cr).
  rewrite noChar_app, Cr. reflexivity.
Qed.

Lemma serializeField_nonempty (x : Field) :
  wellFormed x = true -> serializeField x <> "".
Proof.
  destruct x as [n t r]. unfold wellFormed. cbn [name type rule].
  rewrite !andb_true_iff. intros [[Hn _] _].
  apply cleanPart_true_iff in Hn as (Nn & _).
  unfold serializeField. cbn [name]. destruct n; [congruence | discriminate].
Qed.

Lemma mapThrow_serialized (fl : list Field) :
  forallb wellFormed fl = true ->
  mapThrow parsePair (map serializeField fl) = inr fl.
Proof.
  induction fl as [|x fl IH]; [reflexivity|].
  cbn [forallb map mapThrow]. intros H. apply andb_true_iff in H as [Hx Hfl].
  now rewrite (parsePair_serializeField x Hx), (IH Hfl).
Qed.

Lemma join_nonempty (sep x : string) (l : list string) :
  x <> "" -> join sep (x :: l) <> "".
Proof.
  intros Hx. destruct l as [|y l]; [exact Hx|].
  rewrite join_cons2. destruct x; [congruence | discriminate].
Qed.

Lemma mapThrow_length {A B : Type} (g : A -> string + B) (xs : list A) :
  forall ys, mapThrow g xs = inr ys -> List.length ys = List.length xs.
Proof.
  induction xs as [|x xs IH]; intros ys E; cbn [mapThrow] in E.
  - now injection E as <-.
  - destruct (g x); [discriminate|].
    destruct (mapThrow g xs) as [|ys'] eqn:E'; [discriminate|].
    injection E as <-. cbn [List.length]. now rewrite (IH ys' eq_refl).
Qed.

Lemma upperChar_idem (c : ascii) : upperChar (upperChar c) = upperChar c.
Proof. by_cases_on_ascii c. Qed.

Lemma isAscii_upperChar (c : ascii) :
  isAscii c = true -> isAscii (upperChar c) = true.
Proof. by_cases_on_ascii c. Qed.


(** ** What the scanners return *)

Section Matches.

Import Scan.

Lemma wordsThen_Some (post : string) (s cap : string) :
  wordsThen post s = Some cap ->
  cap <> "" /\ allChars isWord cap = true /\ exists rest, s = cap ++ post ++ rest.
Proof.
  revert cap. induction s as [|c s IH]; intros cap H; [discriminate|].
  cbn [wordsThen] in H. destruct (isWord c) eqn:Hc; [|discriminate].
  destruct (wordsThen post s) as [cap'|] eqn:E.
  - injection H as <-. destruct (IH cap' eq_refl) as (_ & Hw & rest & ->).
    split; [discriminate|]. split; [cbn [allChars]; now rewrite Hc, Hw|].
    now exists rest.
  - destruct (startsWith s post) eqn:P; [|discriminate]. injection H as <-.
    apply prefix_true_iff in P as [rest ->].
    split; [discriminate|]. split; [cbn [allChars]; now rewrite Hc|].
    now exists rest.
Qed.

Lemma wordsThen_total (post X rest : string) :
  X <> "" -> allChars isWord X = true ->
  wordsThen post (X ++ post ++ rest) <> None.
Proof.
  induction X as [|c X IH]; intros Hne Hw; [congruence|].
  cbn [allChars] in Hw. apply andb_true_iff in Hw as [Hc HX].
  change (String c X ++ post ++ rest) with (String c (X ++ post ++ rest)).
  cbn [wordsThen]. rewrite Hc.
  destruct (wordsThen post (X ++ post ++ rest)) eqn:E; [discriminate|].
  destruct X as [|d X'].
  - change ("" ++ post ++ rest) with (post ++ rest).
    unfold startsWith. rewrite prefix_app. discriminate.
  - exfalso. apply IH; [discriminate | assumption | reflexivity].
Qed.

Lemma matchAt_Some (pre post s m cap : string) :
  matchAt pre post s = Some (m, cap) ->
  m = pre ++ cap ++ post /\ cap <> "" /\ allChars isWord cap = true /\
  exists rest, s = m ++ rest.
Proof.
  unfold matchAt. destruct (startsWith s pre) eqn:P; [|discriminate].
  apply prefix_true_iff in P as [t ->]. rewrite slice_from_app.
  destruct (wordsThen post t) as [cap'|] eqn:E; [|discriminate].
  intros H. injection H as <- <-.
  destruct (wordsThen_Some _ _ _ E) as (Hne & Hw & rest & ->).
  split; [reflexivity|]. split; [exact Hne|]. split; [exact Hw|].
  exists rest. now rewrite !app_assoc_s.
Qed.

Lemma matchAll_from_In (pre post : string) (s : string) :
  forall skip m,
    In m (matchAll_from pre post s skip) ->
    exists cap, m = pre ++ cap ++ post /\ cap <> "" /\ allChars isWord cap = true.
Proof.
  induction s as [|c s IH]; intros skip m H; [destruct H|].
  cbn [matchAll_from] in H. destruct skip as [|k]; [|exact (IH k m H)].
  destruct (matchAt pre post (String c s)) as [[m' cap]|] eqn:E.
  - destruct H as [<- | H]; [|exact (IH _ m H)].
    destruct (matchAt_Some _ _ _ _ _ E) as (-> & Hne & Hw & _).
    now exists cap.
  - exact (IH 0 m H).
Qed.

Lemma firstMatch_Some (pre post s m cap : string) :
  firstMatch pre post s = Some (m, cap) ->
  cap <> "" /\ allChars isWord cap = true.
Proof.
  induction s as [|c s IH]; cbn [firstMatch].
  - destruct (matchAt pre post "") as [[m' cap']|] eqn:E; [|discriminate].
    intros H. injection H as <- <-.
    now destruct (matchAt_Some _ _ _ _ _ E) as (_ & Hne & Hw & _).
  - destruct (matchAt pre post (String c s)) as [[m' cap']|] eqn:E; [|exact IH].
    intros H. injection H as <- <-.
    now destruct (matchAt_Some _ _ _ _ _ E) as (_ & Hne & Hw & _).
Qed.

Lemma firstMatch_total (post a X rest : string) :
  X <> "" -> allChars isWord X = true ->
  firstMatch "" post (a ++ X ++ post ++ rest) <> None.
Proof.
  intros Hne Hw. induction a as [|c a IH].
  - change ("" ++ X ++ post ++ rest) with (X ++ post ++ rest).
    assert (E : matchAt "" post (X ++ post ++ rest) <> None).
    { unfold matchAt, startsWith. rewrite prefix_nil.
      cbn [String.length slice_from].
      pose proof (wordsThen_total post X rest Hne Hw) as H.
      replace (slice_from 0 (X ++ post ++ rest)) with (X ++ post ++ rest)
        by (now destruct (X ++ post ++ rest)).
      destruct (wordsThen post (X ++ post ++ rest)); [discriminate | congruence]. }
    destruct (X ++ post ++ rest); cbn [firstMatch];
      destruct (matchAt "" post _); (discriminate || congruence).
  - change (String c a ++ X ++ post ++ rest) with (String c (a ++ X ++ post ++ rest)).
    cbn [firstMatch].
    destruct (matchAt "" post (String c (a ++ X ++ post ++ rest)));
      [discriminate | exact IH].
Qed.

Lemma isWord_lowerChar (c : ascii) :
  isWord c = true -> isLowerWord (lowerChar c) = true.
Proof. by_cases_on_ascii c. Qed.

Lemma word_toLowerCase (s : string) :
  s <> "" -> allChars isWord s = true -> lowerName (toLowerCase s) = true.
Proof.
  intros Hne Hw. unfold lowerName. apply andb_true_iff. split.
  - destruct s; [congruence | reflexivity].
  - clear Hne. induction s as [|c s IH]; [reflexivity|].
    cbn [allChars] in Hw. apply andb_true_iff in Hw as [Hc Hs].
    cbn [toLowerCase allChars]. now rewrite (isWord_lowerChar c Hc), IH.
Qed.

(** The second pattern always matches inside a match of the first. *)
Lemma controllerOf_match (cap : string) :
  cap <> "" -> allChars isWord cap = true ->
  exists f, controllerOf ("import { " ++ cap ++ "Controller }") = inr f /\
            lowerName (fname f) = true /\ fields f = "".
Proof.
  intros Hne Hw.
  unfold controllerOf.
  change ("import { " ++ cap ++ "Controller }")
    with ("import { " ++ cap ++ "Controller" ++ " }").
  pose proof (firstMatch_total "Controller" "import { " cap " }" Hne Hw) as Ht.
  destruct (firstMatch "" "Controller" ("import { " ++ cap ++ "Controller" ++ " }"))
    as [[m' cap']|] eqn:E; [|congruence].
  destruct (firstMatch_Some _ _ _ _ _ E) as (Hne' & Hw').
  eexists. split; [reflexivity|]. split; [|reflexivity].
  cbn [fname]. now apply word_toLowerCase.
Qed.

Lemma serverRoster_total (serverContent : string) :
  exists fs,
    serverRoster serverContent = inr fs /\
    Forall (fun f => lowerName (fname f) = true /\ fields f = "") fs.
Proof.
  unfold serverRoster.
  assert (Hall : forall m,
             In m (matchAll "import { " "Controller }" serverContent) ->
             exists f, controllerOf m = inr f /\
                       lowerName (fname f) = true /\ fields f = "").
  { intros m Hm. apply matchAll_from_In in Hm as (cap & -> & Hne & Hw).
    now apply controllerOf_match. }
  rewrite (mapThrow_ok controllerOf (mkFeature "" "")).
  - eexists. split; [reflexivity|].
    apply Forall_forall. intros f Hf. apply in_map_iff in Hf as (m & <- & Hm).
    destruct (Hall m Hm) as (g & -> & Hg). exact Hg.
  - intros m Hm. destruct (Hall m Hm) as (g & Eg & _). now exists g.
Qed.

Lemma readmeRoster_words (readmeContent : string) :
  Forall (fun n => wordName n = true) (readmeRoster readmeContent).
Proof.
  unfold readmeRoster. apply Forall_forall. intros n Hn.
  apply in_map_iff in Hn as (m & <- & Hm).
  apply matchAll_from_In in Hm as (cap & -> & Hne & Hw).
  rewrite app_nil_r_s. fold phrase. rewrite (phrase_word cap Hw).
  unfold wordName. rewrite Hw. destruct cap; [congruence | reflexivity].
Qed.

End Matches.

(** ** Paths *)

Lemma prefix_app_head (a x y : string) :
  String.prefix (a ++ x) (a ++ y) = String.prefix x y.
Proof.
  induction a as [|c a IH]; [reflexivity|].
  change (String c a ++ x) with (String c (a ++ x)).
  change (String c a ++ y) with (String c (a ++ y)).
  rewrite prefix_cons, IH, Ascii.eqb_refl. reflexivity.
Qed.

Lemma startsWith_includes (s a t b : string) :
  startsWith s (a ++ t ++ b) = true -> includes s t = true.
Proof.
  intros H. apply prefix_true_iff in H as [c ->].
  rewrite !app_assoc_s. apply includes_intro.
Qed.

Lemma resolve_app (w : World) (p x : string) :
  resolve w (p ++ "/" ++ x) = resolve w (p ++ "/") ++ x.
Proof.
  unfold resolve, path.join, join. cbn [String.concat].
  assert (E : startsWith (p ++ "/" ++ x) "/" = startsWith (p ++ "/") "/").
  { destruct p as [|c p']; unfold startsWith; cbn [append];
      rewrite !prefix_cons, !prefix_nil; reflexivity. }
  rewrite E. destruct (startsWith (p ++ "/") "/"); now rewrite !app_assoc_s.
Qed.

Lemma lookup_app_In (l rest : list (string * string)) (k v : string) :
  NoDup (map fst l) -> In (k, v) l -> lookup k (l ++ rest)%list = Some v.
Proof.
  induction l as [|[k' v'] l IH]; intros Hnd Hin; [destruct Hin|].
  cbn [map fst] in Hnd. inversion Hnd as [|? ? Hnotin Hnd']; subst.
  cbn [List.app lookup]. destruct Hin as [E|Hin].
  - injection E as -> ->. now rewrite String.eqb_refl.
  - destruct (String.eqb_spec k' k) as [->|_].
    + exfalso. apply Hnotin. apply in_map_iff. now exists (k, v).
    + now apply IH.
Qed.

Lemma lookup_app_other (l rest : list (string * string)) (p : string) :
  (forall k, In k (map fst l) -> p <> k) ->
  lookup p (l ++ rest)%list = lookup p rest.
Proof.
  induction l as [|[k v] l IH]; intros H; [reflexivity|].
  cbn [List.app lookup].
  destruct (String.eqb_spec k p) as [->|_].
  - exfalso. apply (H p); [now left | reflexivity].
  - apply IH. intros k' Hk'. apply H. now right.
Qed.

Lemma written_fst (base : string) (l : list (string * string)) :
  forall k, In k (map fst (written base l)) <->
            exists rel, In rel (map fst l) /\ k = base ++ rel.
Proof.
  intros k. unfold written. rewrite map_rev, <- in_rev, map_map. cbn [fst].
  rewrite in_map_iff. split.
  - intros (e & <- & He). exists (fst e). split; [now apply in_map|reflexivity].
  - intros (rel & Hrel & ->). apply in_map_iff in Hrel as (e & <- & He).
    now exists e.
Qed.

Lemma written_NoDup (base : string) (l : list (string * string)) :
  NoDup (map fst l) -> NoDup (map fst (written base l)).
Proof.
  intros H. unfold written. rewrite map_rev. apply NoDup_rev.
  rewrite map_map. cbn [fst].
  induction l as [|e l IH]; [constructor|].
  cbn [map] in *. inversion H as [|? ? Hnotin Hnd]; subst.
  constructor; [|now apply IH].
  intros Hin. apply in_map_iff in Hin as (e' & E & He').
  apply app_inv_head_s in E. apply Hnotin. rewrite <- E. now apply in_map.
Qed.

Lemma written_In (base : string) (l : list (string * string)) (rel content : string) :
  In (rel, content) l -> In (base ++ rel, content) (written base l).
Proof.
  intros H. unfold written. rewrite <- in_rev.
  apply in_map_iff. now exists (rel, content).
Qed.

(** ** The run of [generateFeature] *)

Lemma forEach_mkdir (g : string -> string) (ds : list string) :
  forall w,
    exists dirs',
      forEach (fun d => fs.mkdir (g d)) ds w
      = Ret tt (mkWorld dirs' (files w) (cwd w) (version w) (console w)) /\
      (forall x, In x dirs' <->
                 In x (dirs w) \/ In x (map (fun d => resolve w (g d)) ds)).
Proof.
  induction ds as [|d ds IH]; intros w.
  - exists (dirs w). split; [now destruct w|]. intros x. cbn. tauto.
  - cbn [forEach]. unfold bind at 1. unfold fs.mkdir at 1.
    destruct (existsb_str (resolve w (g d)) (dirs w)) eqn:E.
    + destruct (IH w) as (dirs' & -> & Hd). exists dirs'. split; [reflexivity|].
      intros x. rewrite Hd. cbn [map In]. split; [tauto|].
      intros [H|[<-|H]]; auto. left.
      unfold existsb_str in E. apply existsb_exists in E as (y & Hy & Ey).
      apply String.eqb_eq in Ey. now subst.
    + match goal with
      | |- context [forEach _ ds ?w1] => destruct (IH w1) as (dirs' & -> & Hd)
      end.
      exists dirs'. split; [reflexivity|].
      intros x. rewrite Hd. cbn [dirs map In]. rewrite in_app_iff. cbn [In].
      unfold resolve. cbn [cwd]. tauto.
Qed.

Ltac path_neq E :=
  repeat first
    [ discriminate E
    | apply app_inv_head_s in E
    | injection E as E ].

Lemma featureFiles_NoDup (feature : string) (fields : list Field) :
  NoDup (map fst (featureFiles feature fields)).
Proof.
  unfold featureFiles. cbn [map fst].
  repeat (constructor;
          [ cbn [In]; intros H;
            repeat (destruct H as [H|H]; [exfalso; path_neq H|]); exact H | ]).
  constructor.
Qed.

Lemma bind_writeFile {A : Type} (p c : string) (k : unit -> M A) (w : World) :
  bind (fs.writeFile p c) k w
  = k tt (mkWorld (dirs w) ((resolveFrom (cwd w) p, c) :: files w)
                  (cwd w) (version w) (console w)).
Proof. reflexivity. Qed.

Ltac run_write :=
  cbv beta;
  lazymatch goal with
  | |- bind (fs.writeFile ?p ?c) ?k ?w = _ => rewrite (bind_writeFile p c k w)
  end;
  cbn [dirs files cwd version console].

Lemma generateFeature_run (projectRoot feature : string) (fl : list Field) (w : World) :
  exists dirs',
    generateFeature projectRoot feature fl w
    = Ret tt (mkWorld dirs'
                (List.app (written (resolve w (projectRoot ++ "/"))
                                   (featureFiles feature fl))
                          (files w))
                (cwd w) (version w)
                (List.app (console w)
                          ["Created folder structure for feature: " ++ feature])) /\
    (forall x, In x dirs' <->
               In x (dirs w) \/
               In x (map (fun d => resolve w (projectRoot ++ "/") ++ d)
                         (featureDirs feature))).
Proof.
  unfold generateFeature.
  match goal with
  | |- context [forEach ?f ?ds] =>
      destruct (forEach_mkdir (fun dir => path.join [projectRoot; dir]) ds w)
        as (dirs' & E & Hd)
  end.
  exists dirs'. split.
  - rewrite (bind_Ret _ _ _ _ _ E).
    do 11 run_write.
    cbv beta.
    unfold console_log, console_print, written, featureFiles.
    cbn [dirs files cwd version console map rev List.app fst snd].
    change (resolveFrom (cwd w)) with (resolve w).
    unfold path.join, join. cbn [String.concat].
    repeat rewrite <- resolve_app.
    repeat rewrite app_assoc_s. 
    reflexivity.
  - intros x. rewrite Hd.
    assert (Em : map (fun d => resolve w (path.join [projectRoot; d]))
                     (List.app (map (fun d => path.join [path.join ["Features"; feature]; d])
                                    featureDirNames)
                               [path.join ["__tests__"; "Features"; feature]])
                 = map (fun d => resolve w (projectRoot ++ "/") ++ d)
                       (featureDirs feature)).
    { unfold featureDirs, featureDirNames, path.join, join.
      cbn [map List.app String.concat].
      repeat rewrite <- resolve_app. repeat rewrite app_assoc_s. reflexivity. }
    now rewrite Em.
Qed.

(** ** The loop of [createProject] over the features *)

Lemma featureFiles_under (feature : string) (fl : list Field) (rel : string) :
  In rel (map fst (featureFiles feature fl)) ->
  exists tail,
    rel = "Features/" ++ feature ++ "/" ++ tail \/
    rel = "__tests__/Features/" ++ feature ++ "/" ++ tail.
Proof.
  unfold featureFiles. cbn [map fst In].
  intros H.
  repeat (destruct H as [<-|H];
          [eexists; first [left; reflexivity | right; reflexivity]|]).
  destruct H.
Qed.

Lemma prefix_slashfree (g f tail : string) :
  noChar "/" g = true -> noChar "/" f = true ->
  String.prefix (g ++ "/") (f ++ "/" ++ tail) = true -> g = f.
Proof.
  revert f. induction g as [|d g IH]; intros [|c f] Hg Hf H.
  - reflexivity.
  - cbn [noChar] in Hf. apply andb_true_iff in Hf as [Hc _].
    change ("" ++ "/") with (String "/" "") in H.
    change (String c f ++ "/" ++ tail) with (String c (f ++ "/" ++ tail)) in H.
    rewrite prefix_cons in H. apply andb_true_iff in H as [E _].
    apply Ascii.eqb_eq in E. subst c. discriminate.
  - cbn [noChar] in Hg. apply andb_true_iff in Hg as [Hd _].
    change (String d g ++ "/") with (String d (g ++ "/")) in H.
    change ("" ++ "/" ++ tail) with (String "/" tail) in H.
    rewrite prefix_cons in H. apply andb_true_iff in H as [E _].
    apply Ascii.eqb_eq in E. subst d. discriminate.
  - cbn [noChar] in Hg, Hf.
    apply andb_true_iff in Hg as [_ Hg]. apply andb_true_iff in Hf as [_ Hf].
    change (String d g ++ "/") with (String d (g ++ "/")) in H.
    change (String c f ++ "/" ++ tail) with (String c (f ++ "/" ++ tail)) in H.
    rewrite prefix_cons in H. apply andb_true_iff in H as [E H].
    apply Ascii.eqb_eq in E. subst d. f_equal. now apply IH.
Qed.

(** A path outside the two directories of a feature is none of its files. *)
Lemma outside_feature (base feature : string) (fl : list Field) (p : string) :
  startsWith p (base ++ "Features/" ++ feature ++ "/") = false ->
  startsWith p (base ++ "__tests__/Features/" ++ feature ++ "/") = false ->
  forall k, In k (map fst (written base (featureFiles feature fl))) -> p <> k.
Proof.
  intros H1 H2 k Hk ->. apply written_fst in Hk as (rel & Hrel & ->).
  apply featureFiles_under in Hrel as (tail & [-> | ->]).
  - replace (base ++ "Features/" ++ feature ++ "/" ++ tail)
      with ((base ++ "Features/" ++ feature ++ "/") ++ tail) in H1
      by (now rewrite !app_assoc_s).
    rewrite startsWith_app in H1. discriminate.
  - replace (base ++ "__tests__/Features/" ++ feature ++ "/" ++ tail)
      with ((base ++ "__tests__/Features/" ++ feature ++ "/") ++ tail) in H2
      by (now rewrite !app_assoc_s).
    rewrite startsWith_app in H2. discriminate.
Qed.

(** A file of one feature is outside the directories of another one. *)
Lemma other_feature (base f g : string) (fl : list Field) (rel : string) :
  noChar "/" f = true -> noChar "/" g = true -> g <> f ->
  In rel (map fst (featureFiles f fl)) ->
  startsWith (base ++ rel) (base ++ "Features/" ++ g ++ "/") = false /\
  startsWith (base ++ rel) (base ++ "__tests__/Features/" ++ g ++ "/") = false.
Proof.
  intros Hf Hg Hne Hrel. unfold startsWith. rewrite !prefix_app_head.
  apply featureFiles_under in Hrel as (tail & [-> | ->]).
  - split; [|reflexivity].
    change (String.prefix ("Features/" ++ g ++ "/") ("Features/" ++ f ++ "/" ++ tail))
      with (String.prefix (g ++ "/") (f ++ "/" ++ tail)).
    destruct (String.prefix (g ++ "/") (f ++ "/" ++ tail)) eqn:E; [|reflexivity].
    exfalso. apply Hne. now apply (prefix_slashfree g f tail).
  - split; [reflexivity|].
    change (String.prefix ("__tests__/Features/" ++ g ++ "/")
                          ("__tests__/Features/" ++ f ++ "/" ++ tail))
      with (String.prefix (g ++ "/") (f ++ "/" ++ tail)).
    destruct (String.prefix (g ++ "/") (f ++ "/" ++ tail)) eqn:E; [|reflexivity].
    exfalso. apply Hne. now apply (prefix_slashfree g f tail).
Qed.

Lemma parses_fieldsOf (f : Feature) :
  parses f -> parseFields (or_else (fields f) defaultFields) = inr (fieldsOf f).
Proof. intros [fl E]. unfold fieldsOf. now rewrite E. Qed.

Lemma parses_sampleOf (f : Feature) :
  parses f -> sampleOf f = getSampleJson (fieldsOf f).
Proof. intros [fl E]. unfold sampleOf, fieldsOf. now rewrite E. Qed.

Section Loop.

Variable projectRoot : string.

Lemma generateFeatures_run (features : list Feature) :
  Forall parses features ->
  forall (acc : list string) (w : World),
    let base := resolve w (projectRoot ++ "/") in
    exists w',
      generateFeatures projectRoot features acc w
      = Ret (List.app acc (map sampleOf features)) w' /\
      cwd w' = cwd w /\ version w' = version w /\
      (forall d, In d (dirs w) -> In d (dirs w')) /\
      (forall p,
         (forall f, In f features ->
            startsWith p (base ++ "Features/" ++ fname f ++ "/") = false /\
            startsWith p (base ++ "__tests__/Features/" ++ fname f ++ "/") = false) ->
         lookup p (files w') = lookup p (files w)) /\
      (NoDup (map fname features) ->
       Forall (fun f => noChar "/" (fname f) = true) features ->
       forall f rel content,
         In f features -> In (rel, content) (featureFiles (fname f) (fieldsOf f)) ->
         lookup (base ++ rel) (files w') = Some content).
Proof.
  induction 1 as [|f rest Hf Hrest IH]; intros acc w base.
  - exists w. cbn [generateFeatures map]. rewrite app_nil_r.
    repeat split; auto. intros _ _ f rel content [].
  - cbn [generateFeatures].
    rewrite (parses_fieldsOf f Hf).
    rewrite (bind_Ret (liftThrow (inr _)) _ w w _ eq_refl).
    destruct (generateFeature_run projectRoot (fname f) (fieldsOf f) w)
      as (dirs1 & E1 & Hd1).
    rewrite (bind_Ret _ _ _ _ _ E1).
    match goal with
    | |- context [generateFeatures _ rest ?acc1 ?w1] =>
        destruct (IH acc1 w1) as (w' & E & Hc & Hv & Hd & Hother & Hfiles)
    end.
    cbn [cwd version dirs files] in Hc, Hv, Hd, Hother, Hfiles.
    change (resolve _ (projectRoot ++ "/")) with base in Hother, Hfiles.
    exists w'. split.
    { rewrite E. cbn [map]. rewrite <- app_assoc. cbn [List.app].
      now rewrite (parses_sampleOf f Hf). }
    split; [exact Hc|]. split; [exact Hv|]. split.
    { intros d Hin. apply Hd, Hd1. now left. }
    split.
    { intros p Hp. rewrite Hother by (intros g Hg; apply Hp; now right).
      apply lookup_app_other.
      destruct (Hp f (or_introl eq_refl)) as [H1 H2].
      now apply outside_feature. }
    intros Hnd Hsl g rel content Hg Hrel.
    cbn [map] in Hnd. inversion Hnd as [|? ? Hnotin Hnd']; subst.
    inversion Hsl as [|? ? Hsf Hsl']; subst.
    destruct Hg as [<- | Hg].
    + rewrite Hother.
      * apply lookup_app_In.
        -- apply written_NoDup, featureFiles_NoDup.
        -- now apply written_In.
      * intros g Hg. apply (other_feature base (fname f) (fname g) (fieldsOf f)).
        -- exact Hsf.
        -- rewrite Forall_forall in Hsl'. now apply Hsl'.
        -- intros Eg. apply Hnotin. rewrite <- Eg. now apply in_map.
        -- apply in_map_iff. now exists (rel, content).
    + now apply (Hfiles Hnd' Hsl' g).
Qed.

End Loop.

(** ** The run of [createProject] *)

Lemma bind_chdir {A : Type} (p : string) (k : unit -> M A) (w : World) :
  bind (process.chdir p) k w
  = k tt (mkWorld (dirs w) (files w) (resolveFrom (cwd w) p) (version w) (console w)).
Proof. reflexivity. Qed.

Lemma bind_console_log {A : Type} (l : string) (k : unit -> M A) (w : World) :
  bind (console_log l) k w
  = k tt (mkWorld (dirs w) (files w) (cwd w) (version w) (List.app (console w) [l])).
Proof. reflexivity. Qed.

Ltac run_step :=
  cbv beta;
  lazymatch goal with
  | |- context [bind (fs.writeFile ?p ?c) ?k ?w0] => rewrite (bind_writeFile p c k w0)
  | |- context [bind (console_log ?l) ?k ?w0] => rewrite (bind_console_log l k w0)
  | |- context [bind (process.chdir ?p) ?k ?w0] => rewrite (bind_chdir p k w0)
  end;
  cbn [dirs files cwd version console].

Lemma base_nested (w : World) (pathSpec projectName : string) (ds : list string)
  (fl : list (string * string)) (v : string) (co : list string) :
  let projectRoot := path.join [pathSpec; projectName] in
  resolve (mkWorld ds fl (resolve w projectRoot) v co) (projectRoot ++ "/")
  = resolve w projectRoot ++ "/" ++ nested projectRoot.
Proof.
  intros projectRoot. unfold resolve at 1. cbn [cwd].
  assert (E : startsWith (projectRoot ++ "/") "/" = startsWith projectRoot "/").
  { unfold projectRoot, path.join, join. cbn [String.concat].
    destruct pathSpec as [|c p']; unfold startsWith; cbn [append];
      rewrite !prefix_cons, !prefix_nil; reflexivity. }
  rewrite E. unfold nested, resolve.
  destruct (startsWith projectRoot "/").
  - reflexivity.
  - unfold path.join, join. cbn [String.concat].
    now rewrite !app_assoc_s.
Qed.

Lemma not_under_features (root n rel f : string) :
  includes rel "Features/" = false ->
  startsWith (root ++ "/" ++ rel) ((root ++ "/" ++ n) ++ "Features/" ++ f ++ "/") = false /\
  startsWith (root ++ "/" ++ rel) ((root ++ "/" ++ n) ++ "__tests__/Features/" ++ f ++ "/") = false.
Proof.
  intros Hi. split.
  - destruct (startsWith _ _) eqn:E; [|reflexivity].
    apply prefix_true_iff in E as [t E]. rewrite !app_assoc_s in E.
    apply app_inv_head_s in E. injection E as E.
    subst rel. exfalso.
    exact (eq_true_false_abs _ (includes_intro n "Features/" (f ++ "/" ++ t)) Hi).
  - destruct (startsWith _ _) eqn:E; [|reflexivity].
    apply prefix_true_iff in E as [t E]. rewrite !app_assoc_s in E.
    apply app_inv_head_s in E. injection E as E.
    subst rel. exfalso.
    pose proof (includes_intro (n ++ "__tests__/") "Features/" (f ++ "/" ++ t)) as Hc.
    rewrite app_assoc_s in Hc.
    exact (eq_true_false_abs _ Hc Hi).
Qed.

Lemma coreFiles_NoDup (projectName : string) (features : list Feature) :
  NoDup (map fst (coreFiles projectName features)).
Proof.
  unfold coreFiles. cbn [map fst].
  repeat (constructor;
          [ cbn [In]; intros H;
            repeat (destruct H as [H|H]; [discriminate H|]); exact H | ]).
  constructor.
Qed.

Lemma coreFiles_paths (projectName : string) (features : list Feature) (rel : string) :
  In rel (map fst (coreFiles projectName features)) ->
  includes rel "Features/" = false /\ rel <> "README.md".
Proof.
  unfold coreFiles. cbn [map fst In]. intros H.
  repeat (destruct H as [<-|H]; [split; [reflexivity | discriminate]|]).
  destruct H.
Qed.

Lemma featureFiles_includes (feature : string) (fl : list Field) (rel : string) :
  In rel (map fst (featureFiles feature fl)) -> includes rel "Features/" = true.
Proof.
  intros H. apply featureFiles_under in H as (tail & [-> | ->]).
  - apply (includes_intro "" "Features/").
  - apply (includes_intro "__tests__/" "Features/").
Qed.

Section CreateRun.

Variables (projectName pathSpec : string) (features : list Feature) (w : World).

Let projectRoot := path.join [pathSpec; projectName].
Let root := resolve w projectRoot.
Let base := root ++ "/" ++ nested projectRoot.

Hypothesis Hn : nodeOk w = true.
Hypothesis Hx : fs.exists_ w root = false.
Hypothesis Hp : Forall parses features.

Lemma createProject_run :
  exists w',
    createProject projectName pathSpec features w = Ret tt w' /\
    cwd w' = root /\
    In root (dirs w') /\
    (forall d, In d (dirs w) -> In d (dirs w')) /\
    lookup (root ++ "/README.md") (files w')
    = Some (templates.readmeMd projectName features (map sampleOf features)) /\
    (forall rel content,
       In (rel, content) (coreFiles projectName features) ->
       lookup (root ++ "/" ++ rel) (files w') = Some content) /\
    (NoDup (map fname features) ->
     Forall (fun f => noChar "/" (fname f) = true) features ->
     forall f rel content,
       In f features -> In (rel, content) (featureFiles (fname f) (fieldsOf f)) ->
       lookup (base ++ rel) (files w') = Some content) /\
    (forall p,
       p <> root ++ "/README.md" ->
       (forall rel, In rel (map fst (coreFiles projectName features)) ->
                    p <> root ++ "/" ++ rel) ->
       (forall f, In f features ->
          startsWith p (base ++ "Features/" ++ fname f ++ "/") = false /\
          startsWith p (base ++ "__tests__/Features/" ++ fname f ++ "/") = false) ->
       lookup p (files w') = lookup p (files w)).
Proof.
  unfold createProject. fold projectRoot. unfold try_catch.
  rewrite (bind_Ret process.version_ _ w w (version w) eq_refl).
  rewrite (nodeOk_check w Hn).
  rewrite (bind_Ret (when false _) _ w w tt eq_refl).
  rewrite (bind_Ret (fs.access projectRoot) _ w w false)
    by (unfold fs.access; fold root; now rewrite Hx).
  rewrite (bind_Ret (when false _) _ w w tt eq_refl).
  assert (Hxd : existsb_str root (dirs w) = false)
    by (unfold fs.exists_ in Hx; now apply orb_false_iff in Hx).
  rewrite (bind_Ret (fs.mkdir projectRoot) _ w (add_dir w root) tt)
    by (unfold fs.mkdir; fold root; now rewrite Hxd).
  cbv zeta.
  match goal with
  | |- context [forEach ?f ?ds] =>
      destruct (forEach_mkdir (fun dir => path.join [projectRoot; dir]) ds
                              (add_dir w root))
        as (dirs1 & E1 & Hd1)
  end.
  rewrite (bind_Ret _ _ _ _ _ E1).
  cbn [add_dir dirs files cwd version console].
  run_step. run_step.
  change (resolveFrom (cwd w) projectRoot) with root.
  do 10 run_step.
  cbv beta.
  match goal with
  | |- context [bind (generateFeatures projectRoot features []) ?k ?wc] =>
      destruct (generateFeatures_run projectRoot features Hp [] wc)
        as (w3 & E3 & Hc3 & _ & Hd3 & Hother & Hfiles);
      rewrite (bind_Ret _ k wc w3 _ E3)
  end.
  cbn [cwd dirs files List.app] in Hc3, Hd3, Hother, Hfiles.
  rewrite (base_nested w pathSpec projectName) in Hother, Hfiles.
  fold projectRoot in Hother, Hfiles. fold root in Hother, Hfiles.
  fold base in Hother, Hfiles.
  do 8 run_step. cbv beta.
  unfold console_log at 1, console_print at 1.
  cbn [cwd dirs files version console].
  rewrite Hc3.
  assert (Ecore :
    (resolveFrom root "Server/index.ts", templates.serverIndexTs features)
    :: (resolveFrom root "Core/config/database.ts", templates.databaseTs)
    :: (resolveFrom root "Core/error/custom-error.ts", templates.customErrorTs)
    :: (resolveFrom root "Core/result/result.ts", templates.resultTs)
    :: (resolveFrom root ".gitignore", templates.gitignore)
    :: (resolveFrom root ".env", templates.env projectName)
    :: (resolveFrom root "jest.config.ts", templates.jestConfigTs)
    :: (resolveFrom root "tsconfig.json", templates.tsconfigJson)
    :: (resolveFrom root "package.json", templates.packageJson projectName)
    :: files w
    = List.app (written (root ++ "/") (coreFiles projectName features)) (files w)).
  { unfold written, coreFiles, resolveFrom, path.join, join.
    cbn [map rev List.app fst snd startsWith String.prefix String.concat].
    rewrite !app_assoc_s. reflexivity. }
  rewrite Ecore in Hother. clear Ecore.
  eexists. split; [reflexivity|].
  cbn [cwd dirs files].
  assert (Hreadme : resolveFrom root "README.md" = root ++ "/README.md")
    by reflexivity.
  rewrite Hreadme.
  assert (Hout : forall rel f,
             includes rel "Features/" = false ->
             startsWith (root ++ "/" ++ rel) (base ++ "Features/" ++ fname f ++ "/") = false /\
             startsWith (root ++ "/" ++ rel)
                        (base ++ "__tests__/Features/" ++ fname f ++ "/") = false).
  { intros rel f Hi. unfold base.
    pose proof (not_under_features root (nested projectRoot) rel (fname f) Hi) as H.
    rewrite !app_assoc_s in H. rewrite !app_assoc_s. exact H. }
  split; [reflexivity|].
  split.
  { apply Hd3, Hd1. left. unfold add_dir. cbn [dirs].
    apply in_or_app. right. now left. }
  split.
  { intros d Hin. apply Hd3, Hd1. left. unfold add_dir. cbn [dirs].
    apply in_or_app. now left. }
  split.
  { cbn [lookup]. now rewrite String.eqb_refl. }
  split.
  { intros rel content Hin.
    assert (Hrel : In rel (map fst (coreFiles projectName features)))
      by (apply in_map_iff; now exists (rel, content)).
    destruct (coreFiles_paths _ _ _ Hrel) as [Hi Hne].
    cbn [lookup].
    destruct (String.eqb_spec (root ++ "/README.md") (root ++ "/" ++ rel)) as [E|_].
    { apply app_inv_head_s in E. injection E as E. congruence. }
    rewrite Hother by (intros f _; now apply Hout).
    apply lookup_app_In.
    - apply written_NoDup, coreFiles_NoDup.
    - rewrite <- app_assoc_s. now apply written_In. }
  split.
  { intros Hnd Hsl f rel content Hf Hin.
    assert (Hrel : In rel (map fst (featureFiles (fname f) (fieldsOf f))))
      by (apply in_map_iff; now exists (rel, content)).
    cbn [lookup].
    destruct (String.eqb_spec (root ++ "/README.md") (base ++ rel)) as [E|_].
    { exfalso. unfold base in E. rewrite !app_assoc_s in E.
      apply app_inv_head_s in E. injection E as E.
      pose proof (featureFiles_includes _ _ _ Hrel) as Hi.
      apply includes_true_iff in Hi as (a & b & ->).
      assert (Hc : includes "README.md" "Features/" = true).
      { rewrite E, <- (app_assoc_s (nested projectRoot) a).
        apply includes_intro. }
      discriminate Hc. }
    now apply (Hfiles Hnd Hsl f). }
  intros p Hp1 Hp2 Hp3.
  cbn [lookup].
  destruct (String.eqb_spec (root ++ "/README.md") p) as [E|_]; [congruence|].
  rewrite Hother by exact Hp3.
  apply lookup_app_other. intros k Hk.
  apply written_fst in Hk as (rel & Hrel & ->).
  rewrite app_assoc_s. now apply Hp2.
Qed.

End CreateRun.

(** ** The run of [addFeature] *)

Lemma bind_readFile_Some {A : Type} (p c : string) (k : string -> M A) (w : World) :
  lookup (resolve w p) (files w) = Some c ->
  bind (fs.readFile p) k w = k c w.
Proof. intros H. unfold bind, fs.readFile. now rewrite H. Qed.

Lemma bind_readFile_None {A : Type} (p : string) (k : string -> M A) (w : World) :
  lookup (resolve w p) (files w) = None ->
  bind (fs.readFile p) k w
  = Throw ("ENOENT: no such file or directory, open '" ++ p ++ "'") w.
Proof. intros H. unfold bind, fs.readFile. now rewrite H. Qed.

Lemma project_path (w : World) (rel : string) :
  resolve w (path.join [cwd w; rel]) = resolve w (cwd w ++ "/") ++ rel.
Proof.
  unfold path.join, join. cbn [String.concat]. apply resolve_app.
Qed.

Lemma not_feature_file (base feature : string) (fl : list Field) (rel : string) :
  includes rel "Features/" = false ->
  forall k, In k (map fst (written base (featureFiles feature fl))) ->
            base ++ rel <> k.
Proof.
  intros Hi k Hk E. apply written_fst in Hk as (rel' & Hrel & ->).
  apply app_inv_head_s in E. subst rel'.
  apply featureFiles_includes in Hrel. congruence.
Qed.

Section AddRun.

Variables (w : World) (featureName fields_ : string).
Variables (parsed : list Field) (server0 : string) (recovered : list Feature).

Hypothesis Hparse : parseFields (or_else fields_ defaultFields) = inr parsed.
Hypothesis Hserver : lookup (markerPath w) (files w) = Some server0.
Hypothesis Hroster : serverRoster server0 = inr recovered.

Let base := resolve w (cwd w ++ "/").
Let server1 :=
  templates.serverIndexTs (List.app recovered [mkFeature featureName fields_]).
Let files1 :=
  (markerPath w, server1)
    :: List.app (written base (featureFiles featureName parsed)) (files w).
Let created := "Created folder structure for feature: " ++ featureName.

Let dirs' := dirs (final (generateFeature (cwd w) featureName parsed w)).

Lemma addFeature_run :
    (forall x, In x dirs' <->
               In x (dirs w) \/
               In x (map (fun d => base ++ d) (featureDirs featureName))) /\
    match lookup (readmePath w) (files w) with
    | Some readme0 =>
        let projectName := readmeProjectName readme0 in
        let roster := newRoster (readmeRoster readme0) featureName fields_ in
        addFeature featureName fields_ w
        = Ret tt (mkWorld dirs'
                    ((readmePath w,
                      templates.readmeMd projectName roster (map sampleOf roster))
                       :: files1)
                    (cwd w) (version w)
                    (List.app (console w)
                       [created;
                        "Feature '" ++ featureName ++ "' added to " ++ projectName;
                        "Ensure MongoDB is running and update .env with the correct MONGODB_URI if needed."]))
    | None =>
        addFeature featureName fields_ w
        = Exit 1 (mkWorld dirs' files1 (cwd w) (version w)
                    (List.app (console w)
                       [created;
                        "Failed to add feature: "
                          ++ "ENOENT: no such file or directory, open '"
                          ++ path.join [cwd w; "README.md"] ++ "'"]))
    end.
Proof.
  destruct (generateFeature_run (cwd w) featureName parsed w) as (d & E & Hd).
  fold base in E, Hd.
  assert (Ed : dirs' = d) by (unfold dirs'; now rewrite E).
  rewrite Ed. clear Ed.
  split; [exact Hd|].
  assert (Hmarker : markerPath w = base ++ "Server/index.ts")
    by apply project_path.
  assert (Hreadme : readmePath w = base ++ "README.md")
    by apply project_path.
  assert (Hne : String.eqb (markerPath w) (readmePath w) = false).
  { apply String.eqb_neq. rewrite Hmarker, Hreadme. intros H.
    apply app_inv_head_s in H. discriminate. }
  assert (Hacc : fs.exists_ w (resolve w (path.join [cwd w; "Server/index.ts"])) = true).
  { unfold fs.exists_. fold (markerPath w). now rewrite Hserver, orb_true_r. }
  assert (Hs1 : lookup (markerPath w)
                  (List.app (written base (featureFiles featureName parsed)) (files w))
                = Some server0).
  { rewrite lookup_app_other; [exact Hserver|].
    rewrite Hmarker. now apply not_feature_file. }
  assert (Hr1 : lookup (readmePath w) files1 = lookup (readmePath w) (files w)).
  { unfold files1. cbn [lookup]. rewrite Hne.
    apply lookup_app_other. rewrite Hreadme. now apply not_feature_file. }
  unfold addFeature.
  rewrite (bind_Ret process.cwd_ _ w w (cwd w) eq_refl).
  unfold try_catch.
  rewrite (bind_Ret (fs.access _) _ w w true)
    by (unfold fs.access; now rewrite Hacc).
  rewrite (bind_Ret (when (negb true) _) _ w w tt eq_refl).
  rewrite (bind_Ret (liftThrow _) _ w w parsed) by (now rewrite Hparse).
  rewrite (bind_Ret _ _ _ _ _ E).
  match goal with
  | |- context [bind (fs.readFile ?p) ?k ?w0] =>
      rewrite (bind_readFile_Some p server0 k w0)
        by (cbn [files]; exact Hs1)
  end.
  cbv zeta beta.
  match goal with
  | |- context [bind (liftThrow (serverRoster server0)) ?k ?w0] =>
      rewrite (bind_Ret (liftThrow (serverRoster server0)) k w0 w0 recovered)
        by (now rewrite Hroster)
  end.
  run_step.
  change (resolveFrom (cwd w) (path.join [cwd w; "Server/index.ts"]))
    with (markerPath w).
  fold server1. fold files1. fold created.
  destruct (lookup (readmePath w) (files w)) as [readme0|] eqn:Hr.
  - match goal with
    | |- context [bind (fs.readFile ?p) ?k ?w0] =>
        rewrite (bind_readFile_Some p readme0 k w0)
          by (cbn [files]; exact Hr1)
    end.
    cbv zeta beta.
    fold (newRoster (readmeRoster readme0) featureName fields_).
    rewrite (newRoster_samples featureName fields_ parsed Hparse).
    match goal with
    | |- context [bind (liftThrow (inr ?a)) ?k ?w0] =>
        rewrite (bind_Ret (liftThrow (inr a)) k w0 w0 a eq_refl)
    end.
    run_step. run_step. cbv beta.
    unfold console_log at 1, console_print at 1.
    cbn [dirs files cwd version console].
    rewrite <- !app_assoc. reflexivity.
  - match goal with
    | |- context [bind (fs.readFile ?p) ?k ?w0] =>
        rewrite (bind_readFile_None p k w0)
          by (cbn [files]; exact Hr1)
    end.
    unfold bind, console_error, console_print, process.exit.
    cbn [dirs files cwd version console].
    rewrite <- app_assoc. reflexivity.
Qed.

End AddRun.

(** ** The templates of the two regenerated files read the names only *)

Lemma map_by_name {B : Type} (g : Feature -> B) (h : string -> B)
  (fs fs' : list Feature) :
  (forall f, g f = h (fname f)) ->
  map fname fs = map fname fs' -> map g fs = map g fs'.
Proof.
  intros Hg E.
  rewrite (map_ext g (fun f => h (fname f)) Hg fs).
  rewrite (map_ext g (fun f => h (fname f)) Hg fs').
  rewrite <- !(map_map fname h). now rewrite E.
Qed.

Lemma mapi_by_name {B : Type} (g : nat -> Feature -> B) (h : nat -> string -> B)
  (fs : list Feature) :
  (forall i f, g i f = h i (fname f)) ->
  forall fs' i, map fname fs = map fname fs' ->
                mapi_from g i fs = mapi_from g i fs'.
Proof.
  intros Hg. induction fs as [|f fs IH]; intros [|f' fs'] i E;
    try discriminate; [reflexivity|].
  cbn [map] in E. injection E as E1 E2.
  cbn [mapi_from]. rewrite !Hg, E1. f_equal. now apply IH.
Qed.

Lemma serverIndexTs_names (fs fs' : list Feature) :
  map fname fs = map fname fs' ->
  templates.serverIndexTs fs = templates.serverIndexTs fs'.
Proof.
  intros E. rewrite !serverIndexTs_shape. unfold importSection, mountSection.
  rewrite (map_by_name templates.importLine
             (fun n => templates.importLine (mkFeature n "")) fs fs')
    by (reflexivity || exact E).
  rewrite (map_by_name templates.mountLines
             (fun n => templates.mountLines (mkFeature n "")) fs fs')
    by (reflexivity || exact E).
  reflexivity.
Qed.

Lemma readmeMd_names (projectName : string) (fs fs' : list Feature)
  (samples : list string) :
  map fname fs = map fname fs' ->
  templates.readmeMd projectName fs samples
  = templates.readmeMd projectName fs' samples.
Proof.
  intros E. rewrite !readmeMd_shape. unfold testingSection, mapi.
  rewrite (mapi_by_name (templates.exampleRequest samples)
             (fun i n => templates.exampleRequest samples i (mkFeature n ""))
             fs (fun i f => eq_refl) fs' 0 E).
  now rewrite E.
Qed.

Lemma newRoster_default (existing : list string) (featureName : string) :
  map fname (newRoster existing featureName "")
  = map fname (newRoster existing featureName defaultFields) /\
  map sampleOf (newRoster existing featureName "")
  = map sampleOf (newRoster existing featureName defaultFields).
Proof.
  unfold newRoster. rewrite !map_map. split.
  - reflexivity.
  - apply map_ext. intros n. destruct (String.eqb n featureName); [|reflexivity].
    unfold sampleOf. cbn [fields].
    change (or_else "" defaultFields) with defaultFields.
    change (or_else defaultFields defaultFields) with defaultFields.
    reflexivity.
Qed.

(** ** Counting characters *)

Lemma countChar_app (c : ascii) (a b : string) :
  countChar c (a ++ b) = countChar c a + countChar c b.
Proof.
  induction a as [|x a IH]; [reflexivity|].
  cbn [append countChar]. rewrite IH. lia.
Qed.

Lemma countChar_join_map {A : Type} (c : ascii) (sep : string) (g : A -> string)
  (xs : list A) :
  countChar c sep = 0 -> (forall x, In x xs -> countChar c (g x) = 0) ->
  countChar c (join sep (map g xs)) = 0.
Proof.
  intros Hs Hg. induction xs as [|x xs IH]; [reflexivity|].
  destruct xs as [|y xs].
  - cbn [map join String.concat]. apply Hg. now left.
  - change (map g (x :: y :: xs)) with (g x :: map g (y :: xs)).
    change (map g (y :: xs)) with (g y :: map g xs) at 1.
    rewrite join_cons2.
    change (g y :: map g xs) with (map g (y :: xs)).
    rewrite !countChar_app, Hs, (Hg x (or_introl eq_refl)), IH; [reflexivity|].
    intros z Hz. apply Hg. now right.
Qed.

Lemma countChar_capitalize (c : ascii) (s : string) :
  (forall x, Ascii.eqb (upperChar x) c = Ascii.eqb x c) ->
  countChar c (capitalize s) = countChar c s.
Proof.
  intros H. destruct s as [|x s]; [reflexivity|].
  cbn [capitalize countChar]. now rewrite H.
Qed.

Lemma upper_paren_l (x : ascii) : Ascii.eqb (upperChar x) "(" = Ascii.eqb x "(".
Proof. by_cases_on_ascii x. Qed.

Lemma upper_paren_r (x : ascii) : Ascii.eqb (upperChar x) ")" = Ascii.eqb x ")".
Proof. by_cases_on_ascii x. Qed.

Ltac count_holes c feature sampleJson Hf Hn Hup :=
  rewrite !countChar_app;
  rewrite ?(countChar_capitalize c feature Hup), ?Hf;
  rewrite ?countChar_join_map
    by (first [ reflexivity
              | intros x Hx; rewrite ?countChar_app, ?(Hn x Hx); reflexivity ]);
  clear Hf Hn;
  generalize (countChar c sampleJson); intros n;
  cbv [countChar Ascii.eqb Bool.eqb andb nl]; lia.

Lemma controllerTest_open (feature sampleJson : string) (fields : list Field) :
  countChar "(" feature = 0 ->
  (forall x, In x fields -> countChar "(" (name x) = 0) ->
  countChar "(" (templates.featureControllerTestTs feature fields sampleJson)
  = 40 + countChar "(" sampleJson.
Proof.
  intros Hf Hn.
  unfold templates.featureControllerTestTs, lines.
  cbn [join String.concat].
  count_holes "("%char feature sampleJson Hf Hn upper_paren_l.
Qed.

Lemma controllerTest_close (feature sampleJson : string) (fields : list Field) :
  countChar ")" feature = 0 ->
  (forall x, In x fields -> countChar ")" (name x) = 0) ->
  countChar ")" (templates.featureControllerTestTs feature fields sampleJson)
  = 39 + countChar ")" sampleJson.
Proof.
  intros Hf Hn.
  unfold templates.featureControllerTestTs, lines.
  cbn [join String.concat].
  count_holes ")"%char feature sampleJson Hf Hn upper_paren_r.
Qed.

Lemma useCaseTest_open (feature sampleJson : string) (fields : list Field) :
  countChar "(" feature = 0 ->
  (forall x, In x fields -> countChar "(" (name x) = 0) ->
  countChar "(" (templates.featureUseCaseTestTs feature fields sampleJson)
  = 38 + 2 * countChar "(" sampleJson.
Proof.
  intros Hf Hn.
  unfold templates.featureUseCaseTestTs, lines.
  cbn [join String.concat].
  count_holes "("%char feature sampleJson Hf Hn upper_paren_l.
Qed.

Lemma useCaseTest_close (feature sampleJson : string) (fields : list Field) :
  countChar ")" feature = 0 ->
  (forall x, In x fields -> countChar ")" (name x) = 0) ->
  countChar ")" (templates.featureUseCaseTestTs feature fields sampleJson)
  = 38 + 2 * countChar ")" sampleJson.
Proof.
  intros Hf Hn.
  unfold templates.featureUseCaseTestTs, lines.
  cbn [join String.concat].
  count_holes ")"%char feature sampleJson Hf Hn upper_paren_r.
Qed.

(** ** The heading of the README *)

Lemma takeLine_single (s : string) :
  allChars (fun ch => negb (Scan.isLineTerminator ch)) (Scan.takeLine s) = true.
Proof.
  induction s as [|c s IH]; [reflexivity|].
  cbn [Scan.takeLine]. destruct (Scan.isLineTerminator c) eqn:E; [reflexivity|].
  cbn [allChars]. now rewrite E, IH.
Qed.

Lemma headingAt_Some (s l : string) :
  Scan.headingAt s = Some l ->
  l <> "" /\ allChars (fun ch => negb (Scan.isLineTerminator ch)) l = true.
Proof.
  unfold Scan.headingAt. destruct (startsWith s "# "); [|discriminate].
  destruct (truthy (Scan.takeLine (slice_from 2 s))) eqn:T; [|discriminate].
  intros H. injection H as <-. split.
  - now apply truthy_true_iff.
  - apply takeLine_single.
Qed.

Lemma heading_from_Some (s : string) :
  forall b l, Scan.heading_from s b = Some l ->
              l <> "" /\ allChars (fun ch => negb (Scan.isLineTerminator ch)) l = true.
Proof.
  induction s as [|c s IH]; intros b l; cbn [Scan.heading_from].
  - destruct b; [|discriminate].
    destruct (Scan.headingAt "") eqn:E; [|discriminate].
    intros H. injection H as <-. now apply (headingAt_Some "").
  - destruct (if b then Scan.headingAt (String c s) else None) as [l'|] eqn:E.
    + intros H. injection H as <-. destruct b; [|discriminate].
      now apply (headingAt_Some (String c s)).
    + apply IH.
Qed.

(** ** The argument of a rule, in the words of the grammar *)

Lemma split_first (c : ascii) (s : string) : at_ (split c s) 0 = upTo c s.
Proof.
  induction s as [|x s IH]; [reflexivity|].
  cbn [split upTo]. destruct (Ascii.eqb x c); [reflexivity|].
  destruct (split_cons_form c s) as (h & t & E).
  rewrite E in *. cbn [at_ nth] in *. now rewrite IH.
Qed.

Lemma upTo_noChar (c : ascii) (s : string) : noChar c s = true -> upTo c s = s.
Proof.
  induction s as [|x s IH]; [reflexivity|].
  cbn [noChar upTo]. intros H. apply andb_true_iff in H as [Hx Hs].
  apply negb_true_iff in Hx. now rewrite Hx, (IH Hs).
Qed.

Lemma upTo_app_sep (c : ascii) (a b : string) :
  noChar c a = true -> upTo c (a ++ String c b) = a.
Proof.
  induction a as [|x a IH]; cbn [append noChar upTo]; intros H.
  - now rewrite Ascii.eqb_refl.
  - apply andb_true_iff in H as [Hx Hs].
    apply negb_true_iff in Hx. now rewrite Hx, (IH Hs).
Qed.

Lemma upTo_app (c : ascii) (a b : string) :
  noChar c a = true -> upTo c (a ++ b) = a ++ upTo c b.
Proof.
  induction a as [|x a IH]; cbn [append noChar upTo]; intros H; [reflexivity|].
  apply andb_true_iff in H as [Hx Hs].
  apply negb_true_iff in Hx. now rewrite Hx, (IH Hs).
Qed.

Lemma noChar_upTo (c : ascii) (s : string) : noChar c (upTo c s) = true.
Proof.
  induction s as [|x s IH]; [reflexivity|].
  cbn [upTo]. destruct (Ascii.eqb x c) eqn:E; [reflexivity|].
  cbn [noChar]. now rewrite E, IH.
Qed.

(** The argument of a rule is the text after its first ["="], up to the
    next one. *)
Lemma ruleArg_upTo (key t : string) :
  noChar "=" key = true -> ruleArg (key ++ "=" ++ t) = upTo "=" t.
Proof.
  intros Hk. unfold ruleArg.
  change (key ++ "=" ++ t) with (key ++ String "=" t).
  rewrite split_app_sep by assumption.
  exact (split_first "=" t).
Qed.

(** ** A create run that stops at a malformed field text *)

Section LoopStop.

Variable projectRoot : string.

Lemma generateFeatures_stop (features : list Feature) :
  (exists f, In f features /\ malformed f) ->
  forall (acc : list string) (w : World),
    let base := resolve w (projectRoot ++ "/") in
    exists w',
      generateFeatures projectRoot features acc w = Throw FieldSchema_message w' /\
      cwd w' = cwd w /\ version w' = version w /\
      (forall d, In d (dirs w) -> In d (dirs w')) /\
      (forall p,
         (forall f, In f features ->
            startsWith p (base ++ "Features/" ++ fname f ++ "/") = false /\
            startsWith p (base ++ "__tests__/Features/" ++ fname f ++ "/") = false) ->
         lookup p (files w') = lookup p (files w)).
Proof.
  induction features as [|f rest IH]; intros (g & Hg & Hbad) acc w base.
  - destruct Hg.
  - cbn [generateFeatures].
    destruct (parseFields (or_else (fields f) defaultFields)) as [e|fl] eqn:E.
    + apply parseFields_error in E as ->.
      exists w. repeat split; auto.
    + rewrite (bind_Ret (liftThrow (inr _)) _ w w _ eq_refl).
      destruct (generateFeature_run projectRoot (fname f) fl w)
        as (dirs1 & E1 & Hd1).
      rewrite (bind_Ret _ _ _ _ _ E1).
      assert (Hrest : exists g, In g rest /\ malformed g).
      { exists g. split; [|exact Hbad].
        destruct Hg as [<- | Hg]; [|exact Hg].
        unfold malformed in Hbad. congruence. }
      match goal with
      | |- context [generateFeatures _ rest ?acc1 ?w1] =>
          destruct (IH Hrest acc1 w1) as (w' & E' & Hc & Hv & Hd & Hother)
      end.
      cbn [cwd version dirs files] in Hc, Hv, Hd, Hother.
      change (resolve _ (projectRoot ++ "/")) with base in Hother.
      exists w'. split; [exact E'|].
      split; [exact Hc|]. split; [exact Hv|]. split.
      { intros d Hin. apply Hd, Hd1. now left. }
      intros p Hp. rewrite Hother by (intros h Hh; apply Hp; now right).
      apply lookup_app_other.
      destruct (Hp f (or_introl eq_refl)) as [H1 H2].
      now apply outside_feature.
Qed.

End LoopStop.

Lemma bind_Throw {A B : Type} (m : M A) (k : A -> M B) (w w' : World) (e : string) :
  m w = Throw e w' -> bind m k w = Throw e w'.
Proof. intros H. unfold bind. now rewrite H. Qed.

Lemma resolve_under (w : World) (p x : string) :
  p <> "" -> resolve w (p ++ "/" ++ x) = resolve w p ++ "/" ++ x.
Proof.
  intros Hp. destruct p as [|c p]; [congruence|].
  unfold resolve, startsWith. cbn [append]. rewrite !prefix_cons, !prefix_nil.
  destruct (Ascii.eqb "/" c); cbn [andb]; [reflexivity|].
  unfold path.join, join. cbn [String.concat].
  rewrite app_assoc_s. reflexivity.
Qed.

Section CreateStop.

Variables (projectName pathSpec : string) (features : list Feature) (w : World).

Let projectRoot := path.join [pathSpec; projectName].
Let root := resolve w projectRoot.
Let base := root ++ "/" ++ nested projectRoot.

Hypothesis Hn : nodeOk w = true.
Hypothesis Hx : fs.exists_ w root = false.
Hypothesis Hbad : exists f, In f features /\ malformed f.

Lemma createProject_stop :
  exists w',
    createProject projectName pathSpec features w = Exit 1 w' /\
    cwd w' = root /\
    In root (dirs w') /\
    (forall d, In d (dirs w) -> In d (dirs w')) /\
    (forall dir, In dir (projectDirs features) -> In (root ++ "/" ++ dir) (dirs w')) /\
    lookup (root ++ "/README.md") (files w')
    = lookup (root ++ "/README.md") (files w) /\
    (forall rel content,
       In (rel, content) (coreFiles projectName features) ->
       lookup (root ++ "/" ++ rel) (files w') = Some content) /\
    (forall p,
       (forall rel, In rel (map fst (coreFiles projectName features)) ->
                    p <> root ++ "/" ++ rel) ->
       (forall f, In f features ->
          startsWith p (base ++ "Features/" ++ fname f ++ "/") = false /\
          startsWith p (base ++ "__tests__/Features/" ++ fname f ++ "/") = false) ->
       lookup p (files w') = lookup p (files w)) /\
    (exists printed,
       console w'
       = List.app printed ["Failed to create project: " ++ FieldSchema_message]).
Proof.
  unfold createProject. fold projectRoot. unfold try_catch.
  rewrite (bind_Ret process.version_ _ w w (version w) eq_refl).
  rewrite (nodeOk_check w Hn).
  rewrite (bind_Ret (when false _) _ w w tt eq_refl).
  rewrite (bind_Ret (fs.access projectRoot) _ w w false)
    by (unfold fs.access; fold root; now rewrite Hx).
  rewrite (bind_Ret (when false _) _ w w tt eq_refl).
  assert (Hxd : existsb_str root (dirs w) = false)
    by (unfold fs.exists_ in Hx; now apply orb_false_iff in Hx).
  rewrite (bind_Ret (fs.mkdir projectRoot) _ w (add_dir w root) tt)
    by (unfold fs.mkdir; fold root; now rewrite Hxd).
  cbv zeta.
  match goal with
  | |- context [forEach ?f ?ds] =>
      destruct (forEach_mkdir (fun dir => path.join [projectRoot; dir]) ds
                              (add_dir w root))
        as (dirs1 & E1 & Hd1)
  end.
  rewrite (bind_Ret _ _ _ _ _ E1).
  cbn [add_dir dirs files cwd version console].
  run_step. run_step.
  change (resolveFrom (cwd w) projectRoot) with root.
  do 10 run_step.
  cbv beta.
  match goal with
  | |- context [bind (generateFeatures projectRoot features []) ?k ?wc] =>
      destruct (generateFeatures_stop projectRoot features Hbad [] wc)
        as (w3 & E3 & Hc3 & Hv3 & Hd3 & Hother);
      rewrite (bind_Throw _ k wc w3 _ E3)
  end.
  cbn [cwd dirs files List.app] in Hc3, Hd3, Hother.
  rewrite (base_nested w pathSpec projectName) in Hother.
  fold projectRoot in Hother. fold root in Hother. fold base in Hother.
  unfold bind at 1, console_error at 1, console_print at 1, process.exit at 1.
  assert (Ecore :
    (resolveFrom root "Server/index.ts", templates.serverIndexTs features)
    :: (resolveFrom root "Core/config/database.ts", templates.databaseTs)
    :: (resolveFrom root "Core/error/custom-error.ts", templates.customErrorTs)
    :: (resolveFrom root "Core/result/result.ts", templates.resultTs)
    :: (resolveFrom root ".gitignore", templates.gitignore)
    :: (resolveFrom root ".env", templates.env projectName)
    :: (resolveFrom root "jest.config.ts", templates.jestConfigTs)
    :: (resolveFrom root "tsconfig.json", templates.tsconfigJson)
    :: (resolveFrom root "package.json", templates.packageJson projectName)
    :: files w
    = List.app (written (root ++ "/") (coreFiles projectName features)) (files w)).
  { unfold written, coreFiles, resolveFrom, path.join, join.
    cbn [map rev List.app fst snd startsWith String.prefix String.concat].
    rewrite !app_assoc_s. reflexivity. }
  rewrite Ecore in Hother. clear Ecore.
  eexists. split; [reflexivity|].
  cbn [cwd dirs files console].
  assert (Hout : forall rel f,
             includes rel "Features/" = false ->
             startsWith (root ++ "/" ++ rel) (base ++ "Features/" ++ fname f ++ "/") = false /\
             startsWith (root ++ "/" ++ rel)
                        (base ++ "__tests__/Features/" ++ fname f ++ "/") = false).
  { intros rel f Hi. unfold base.
    pose proof (not_under_features root (nested projectRoot) rel (fname f) Hi) as H.
    rewrite !app_assoc_s in H. rewrite !app_assoc_s. exact H. }
  split; [exact Hc3|].
  split.
  { apply Hd3, Hd1. left. unfold add_dir. cbn [dirs].
    apply in_or_app. right. now left. }
  split.
  { intros d Hin. apply Hd3, Hd1. left. unfold add_dir. cbn [dirs].
    apply in_or_app. now left. }
  split.
  { intros dir Hin. apply Hd3, Hd1. right.
    apply in_map_iff. exists dir. split; [|exact Hin].
    change (resolve (add_dir w root) (path.join [projectRoot; dir]))
      with (resolve w (projectRoot ++ "/" ++ dir)).
    apply resolve_under.
    unfold projectRoot, path.join, join. cbn [String.concat].
    now destruct pathSpec. }
  split.
  { rewrite Hother by (intros f _; now apply (Hout "README.md")).
    apply lookup_app_other. intros k Hk.
    apply written_fst in Hk as (rel & Hrel & ->).
    rewrite app_assoc_s. intros E.
    apply app_inv_head_s in E. injection E as E.
    destruct (coreFiles_paths _ _ _ Hrel) as [_ Hne]. congruence. }
  split.
  { intros rel content Hin.
    assert (Hrel : In rel (map fst (coreFiles projectName features)))
      by (apply in_map_iff; now exists (rel, content)).
    destruct (coreFiles_paths _ _ _ Hrel) as [Hi Hne].
    rewrite Hother by (intros f _; now apply Hout).
    apply lookup_app_In.
    - apply written_NoDup, coreFiles_NoDup.
    - rewrite <- app_assoc_s. now apply written_In. }
  split.
  { intros p Hp2 Hp3.
    rewrite Hother by exact Hp3.
    apply lookup_app_other. intros k Hk.
    apply written_fst in Hk as (rel & Hrel & ->).
    rewrite app_assoc_s. now apply Hp2. }
  exists (console w3). reflexivity.
Qed.

End CreateStop.

(** ** The two ends of [addFeature] past its checks *)

Lemma addFeature_returns
  (featureName fields_ : string) (parsed : list Field)
  (server0 readme0 : string) (w : World) :
  let base := resolve w (cwd w ++ "/") in
  parseFields (or_else fields_ defaultFields) = inr parsed ->
  lookup (markerPath w) (files w) = Some server0 ->
  lookup (readmePath w) (files w) = Some readme0 ->
  exists w' recovered,
    addFeature featureName fields_ w = Ret tt w' /\
    serverRoster server0 = inr recovered /\
    markerPath w = base ++ "Server/index.ts" /\
    readmePath w = base ++ "README.md" /\
    lookup (markerPath w) (files w')
    = Some (templates.serverIndexTs
              (List.app recovered [mkFeature featureName fields_])) /\
    lookup (readmePath w) (files w')
    = Some (templates.readmeMd (readmeProjectName readme0)
              (newRoster (readmeRoster readme0) featureName fields_)
              (map sampleOf (newRoster (readmeRoster readme0) featureName fields_))) /\
    (forall rel content,
       In (rel, content) (featureFiles featureName parsed) ->
       lookup (base ++ rel) (files w') = Some content) /\
    (forall p,
       p <> markerPath w -> p <> readmePath w ->
       (forall rel, In rel (map fst (featureFiles featureName parsed)) ->
                    p <> base ++ rel) ->
       lookup p (files w') = lookup p (files w)) /\
    cwd w' = cwd w.
Proof.
  intros base Hparse Hserver Hreadme.
  destruct (serverRoster_total server0) as (recovered & Hroster & _).
  destruct (addFeature_run w featureName fields_ parsed server0 recovered
              Hparse Hserver Hroster) as (_ & Hrun).
  rewrite Hreadme in Hrun. cbv zeta in Hrun. fold base in Hrun.
  assert (Hmarker : markerPath w = base ++ "Server/index.ts")
    by apply project_path.
  assert (Hreadme' : readmePath w = base ++ "README.md")
    by apply project_path.
  assert (Hne : String.eqb (readmePath w) (markerPath w) = false).
  { apply String.eqb_neq. rewrite Hmarker, Hreadme'. intros H.
    apply app_inv_head_s in H. discriminate. }
  eexists. exists recovered.
  split; [exact Hrun|]. split; [exact Hroster|].
  split; [exact Hmarker|]. split; [exact Hreadme'|].
  cbn [files cwd lookup]. rewrite Hne, !String.eqb_refl.
  split; [reflexivity|]. split; [reflexivity|]. split; [|split; [|reflexivity]].
  - intros rel content Hin.
    assert (Hrel : In rel (map fst (featureFiles featureName parsed)))
      by (apply in_map_iff; now exists (rel, content)).
    pose proof (featureFiles_includes _ _ _ Hrel) as Hi.
    destruct (String.eqb_spec (readmePath w) (base ++ rel)) as [E|_].
    { rewrite Hreadme' in E. apply app_inv_head_s in E. subst rel. discriminate Hi. }
    destruct (String.eqb_spec (markerPath w) (base ++ rel)) as [E|_].
    { rewrite Hmarker in E. apply app_inv_head_s in E. subst rel. discriminate Hi. }
    apply lookup_app_In.
    + apply written_NoDup, featureFiles_NoDup.
    + now apply written_In.
  - intros p Hp1 Hp2 Hp3.
    destruct (String.eqb_spec (readmePath w) p) as [E|_]; [congruence|].
    destruct (String.eqb_spec (markerPath w) p) as [E|_]; [congruence|].
    apply lookup_app_other. intros k Hk.
    apply written_fst in Hk as (rel & Hrel & ->). now apply Hp3.
Qed.

Lemma addFeature_readme_missing
  (featureName fields_ : string) (parsed : list Field) (server0 : string)
  (w : World) :
  let base := resolve w (cwd w ++ "/") in
  let o := addFeature featureName fields_ w in
  parseFields (or_else fields_ defaultFields) = inr parsed ->
  lookup (markerPath w) (files w) = Some server0 ->
  lookup (readmePath w) (files w) = None ->
  exists recovered,
    serverRoster server0 = inr recovered /\
    exit_status o = 1 /\
    lookup (markerPath w) (files (final o))
    = Some (templates.serverIndexTs
              (List.app recovered [mkFeature featureName fields_])) /\
    lookup (readmePath w) (files (final o)) = None /\
    (forall rel content,
       In (rel, content) (featureFiles featureName parsed) ->
       lookup (base ++ rel) (files (final o)) = Some content).
Proof.
  intros base o Hparse Hserver Hreadme.
  destruct (serverRoster_total server0) as (recovered & Hroster & _).
  destruct (addFeature_run w featureName fields_ parsed server0 recovered
              Hparse Hserver Hroster) as (_ & Hrun).
  rewrite Hreadme in Hrun. fold base in Hrun.
  assert (Hmarker : markerPath w = base ++ "Server/index.ts")
    by apply project_path.
  assert (Hreadme' : readmePath w = base ++ "README.md")
    by apply project_path.
  assert (Hne : String.eqb (markerPath w) (readmePath w) = false).
  { apply String.eqb_neq. rewrite Hmarker, Hreadme'. intros H.
    apply app_inv_head_s in H. discriminate. }
  exists recovered. split; [exact Hroster|].
  unfold o. rewrite Hrun. cbn [exit_status final files lookup].
  rewrite Hne, String.eqb_refl.
  split; [reflexivity|]. split; [reflexivity|]. split.
  - rewrite lookup_app_other; [exact Hreadme|].
    rewrite Hreadme'. now apply not_feature_file.
  - intros rel content Hin.
    assert (Hrel : In rel (map fst (featureFiles featureName parsed)))
      by (apply in_map_iff; now exists (rel, content)).
    pose proof (featureFiles_includes _ _ _ Hrel) as Hi.
    destruct (String.eqb_spec (markerPath w) (base ++ rel)) as [E|_].
    { rewrite Hmarker in E. apply app_inv_head_s in E. subst rel. discriminate Hi. }
    apply lookup_app_In.
    + apply written_NoDup, featureFiles_NoDup.
    + now apply written_In.
Qed.

(** ** The identifiers of the generated files

    A template is read piece by piece: a literal closes the identifiers
    before its characters that are no word characters, a hole filled with
    a word extends the run that is being read, a hole filled with any
    other text stands between two such characters. *)

Lemma ids_end (acc : string) : identifiers_from acc "" = flushRun acc.
Proof. reflexivity. Qed.

Lemma ids_break (c : ascii) (acc s : string) :
  isWord c = false ->
  identifiers_from acc (String c s) = List.app (flushRun acc) (identifiers_from "" s).
Proof.
  intros H. cbn [identifiers_from]. rewrite H. unfold flushRun.
  now destruct (truthy acc).
Qed.

Lemma ids_word (w : string) :
  allChars isWord w = true ->
  forall acc s, identifiers_from acc (w ++ s) = identifiers_from (acc ++ w) s.
Proof.
  induction w as [|c w IH]; intros H acc s.
  - now rewrite app_nil_r_s.
  - cbn [allChars] in H. apply andb_true_iff in H as [Hc Hw].
    cbn [append identifiers_from]. rewrite Hc, (IH Hw).
    now rewrite app_assoc_s.
Qed.

Lemma ids_sep (a : string) (c : ascii) (s : string) :
  isWord c = false ->
  forall acc,
    identifiers_from acc (a ++ String c s)
    = List.app (identifiers_from acc a) (identifiers_from "" s).
Proof.
  intros Hc. induction a as [|x a IH]; intros acc.
  - now apply ids_break.
  - cbn [append identifiers_from]. destruct (isWord x); [apply IH|].
    destruct (truthy acc); cbn [List.app]; now rewrite IH.
Qed.

Lemma ids_run (l : string) :
  forall acc rest,
    identifiers_from acc (l ++ rest)
    = List.app (fst (readLit acc l)) (identifiers_from (snd (readLit acc l)) rest).
Proof.
  induction l as [|c l IH]; intros acc rest; [reflexivity|].
  cbn [append readLit]. destruct (isWord c) eqn:Hc.
  - cbn [identifiers_from]. rewrite Hc. apply IH.
  - rewrite (ids_break c acc _ Hc). cbn [fst snd].
    now rewrite IH, app_assoc.
Qed.

Lemma firstRun_word (l : string) : allChars isWord (firstRun l) = true.
Proof.
  induction l as [|c l IH]; [reflexivity|].
  cbn [firstRun]. destruct (isWord c) eqn:E; [|reflexivity].
  cbn [allChars]. now rewrite E, IH.
Qed.

Lemma afterBreak_Some (l l' : string) :
  afterBreak l = Some l' ->
  exists c, isWord c = false /\ l = firstRun l ++ String c l'.
Proof.
  revert l'. induction l as [|c l IH]; intros l' H; [discriminate|].
  cbn [afterBreak firstRun] in *. destruct (isWord c) eqn:E.
  - destruct (IH _ H) as (d & Hd & El). exists d. split; [exact Hd|].
    cbn [append]. now rewrite <- El.
  - injection H as <-. exists c. now split.
Qed.

Lemma afterBreak_None (l : string) :
  afterBreak l = None -> allChars isWord l = true.
Proof.
  induction l as [|c l IH]; [reflexivity|].
  cbn [afterBreak allChars]. destruct (isWord c); [exact IH | discriminate].
Qed.

Lemma names_start (s : string) : createUseCaseNames s = namesFrom "" (s ++ "").
Proof. now rewrite app_nil_r_s. Qed.

Lemma N_end (acc : string) : namesFrom acc "" = nameOfRun acc.
Proof. reflexivity. Qed.

Lemma N_word (w acc rest : string) :
  allChars isWord w = true -> namesFrom acc (w ++ rest) = namesFrom (acc ++ w) rest.
Proof. intros H. unfold namesFrom. now rewrite ids_word. Qed.

Lemma N_word0 (w rest : string) :
  allChars isWord w = true -> namesFrom "" (w ++ rest) = namesFrom w rest.
Proof. apply N_word. Qed.

Lemma N_lit (l w0 : string) (ms : list string) (w1 acc rest : string) :
  litParts l = Some (w0, ms, w1) ->
  namesFrom acc (l ++ rest) = List.app (nameOfRun (acc ++ w0)) (List.app ms (namesFrom w1 rest)).
Proof.
  unfold litParts. destruct (afterBreak l) as [l'|] eqn:E; [|discriminate].
  intros H. injection H as <- <- <-.
  destruct (afterBreak_Some _ _ E) as (c & Hc & El).
  unfold namesFrom, nameOfRun. rewrite El at 1. rewrite app_assoc_s.
  rewrite (ids_word _ (firstRun_word l)).
  change (String c l' ++ rest) with (String c (l' ++ rest)).
  rewrite (ids_break c _ _ Hc), ids_run.
  now rewrite !filter_app.
Qed.

Lemma N_lit_e (l : string) (ms : list string) (w1 acc rest : string) :
  litParts l = Some ("", ms, w1) ->
  namesFrom acc (l ++ rest) = List.app (nameOfRun acc) (List.app ms (namesFrom w1 rest)).
Proof. intros H. rewrite (N_lit l "" ms w1 acc rest H). now rewrite app_nil_r_s. Qed.

Lemma N_lit0 (l w0 : string) (ms : list string) (w1 rest : string) :
  litParts l = Some (w0, ms, w1) ->
  namesFrom "" (l ++ rest) = List.app (nameOfRun w0) (List.app ms (namesFrom w1 rest)).
Proof. apply N_lit. Qed.

Lemma N_hole (h l rest : string) :
  startsNonWord l = true ->
  namesFrom "" (h ++ l ++ rest) = List.app (holeNames h) (namesFrom "" (l ++ rest)).
Proof.
  destruct l as [|c l]; [discriminate|]. cbn [startsNonWord].
  intros H. apply negb_true_iff in H.
  unfold namesFrom, holeNames, createUseCaseNames, identifiers.
  change (String c l ++ rest) with (String c (l ++ rest)).
  rewrite (ids_sep h c _ H), filter_app.
  now rewrite (ids_break c "" _ H).
Qed.

Lemma N_hole_end (h : string) : namesFrom "" (h ++ "") = holeNames h.
Proof. now rewrite app_nil_r_s. Qed.

Lemma named_false (X : string) : namesCreateUseCase X = false -> nameOfRun X = [].
Proof.
  intros H. unfold nameOfRun, flushRun. destruct (truthy X); [|reflexivity].
  cbn [filter]. now rewrite H.
Qed.

Lemma named_true (X : string) : namesCreateUseCase X = true -> nameOfRun X = [X].
Proof.
  intros H. unfold nameOfRun, flushRun.
  destruct X as [|c X]; [discriminate H|].
  cbn [truthy filter]. now rewrite H.
Qed.

Lemma endsWith_refl (t : string) : endsWith t t = true.
Proof. destruct t; cbn [endsWith]; now rewrite String.eqb_refl. Qed.

Lemma endsWith_app (x t : string) : endsWith (x ++ t) t = true.
Proof.
  induction x as [|c x IH]; [apply endsWith_refl|].
  cbn [append endsWith]. rewrite IH. apply orb_true_r.
Qed.

Lemma endsWith_true_iff (s t : string) :
  endsWith s t = true <-> exists p, s = p ++ t.
Proof.
  split.
  - induction s as [|c s IH]; cbn [endsWith]; intros H.
    + rewrite orb_false_r in H. apply String.eqb_eq in H. subst t. now exists "".
    + apply orb_true_iff in H as [H|H].
      * apply String.eqb_eq in H. subst t. now exists "".
      * destruct (IH H) as [p ->]. now exists (String c p).
  - intros [p ->]. apply endsWith_app.
Qed.

Lemma endsWith_long (x b t : string) :
  String.length t <= String.length b ->
  endsWith (x ++ b) t = endsWith b t.
Proof.
  intros Hl. induction x as [|c x IH]; [reflexivity|].
  cbn [append endsWith]. rewrite IH.
  destruct (String.eqb_spec (String c (x ++ b)) t) as [E|_]; [|reflexivity].
  apply (f_equal String.length) in E. cbn [String.length] in E.
  rewrite length_app_s in E. lia.
Qed.

Lemma lastChar_app (x b : string) :
  b <> "" -> lastChar (x ++ b) = lastChar b.
Proof.
  intros Hb. induction x as [|c x IH]; [reflexivity|].
  cbn [append lastChar]. rewrite IH.
  destruct b as [|d b]; [congruence|].
  cbn [lastChar]. now destruct (lastChar b).
Qed.

Lemma endsWith_last (x b t : string) :
  b <> "" -> t <> "" -> lastChar b <> lastChar t ->
  endsWith (x ++ b) t = false.
Proof.
  intros Hb Ht Hne. destruct (endsWith (x ++ b) t) eqn:E; [|reflexivity].
  apply endsWith_true_iff in E as [p E].
  apply (f_equal lastChar) in E.
  rewrite !lastChar_app in E by assumption. congruence.
Qed.

Lemma names_lines (ls : list string) :
  createUseCaseNames (lines ls) = flat_map createUseCaseNames ls.
Proof.
  unfold lines. induction ls as [|x ls IH]; [reflexivity|].
  destruct ls as [|y ls].
  - cbn [flat_map]. now rewrite app_nil_r.
  - rewrite join_cons2.
    change (flat_map createUseCaseNames (x :: y :: ls))
      with (List.app (createUseCaseNames x)
                     (flat_map createUseCaseNames (y :: ls))).
    rewrite <- IH.
    unfold createUseCaseNames, identifiers.
    change (nl ++ join nl (y :: ls)) with (String "010" (join nl (y :: ls))).
    rewrite (ids_sep x "010" _ eq_refl). apply filter_app.
Qed.

Lemma named_U (C : string) :
  nameOfRun (("Create" ++ C) ++ "UseCase") = ["Create" ++ C ++ "UseCase"].
Proof.
  rewrite app_assoc_s. apply named_true.
  unfold namesCreateUseCase. apply andb_true_iff. split; [apply prefix_app|].
  rewrite <- app_assoc_s. apply endsWith_app.
Qed.

Lemma named_other (a r : string) :
  mismatch "Create" a = true -> nameOfRun (a ++ r) = [].
Proof.
  intros H. apply named_false. unfold namesCreateUseCase, startsWith.
  now rewrite (mismatch_prefix _ _ _ H).
Qed.

Lemma named_other2 (a v b : string) :
  mismatch "Create" a = true -> nameOfRun ((a ++ v) ++ b) = [].
Proof. rewrite app_assoc_s. apply named_other. Qed.

Lemma named_U' (C : string) :
  nameOfRun ("Create" ++ C ++ "UseCase") = ["Create" ++ C ++ "UseCase"].
Proof. rewrite <- app_assoc_s. apply named_U. Qed.

Lemma named_short (a b : string) :
  b <> "" -> lastChar b <> Some "e"%char -> nameOfRun (a ++ b) = [].
Proof.
  intros Hb Hl. apply named_false. unfold namesCreateUseCase.
  apply andb_false_iff. right. apply endsWith_last; [assumption | discriminate |].
  exact Hl.
Qed.

Lemma named_long (a b : string) :
  Nat.leb 7 (String.length b) = true -> endsWith b "UseCase" = false ->
  nameOfRun (a ++ b) = [].
Proof.
  intros Hl Hb. apply named_false. unfold namesCreateUseCase.
  apply andb_false_iff. right. apply Nat.leb_le in Hl. now rewrite endsWith_long.
Qed.

Lemma named_short3 (a v b : string) :
  b <> "" -> lastChar b <> Some "e"%char -> nameOfRun (a ++ v ++ b) = [].
Proof. rewrite <- app_assoc_s. apply named_short. Qed.

Lemma named_long3 (a v b : string) :
  Nat.leb 7 (String.length b) = true -> endsWith b "UseCase" = false ->
  nameOfRun (a ++ v ++ b) = [].
Proof. rewrite <- app_assoc_s. apply named_long. Qed.

Ltac names_step :=
  lazymatch goal with
  | |- context [namesFrom ?acc (?p ++ ?rest)] =>
      lazymatch p with
      | String _ _ =>
          let r := eval vm_compute in (litParts p) in
          lazymatch r with
          | Some (EmptyString, ?ms, ?w1) =>
              rewrite (N_lit_e p ms w1 acc rest
                         (@eq_refl _ (Some (EmptyString, ms, w1))
                          <: litParts p = Some (EmptyString, ms, w1)))
          | Some (?w0, ?ms, ?w1) =>
              rewrite (N_lit p w0 ms w1 acc rest
                         (@eq_refl _ (Some (w0, ms, w1))
                          <: litParts p = Some (w0, ms, w1)))
          | None =>
              rewrite (N_word p acc rest (@eq_refl _ true <: allChars isWord p = true))
          end
      | _ =>
          first
            [ lazymatch acc with
              | EmptyString => rewrite (N_word0 p rest) by assumption
              | _ => rewrite (N_word p acc rest) by assumption
              end
            | lazymatch rest with
              | EmptyString => rewrite (N_hole_end p)
              | ?l ++ ?rest' => rewrite (N_hole p l rest' eq_refl)
              end ]
      end
  | |- context [namesFrom ?acc EmptyString] => rewrite (N_end acc)
  end.

Ltac names_token X :=
  lazymatch X with
  | String _ _ ++ ?r =>
      lazymatch X with
      | ?a ++ _ =>
          let m := eval vm_compute in (mismatch "Create" a) in
          lazymatch m with
          | true => rewrite (named_other a r (@eq_refl bool true))
          | false =>
              lazymatch r with
              | ?v ++ "UseCase" => rewrite (named_U' v)
              | ?v ++ ?b =>
                  let long := eval vm_compute in (Nat.leb 7 (String.length b)) in
                  lazymatch long with
                  | true => rewrite (named_long3 a v b (@eq_refl bool true)
                                                      (@eq_refl bool false))
                  | false => rewrite (named_short3 a v b) by discriminate
                  end
              end
          end
      end
  | ?v ++ ?b =>
      let long := eval vm_compute in (Nat.leb 7 (String.length b)) in
      lazymatch long with
      | true => rewrite (named_long v b (@eq_refl bool true) (@eq_refl bool false))
      | false => rewrite (named_short v b) by discriminate
      end
  | String _ _ =>
      let r := eval vm_compute in (nameOfRun X) in
      rewrite (@eq_refl (list string) r <: nameOfRun X = r)
  | EmptyString =>
      change (nameOfRun X) with (@nil string)
  | _ =>
      match goal with H : nameOfRun X = [] |- _ => rewrite H end
  end.

Ltac names_named :=
  rewrite ?app_assoc_s;
  repeat
    match goal with
    | |- context [nameOfRun ?X] => names_token X
    end.

Ltac names_line :=
  match goal with
  | |- context [createUseCaseNames ?l] =>
      lazymatch l with
      | context [append] =>
          let E := fresh "E" in
          eassert (E : createUseCaseNames l = _);
          [ rewrite (names_start l); rewrite ?app_assoc_s;
            repeat names_step; names_named; cbn [List.app]; reflexivity
          | rewrite E; clear E ]
      | _ =>
          let r := eval vm_compute in (createUseCaseNames l) in
          rewrite (@eq_refl (list string) r <: createUseCaseNames l = r)
      end
  end.

Lemma ids_nonword (s rest : string) :
  allChars (fun c => negb (isWord c)) s = true ->
  identifiers_from "" (s ++ rest) = identifiers_from "" rest.
Proof.
  induction s as [|c s IH]; [reflexivity|].
  cbn [allChars]. intros H. apply andb_true_iff in H as [Hc Hs].
  apply negb_true_iff in Hc.
  cbn [append]. rewrite (ids_break c "" _ Hc). exact (IH Hs).
Qed.

Lemma names_join (sep : string) (l : list string) :
  sep <> "" -> allChars (fun c => negb (isWord c)) sep = true ->
  createUseCaseNames (join sep l) = flat_map createUseCaseNames l.
Proof.
  intros Hne Hsep. induction l as [|x l IH]; [reflexivity|].
  destruct l as [|y l].
  - cbn [flat_map]. now rewrite app_nil_r.
  - rewrite join_cons2.
    change (flat_map createUseCaseNames (x :: y :: l))
      with (List.app (createUseCaseNames x)
                     (flat_map createUseCaseNames (y :: l))).
    rewrite <- IH. unfold createUseCaseNames, identifiers.
    destruct sep as [|c sep]; [congruence|].
    cbn [allChars] in Hsep. apply andb_true_iff in Hsep as [Hc Hs].
    apply negb_true_iff in Hc.
    change (String c sep ++ join (String c sep) (y :: l))
      with (String c (sep ++ join (String c sep) (y :: l))).
    rewrite (ids_sep x c _ Hc), (ids_nonword _ _ Hs). apply filter_app.
Qed.

Lemma names_join_map {A : Type} (sep : string) (g : A -> string) (l : list A) :
  sep <> "" -> allChars (fun c => negb (isWord c)) sep = true ->
  (forall x, In x l -> createUseCaseNames (g x) = []) ->
  createUseCaseNames (join sep (map g l)) = [].
Proof.
  intros Hne Hsep Hg. rewrite (names_join sep _ Hne Hsep).
  induction l as [|x l IH]; [reflexivity|].
  cbn [map flat_map]. rewrite (Hg x (or_introl eq_refl)).
  apply IH. intros y Hy. apply Hg. now right.
Qed.

Lemma names_toTsType (t : string) : createUseCaseNames (toTsType t) = [].
Proof.
  unfold toTsType.
  destruct (String.eqb t "string"); [reflexivity|].
  destruct (String.eqb t "number"); [reflexivity|].
  destruct (String.eqb t "boolean"); reflexivity.
Qed.

Lemma names_capitalize (feature : string) :
  namesCreateUseCase (capitalize feature) = false ->
  namesCreateUseCase feature = false.
Proof.
  intros H. destruct (namesCreateUseCase feature) eqn:E; [|reflexivity].
  assert (Hs : startsWith feature "Create" = true).
  { unfold namesCreateUseCase in E. now apply andb_true_iff in E. }
  apply prefix_true_iff in Hs as [t ->].
  change (capitalize ("Create" ++ t)) with ("Create" ++ t) in H. congruence.
Qed.

Section UseCaseNames.

Variables (feature : string) (fields : list Field) (sampleJson : string).

Hypothesis Hword : wordName feature = true.
Hypothesis Hshape : namesCreateUseCase (capitalize feature) = false.

Let U := createUseCaseName feature.

Local Lemma names_word : allChars isWord feature = true.
Proof. now apply wordName_word. Qed.

Local Lemma names_capWord : allChars isWord (capitalize feature) = true.
Proof. now apply wordName_capitalize. Qed.

Local Lemma names_feature : nameOfRun feature = [].
Proof. apply named_false, names_capitalize, Hshape. Qed.

Local Lemma names_capFeature : nameOfRun (capitalize feature) = [].
Proof. apply named_false, Hshape. Qed.

Ltac with_facts :=
  pose proof names_word as Hw; pose proof names_capWord as Hc;
  pose proof names_feature as Hn; pose proof names_capFeature as Hnc.

Lemma container_names :
  createUseCaseNames (templates.featureContainerTs feature) = repeat U 4.
Proof.
  with_facts.
  unfold templates.featureContainerTs. rewrite names_lines.
  cbn [flat_map].
  repeat names_line.
  reflexivity.
Qed.

Lemma controller_names :
  createUseCaseNames (templates.featureControllerTs feature) = repeat U 3.
Proof.
  with_facts.
  unfold templates.featureControllerTs. rewrite names_lines.
  cbn [flat_map].
  repeat names_line.
  reflexivity.
Qed.

Hypothesis Hfields : Forall (fun f => createUseCaseNames (name f) = []) fields.

Lemma hole_members :
  createUseCaseNames
    (join nl (map (fun f => "  " ++ name f ++ ": " ++ toTsType (type f) ++ ";") fields))
  = [].
Proof.
  apply names_join_map; [discriminate | reflexivity |].
  intros f Hf. rewrite Forall_forall in Hfields. specialize (Hfields f Hf).
  names_line. unfold holeNames. now rewrite Hfields, names_toTsType.
Qed.

Lemma hole_args :
  createUseCaseNames (join ", " (map (fun f => "dto." ++ name f) fields)) = [].
Proof.
  apply names_join_map; [discriminate | reflexivity |].
  intros f Hf. rewrite Forall_forall in Hfields. specialize (Hfields f Hf).
  names_line. unfold holeNames. now rewrite Hfields.
Qed.

Lemma hole_pairs :
  createUseCaseNames
    (join ", " (map (fun f => name f ++ ": dto." ++ name f) fields)) = [].
Proof.
  apply names_join_map; [discriminate | reflexivity |].
  intros f Hf. rewrite Forall_forall in Hfields. specialize (Hfields f Hf).
  names_line. unfold holeNames. now rewrite Hfields.
Qed.

Lemma useCase_names :
  createUseCaseNames (templates.featureUseCaseTs feature fields) = [U].
Proof.
  with_facts.
  unfold templates.featureUseCaseTs. rewrite names_lines.
  cbn [flat_map].
  repeat names_line.
  unfold holeNames. rewrite ?hole_members, ?hole_args.
  reflexivity.
Qed.

Hypothesis Hsample : createUseCaseNames sampleJson = [].

Lemma useCaseTest_names :
  createUseCaseNames (templates.featureUseCaseTestTs feature fields sampleJson)
  = repeat U 5.
Proof.
  with_facts.
  unfold templates.featureUseCaseTestTs. rewrite names_lines.
  cbn [flat_map].
  repeat names_line.
  unfold holeNames. rewrite ?hole_args, ?Hsample.
  reflexivity.
Qed.

Lemma controllerTest_names :
  createUseCaseNames (templates.featureControllerTestTs feature fields sampleJson)
  = repeat U 3.
Proof.
  with_facts.
  unfold templates.featureControllerTestTs. rewrite names_lines.
  cbn [flat_map].
  repeat names_line.
  unfold holeNames. rewrite ?hole_args, ?hole_pairs, ?Hsample.
  reflexivity.
Qed.

End UseCaseNames.

(** ** The files of a feature and the directories made for it *)

Lemma pathSegment_noSlash (s : string) :
  pathSegment s = true -> noChar "/" s = true.
Proof.
  unfold pathSegment. intros H.
  apply andb_true_iff in H as [H _]. now apply andb_true_iff in H as [_ H].
Qed.

Lemma featureFiles_in_dirs (feature : string) (fl : list Field) :
  noChar "/" feature = true -> filesInDirs feature fl.
Proof.
  intros Hs rel Hin.
  unfold featureFiles in Hin. cbn [map fst In] in Hin.
  unfold featureDirs, featureDirNames. cbn [map List.app In].
  destruct Hin as [<-|[<-|[<-|[<-|[<-|[<-|[<-|[<-|[<-|[<-|[<-|[]]]]]]]]]]]].
  - exists ("Features/" ++ feature), "container.ts".
    split; [now rewrite !app_assoc_s|]. split; [reflexivity|]. now right.
  - exists ("Features/" ++ feature ++ "/domain/entity"), (feature ++ ".entity.ts").
    split; [now rewrite !app_assoc_s|]. split; [rewrite ?noChar_app, Hs; reflexivity|].
    left. now left.
  - exists ("Features/" ++ feature ++ "/domain/repositories"),
      (feature ++ ".repository.interface.ts").
    split; [now rewrite !app_assoc_s|]. split; [rewrite ?noChar_app, Hs; reflexivity|].
    left. do 2 right. now left.
  - exists ("Features/" ++ feature ++ "/domain/usecases"),
      ("create-" ++ feature ++ ".usecase.ts").
    split; [now rewrite !app_assoc_s|]. split; [rewrite ?noChar_app, Hs; reflexivity|].
    left. right. now left.
  - exists ("Features/" ++ feature ++ "/data/models"), (feature ++ ".model.ts").
    split; [now rewrite !app_assoc_s|]. split; [rewrite ?noChar_app, Hs; reflexivity|].
    left. do 5 right. now left.
  - exists ("Features/" ++ feature ++ "/data/datasources"),
      (feature ++ ".datasource.ts").
    split; [now rewrite !app_assoc_s|]. split; [rewrite ?noChar_app, Hs; reflexivity|].
    left. do 4 right. now left.
  - exists ("Features/" ++ feature ++ "/data/repositories"),
      (feature ++ ".repository.ts").
    split; [now rewrite !app_assoc_s|]. split; [rewrite ?noChar_app, Hs; reflexivity|].
    left. do 3 right. now left.
  - exists ("Features/" ++ feature ++ "/delivery/middlewares"),
      ("validate-" ++ feature ++ ".middleware.ts").
    split; [now rewrite !app_assoc_s|]. split; [rewrite ?noChar_app, Hs; reflexivity|].
    left. do 8 right. now left.
  - exists ("Features/" ++ feature ++ "/delivery/controllers"),
      (feature ++ ".controller.ts").
    split; [now rewrite !app_assoc_s|]. split; [rewrite ?noChar_app, Hs; reflexivity|].
    left. do 7 right. now left.
  - exists ("__tests__/Features/" ++ feature), (feature ++ ".usecase.test.ts").
    split; [now rewrite !app_assoc_s|]. split; [rewrite ?noChar_app, Hs; reflexivity|].
    left. do 9 right. now left.
  - exists ("__tests__/Features/" ++ feature), (feature ++ ".controller.test.ts").
    split; [now rewrite !app_assoc_s|]. split; [rewrite ?noChar_app, Hs; reflexivity|].
    left. do 9 right. now left.
Qed.

Lemma pathSegment_filesInDirs (feature : string) (fl : list Field) :
  pathSegment feature = true -> filesInDirs feature fl.
Proof. intros H. now apply featureFiles_in_dirs, pathSegment_noSlash. Qed.

(* ================================================================== *)
(** * Part III. Properties of the generator *)
(* ================================================================== *)

(** ** The type mapper *)

(** C7: the type mapper is total: ["string"], ["number"] and ["boolean"]
    map to the type of the same name and to the storage types ["String"],
    ["Number"], ["Boolean"]; every other token maps to ["any"] and
    ["Mixed"].  Every token falls in exactly one of the four cases, so a
    result is always returned. *)
Theorem type_mapper_total (token : string) :
  (token = "string" /\ toTsType token = "string" /\ toMongooseType token = "String") \/
  (token = "number" /\ toTsType token = "number" /\ toMongooseType token = "Number") \/
  (token = "boolean" /\ toTsType token = "boolean" /\ toMongooseType token = "Boolean") \/
  (token <> "string" /\ token <> "number" /\ token <> "boolean" /\
   toTsType token = "any" /\ toMongooseType token = "Mixed").
Proof.
  unfold toTsType, toMongooseType.
  destruct (String.eqb_spec token "string") as [->|H1]; [now left|].
  destruct (String.eqb_spec token "number") as [->|H2]; [now right; left|].
  destruct (String.eqb_spec token "boolean") as [->|H3]; [now right; right; left|].
  right; right; right. repeat split; assumption.
Qed.

(** ** The sample object *)

(** C10: for the empty field list [getSampleJson] returns the single
    character ["}"]; for every non-empty list it returns ["{"], the members
    separated by [", "], and ["}"]. *)
Theorem getSampleJson_empty_and_braces :
  getSampleJson [] = "}" /\
  (forall f fs, getSampleJson (f :: fs)
                = "{" ++ join ", " (map sampleMember (f :: fs)) ++ "}") /\
  (forall f fs, exists body, getSampleJson (f :: fs) = "{" ++ body ++ "}").
Proof.
  split; [reflexivity|]. split.
  - apply getSampleJson_members.
  - intros f fs. eexists. apply getSampleJson_members.
Qed.




(** ** The rule compiler *)




(** ** The field grammar *)

(** C4: a field text whose comma-separated entries all have two or three
    non-empty parts between colons parses, and writing every field back as
    [name:type] or [name:type:rule] and joining with commas gives the text
    again, entry by entry and in the same order. *)
Theorem parseFields_roundtrip (spec : string) :
  forallb validEntry (split "," spec) = true ->
  exists fs,
    parseFields spec = inr fs /\
    map serializeField fs = split "," spec /\
    serializeFields fs = spec.
Proof.
  intros V.
  assert (Hne : spec <> "") by (intros ->; discriminate).
  rewrite (parseFields_nonempty _ Hne).
  destruct (mapThrow_all _ V) as (fs & E & _ & Em).
  exists fs. split; [exact E|]. split; [exact Em|].
  unfold serializeFields. rewrite Em. apply (join_split ",").
Qed.

Lemma parseFields_roundtrip_witness :
  exists fs,
    parseFields "name:string:minlength=3,price:number" = inr fs /\
    map serializeField fs = ["name:string:minlength=3"; "price:number"] /\
    serializeFields fs = "name:string:minlength=3,price:number".
Proof.
  apply (parseFields_roundtrip "name:string:minlength=3,price:number").
  reflexivity.
Defined.




(** ** The two preconditions *)



(** C9 (as the code has it): without the marker file [Server/index.ts]
    under the current directory, [addFeature] prints its error and ends
    with status 1, the directories and the files being as before.  With the
    marker file the name is never compared with the roster: whenever the
    bootstrap file and the README can be read, the field text parses and
    the name is one path segment, the run returns, be the name in the
    roster read from the bootstrap file or not; the eleven files of the
    feature, each written directly into a directory the run has made, hold
    their templates, the bootstrap file is the one generated
    for that roster followed by the feature, so that a name of the roster
    is listed once more, and the README is generated again (the file
    system calls succeeding, paths joined without normalisation). *)
Theorem addFeature_requires_marker (featureName fields_ : string) (w : World) :
  let o := addFeature featureName fields_ w in
  let base := resolve w (cwd w ++ "/") in
  (fs.exists_ w (resolve w (path.join [cwd w; "Server/index.ts"])) = false ->
   exit_status o = 1 /\
   dirs (final o) = dirs w /\
   files (final o) = files w /\
   console (final o)
   = (console w ++
      ["Error: Current directory is not a tsclean project. Run from the project root."])%list) /\
  (forall server0 readme0 parsed,
     lookup (markerPath w) (files w) = Some server0 ->
     lookup (readmePath w) (files w) = Some readme0 ->
     parseFields (or_else fields_ defaultFields) = inr parsed ->
     pathSegment featureName = true ->
     filesInDirs featureName parsed /\
     exists recovered,
       serverRoster server0 = inr recovered /\
       exit_status o = 0 /\
       lookup (markerPath w) (files (final o))
       = Some (templates.serverIndexTs
                 (List.app recovered [mkFeature featureName fields_])) /\
       (In featureName (map fname recovered) ->
        exists before after,
          map fname (List.app recovered [mkFeature featureName fields_])
          = List.app before (featureName :: List.app after [featureName])) /\
       lookup (readmePath w) (files (final o))
       = Some (templates.readmeMd (readmeProjectName readme0)
                 (newRoster (readmeRoster readme0) featureName fields_)
                 (map sampleOf (newRoster (readmeRoster readme0) featureName fields_))) /\
       (forall rel content,
          In (rel, content) (featureFiles featureName parsed) ->
          lookup (base ++ rel) (files (final o)) = Some content)).
Proof.
  intros o base. split.
  - intros Hx. unfold o. rewrite (addFeature_no_marker _ _ _ Hx).
    repeat split.
  - intros server0 readme0 parsed Hserver Hreadme Hparse Hseg.
    split; [now apply pathSegment_filesInDirs|].
    destruct (addFeature_returns featureName fields_ parsed server0 readme0 w
                Hparse Hserver Hreadme)
      as (w' & recovered & Hrun & Hroster & _ & _ & Hs & Hr & Hfiles & _).
    exists recovered. unfold o. rewrite Hrun. cbn [exit_status final].
    split; [exact Hroster|]. split; [reflexivity|]. split; [exact Hs|].
    split; [|split; [exact Hr | exact Hfiles]].
    intros Hin. apply in_split in Hin as (before & after & E).
    exists before, after. rewrite map_app, E. cbn [map fname].
    now rewrite <- app_assoc.
Qed.

Lemma addFeature_requires_marker_witness :
  (exit_status (addFeature "c" "" fresh_world) = 1 /\
   files (final (addFeature "c" "" fresh_world)) = []) /\
  (exit_status (addFeature "a" "" shop_world) = 0 /\
   lookup "/tmp/shop/Server/index.ts" (files (final (addFeature "a" "" shop_world)))
   = Some (templates.serverIndexTs
             [mkFeature "a" ""; mkFeature "b" ""; mkFeature "a" ""])).
Proof.
  split.
  - destruct (addFeature_requires_marker "c" "" fresh_world) as [H _].
    destruct (H eq_refl) as (H1 & _ & H3 & _).
    split; [exact H1 | exact H3].
  - destruct (addFeature_requires_marker "a" "" shop_world) as [_ H].
    destruct (H (templates.serverIndexTs [mkFeature "a" ""; mkFeature "b" ""])
                (templates.readmeMd "shop" [mkFeature "a" ""; mkFeature "b" ""]
                   [sampleOf (mkFeature "a" ""); sampleOf (mkFeature "b" "")])
                [mkField "name" "string" (Some "minlength=3");
                 mkField "email" "string" (Some "email")]
                eq_refl eq_refl eq_refl eq_refl)
      as (_ & recovered & Hroster & Hexit & Hserver & _).
    split; [exact Hexit|].
    assert (E : recovered = [mkFeature "a" ""; mkFeature "b" ""]).
    { assert (H0 : serverRoster
                     (templates.serverIndexTs [mkFeature "a" ""; mkFeature "b" ""])
                   = inr [mkFeature "a" ""; mkFeature "b" ""])
        by (vm_compute; reflexivity).
      rewrite H0 in Hroster. now injection Hroster. }
    rewrite E in Hserver. exact Hserver.
Defined.

(** C9, as stated, fails: in the project [shop] the roster read back from
    the bootstrap file is [a], [b]; adding [a] again runs to the end with
    status 0, and the bootstrap file is written again, now for the roster
    [a], [b], [a]. *)
Lemma addFeature_duplicate_counterexample :
  let o := addFeature "a" "" shop_world in
  (exists server,
     lookup "/tmp/shop/Server/index.ts" (files shop_world) = Some server /\
     serverRoster server = inr [mkFeature "a" ""; mkFeature "b" ""]) /\
  exit_status o = 0 /\
  lookup "/tmp/shop/Server/index.ts" (files (final o))
  = Some (templates.serverIndexTs
            [mkFeature "a" ""; mkFeature "b" ""; mkFeature "a" ""]) /\
  lookup "/tmp/shop/Server/index.ts" (files (final o))
  <> lookup "/tmp/shop/Server/index.ts" (files shop_world).
Proof.
  split.
  - eexists. split; [vm_compute; reflexivity | vm_compute; reflexivity].
  - vm_compute. repeat split. discriminate.
Qed.

(** ** The template catalog *)

(** C1: for every feature name and every field list, the five files that
    refer to the creation use case (its own file, the DI container, the
    controller and the two tests) name it by the same identifier,
    ["Create"] followed by the capitalized feature name and ["UseCase"]:
    the class is declared under that identifier, and every import,
    registration, injection, resolution, type annotation and the title of
    the test suite is written with it, at the sixteen places where the
    templates name the use case.  No file names it otherwise: when the
    feature name is a word whose capitalized form is not itself of the form
    [Create...UseCase], and neither a field name nor the sample object
    holds an identifier of that form, then the identifiers of that form in
    the five files (an identifier being a maximal run of word characters)
    are that one identifier, four times in the container, three times in
    the controller, once in the use case, five times in its test and three
    times in the test of the controller. *)
Theorem create_use_case_name_agrees
  (feature : string) (fields : list Field) (sampleJson : string) :
  let U := createUseCaseName feature in
  let useCase := templates.featureUseCaseTs feature fields in
  let container := templates.featureContainerTs feature in
  let controller := templates.featureControllerTs feature in
  let useCaseTest := templates.featureUseCaseTestTs feature fields sampleJson in
  let controllerTest := templates.featureControllerTestTs feature fields sampleJson in
  U = "Create" ++ capitalize feature ++ "UseCase" /\
  includes useCase ("export class " ++ U ++ " {") = true /\
  includes container
    ("import { " ++ U ++ " } from './domain/usecases/create-" ++ feature ++ ".usecase';") = true /\
  includes container
    ("container.register<" ++ U ++ ">('" ++ U ++ "', " ++ U ++ ");") = true /\
  includes controller
    ("import { " ++ U ++ ", Create" ++ capitalize feature
       ++ "Dto } from '../../domain/usecases/create-" ++ feature ++ ".usecase';") = true /\
  includes controller
    ("@inject('" ++ U ++ "') private create" ++ capitalize feature ++ "UseCase: " ++ U) = true /\
  includes useCaseTest
    ("import { " ++ U ++ ", Create" ++ capitalize feature
       ++ "Dto } from '../../../Features/" ++ feature
       ++ "/domain/usecases/create-" ++ feature ++ ".usecase';") = true /\
  includes useCaseTest ("describe('" ++ U ++ "', () => {") = true /\
  includes useCaseTest
    ("  let create" ++ capitalize feature ++ "UseCase: " ++ U ++ ";") = true /\
  includes useCaseTest
    ("container.resolve<" ++ U ++ ">('" ++ U ++ "');") = true /\
  includes controllerTest
    ("import { " ++ U ++ " } from '../../../Features/" ++ feature
       ++ "/domain/usecases/create-" ++ feature ++ ".usecase';") = true /\
  includes controllerTest
    ("  let mockUseCase: jest.Mocked<" ++ U ++ ">;") = true /\
  includes controllerTest
    ("container.registerInstance('" ++ U ++ "', mockUseCase);") = true /\
  (wordName feature = true ->
   namesCreateUseCase (capitalize feature) = false ->
   createUseCaseNames container = [U; U; U; U] /\
   createUseCaseNames controller = [U; U; U] /\
   (Forall (fun f => createUseCaseNames (name f) = []) fields ->
    createUseCaseNames useCase = [U] /\
    (createUseCaseNames sampleJson = [] ->
     createUseCaseNames useCaseTest = [U; U; U; U; U] /\
     createUseCaseNames controllerTest = [U; U; U]))).
Proof.
  intros U useCase container controller useCaseTest controllerTest.
  unfold U, useCase, container, controller, useCaseTest, controllerTest.
  split; [reflexivity|].
  split; [in_template "" ""|].
  split; [in_template "" ""|].
  split; [in_template "" ""|].
  split; [in_template "" ""|].
  split; [in_template "  constructor(" ") {"|].
  split; [in_template "" ""|].
  split; [in_template "" ""|].
  split; [in_template "" ""|].
  split; [in_template
            ("    create" ++ capitalize feature ++ "UseCase = ") ""|].
  split; [in_template "" ""|].
  split; [in_template "" ""|].
  split; [in_template "    " ""|].
  intros Hword Hshape.
  split; [exact (container_names feature Hword Hshape)|].
  split; [exact (controller_names feature Hword Hshape)|].
  intros Hfields.
  split; [exact (useCase_names feature fields Hword Hshape Hfields)|].
  intros Hsample. split.
  - exact (useCaseTest_names feature fields sampleJson Hword Hshape Hfields Hsample).
  - exact (controllerTest_names feature fields sampleJson Hword Hshape Hfields Hsample).
Qed.

Lemma create_use_case_name_agrees_witness :
  let fields := [mkField "name" "string" (Some "minlength=3")] in
  let sample := getSampleJson fields in
  identifiers "let mockUseCase: jest.Mocked<CreateUserUseCase>;"
  = ["let"; "mockUseCase"; "jest"; "Mocked"; "CreateUserUseCase"] /\
  createUseCaseNames (templates.featureContainerTs "user")
  = ["CreateUserUseCase"; "CreateUserUseCase"; "CreateUserUseCase";
     "CreateUserUseCase"] /\
  createUseCaseNames (templates.featureUseCaseTs "user" fields)
  = ["CreateUserUseCase"] /\
  createUseCaseNames (templates.featureControllerTestTs "user" fields sample)
  = ["CreateUserUseCase"; "CreateUserUseCase"; "CreateUserUseCase"].
Proof.
  intros fields sample.
  split; [reflexivity|].
  pose proof (create_use_case_name_agrees "user" fields sample) as H.
  cbv zeta in H.
  destruct H as (_ & _ & _ & _ & _ & _ & _ & _ & _ & _ & _ & _ & _ & H).
  destruct (H eq_refl eq_refl) as (Hcontainer & _ & H1).
  split; [exact Hcontainer|].
  assert (Hf : Forall (fun f => createUseCaseNames (name f) = []) fields)
    by (repeat constructor).
  destruct (H1 Hf) as (HuseCase & H2).
  split; [exact HuseCase|].
  exact (proj2 (H2 eq_refl)).
Defined.

(** ** Adding a feature *)




(* ================================================================== *)
(** * Part IV. Further properties of the script *)
(* ================================================================== *)

(** ** The [create] action *)

(** X1: the loop of the [create] action reads a command line back.  When
    every feature is spelled [--feature=<name>], optionally followed by
    [--fields=<text>], with a non-empty name and with name and text free of
    ["="], the features handed to [createProject] are exactly these, in
    order, a feature without [--fields=] having the empty field text. *)
Theorem collectFeatures_reads_back (entries : list (string * option string)) :
  Forall (fun e => truthy (fst e) = true /\ noChar "=" (fst e) = true /\
                   match snd e with Some f => noChar "=" f = true | None => True end)
         entries ->
  collectFeatures (flat_map featureArgs entries) = map featureOf entries.
Proof.
  intros H. unfold collectFeatures.
  now rewrite (collect_entries entries H [] None).
Qed.

Lemma collectFeatures_reads_back_witness :
  collectFeatures
    ["--feature=products"; "--fields=name:string,price:number";
     "--feature=users"]
  = [mkFeature "products" "name:string,price:number"; mkFeature "users" ""].
Proof.
  apply (collectFeatures_reads_back
           [("products", Some "name:string,price:number"); ("users", None)]).
  repeat constructor.
Defined.

(** X2: the [create] action makes one feature per argument that starts
    with [--feature=], whatever the other arguments are; an argument that
    does not start with [--feature=] and comes before the first feature
    (a [--fields=] without a feature, or any other text) is ignored. *)
Theorem collectFeatures_count (args : list string) :
  List.length (collectFeatures args)
  = List.length (filter (fun a => startsWith a "--feature=") args) /\
  (forall a, startsWith a "--feature=" = false ->
             collectFeatures (a :: args) = collectFeatures args).
Proof.
  split.
  - unfold collectFeatures. now rewrite collect_length.
  - intros a Ha. unfold collectFeatures. cbn [fold_left].
    unfold collectStep at 2. rewrite Ha, andb_false_r. reflexivity.
Qed.

Lemma collectFeatures_count_witness :
  collectFeatures ["--fields=a:string"; "--feature=x"]
  = collectFeatures ["--feature=x"].
Proof.
  apply (proj2 (collectFeatures_count ["--feature=x"]) "--fields=a:string").
  reflexivity.
Defined.

(** X3: nothing after the first ["="] of a [--feature=] or [--fields=]
    value reaches [createProject]: every feature the [create] action makes
    has a name and a field text without ["="].  Hence, for a feature with
    its own (non-empty) field text, no rule with an argument survives: each
    of its fields gets the bare validator of its type, or that validator
    with [.email()]. *)
Theorem create_action_drops_rule_arguments (args : list string) (f : Feature) :
  In f (collectFeatures args) ->
  noChar "=" (fname f) = true /\
  noChar "=" (fields f) = true /\
  (fields f <> "" ->
   forall fl, parseFields (or_else (fields f) defaultFields) = inr fl ->
     Forall (fun x => zodType x = zodBase (type x) \/
                      zodType x = zodBase (type x) ++ ".email()") fl).
Proof.
  intros Hin.
  assert (H : noChar "=" (fname f) = true /\ noChar "=" (fields f) = true).
  { pose proof (collect_noEq args ([], None) (Forall_nil _)) as Hall.
    rewrite Forall_forall in Hall. now apply Hall. }
  destruct H as [Hn Hf]. split; [exact Hn|]. split; [exact Hf|].
  intros Hne fl E. unfold or_else in E.
  apply truthy_true_iff in Hne. rewrite Hne in E.
  pose proof (parseFields_noEq _ _ Hf E) as Hrules.
  revert Hrules. apply Forall_impl. intros x. apply zodType_noEq.
Qed.

Lemma create_action_drops_rule_arguments_witness :
  collectFeatures ["--feature=user"; "--fields=name:string:minlength=3"]
  = [mkFeature "user" "name:string:minlength"] /\
  Forall (fun x => zodType x = zodBase (type x) \/
                   zodType x = zodBase (type x) ++ ".email()")
         [mkField "name" "string" (Some "minlength")].
Proof.
  split; [reflexivity|].
  apply (proj2 (proj2 (create_action_drops_rule_arguments
           ["--feature=user"; "--fields=name:string:minlength=3"]
           (mkFeature "user" "name:string:minlength")
           (or_introl eq_refl)))).
  - discriminate.
  - reflexivity.
Defined.

(** ** The field grammar, from the side of the fields *)

(** X4: whatever text it is given, every field [parseFields] returns has a
    non-empty name and a non-empty type, its rule is absent or non-empty,
    and none of the three holds a colon or a comma. *)
Theorem parseFields_wellFormed (spec : string) (fl : list Field) :
  parseFields spec = inr fl -> forallb wellFormed fl = true.
Proof.
  intros E. apply forallb_forall. apply Forall_forall.
  unfold parseFields in E.
  destruct (truthy spec); cbn [negb] in E; [|injection E as <-; constructor].
  revert fl E. apply mapThrow_Forall. intros pair x Hin Ex.
  pose proof (split_parts_noChar "," spec) as Hp.
  rewrite Forall_forall in Hp.
  exact (parsePair_wellFormed pair x (Hp pair Hin) Ex).
Qed.

Lemma parseFields_wellFormed_witness :
  forallb wellFormed
    [mkField "name" "string" (Some "minlength=3"); mkField "price" "number" None]
  = true.
Proof.
  apply (parseFields_wellFormed "name:string:minlength=3,price:number").
  reflexivity.
Defined.

(** X5: [parseFields] reads back every non-empty list of such fields from
    its text: the fields written as [name:type] or [name:type:rule] and
    joined with commas parse to the same list. *)
Theorem parseFields_serializeFields (fl : list Field) :
  fl <> [] -> forallb wellFormed fl = true ->
  parseFields (serializeFields fl) = inr fl.
Proof.
  intros Hne Hwf. destruct fl as [|x fl]; [congruence|].
  assert (Hx : wellFormed x = true)
    by (cbn [forallb] in Hwf; now apply andb_true_iff in Hwf).
  rewrite parseFields_nonempty.
  - unfold serializeFields.
    rewrite (split_join ",").
    + now apply mapThrow_serialized.
    + discriminate.
    + apply Forall_forall. intros s Hs. apply in_map_iff in Hs as (y & <- & Hy).
      apply serializeField_noComma.
      rewrite forallb_forall in Hwf. now apply Hwf.
  - unfold serializeFields. cbn [map].
    apply join_nonempty. now apply serializeField_nonempty.
Qed.

Lemma parseFields_serializeFields_witness :
  parseFields "status:string:enum=open|closed,done:boolean"
  = inr [mkField "status" "string" (Some "enum=open|closed");
         mkField "done" "boolean" None].
Proof.
  apply (parseFields_serializeFields
           [mkField "status" "string" (Some "enum=open|closed");
            mkField "done" "boolean" None]).
  - discriminate.
  - reflexivity.
Defined.

(** X6: no run hands [generateFeature] an empty field list.  Both commands
    parse [fields || 'name:string:minlength=3,email:string:email']; when
    that parses, there is at least one field, as many as the text has
    comma-separated entries, and the sample object is a braced, non-empty
    text, never the lone ["}"].  For the empty field text the fields are
    the two default ones. *)
Theorem parsed_fields_never_empty (fieldDefs : string) (fl : list Field) :
  parseFields (or_else fieldDefs defaultFields) = inr fl ->
  fl <> [] /\
  List.length fl = List.length (split "," (or_else fieldDefs defaultFields)) /\
  getSampleJson fl = "{" ++ join ", " (map sampleMember fl) ++ "}" /\
  getSampleJson fl <> "}" /\
  (fieldDefs = "" ->
   fl = [mkField "name" "string" (Some "minlength=3");
         mkField "email" "string" (Some "email")]).
Proof.
  intros E.
  assert (Hne : or_else fieldDefs defaultFields <> "").
  { unfold or_else. destruct (truthy fieldDefs) eqn:T.
    - now apply truthy_true_iff.
    - discriminate. }
  assert (Hlen : List.length fl
                 = List.length (split "," (or_else fieldDefs defaultFields))).
  { rewrite (parseFields_nonempty _ Hne) in E. now apply mapThrow_length in E. }
  assert (Hfl : fl <> []).
  { intros ->. destruct (split_cons_form "," (or_else fieldDefs defaultFields))
      as (h & t & Es). rewrite Es in Hlen. discriminate. }
  split; [exact Hfl|]. split; [exact Hlen|].
  destruct fl as [|x fl]; [congruence|].
  rewrite getSampleJson_members.
  split; [reflexivity|]. split; [discriminate|].
  intros ->. cbv in E. now injection E as <- <-.
Qed.

Lemma parsed_fields_never_empty_witness :
  getSampleJson [mkField "name" "string" (Some "minlength=3");
                 mkField "email" "string" (Some "email")] <> "}".
Proof.
  apply (parsed_fields_never_empty ""
           [mkField "name" "string" (Some "minlength=3");
            mkField "email" "string" (Some "email")]).
  reflexivity.
Defined.

(** X7: the argument of a rule is the text between its first and its
    second ["="]: it never holds an ["="], and what follows a second ["="]
    is dropped, so a [min=] rule whose value holds an ["="] compiles to the
    validator of the value cut there. *)
Theorem rule_argument_ends_at_second_equals :
  (forall r, noChar "=" (ruleArg r) = true) /\
  (forall key arg rest,
     noChar "=" key = true -> noChar "=" arg = true ->
     ruleArg (key ++ "=" ++ arg ++ "=" ++ rest) = arg) /\
  (forall n t arg rest,
     noChar "=" arg = true ->
     zodType (mkField n t (Some ("min=" ++ arg ++ "=" ++ rest)))
     = zodBase t ++ ".min(" ++ arg ++ ")").
Proof.
  assert (Hcut : forall key arg rest,
             noChar "=" key = true -> noChar "=" arg = true ->
             ruleArg (key ++ "=" ++ arg ++ "=" ++ rest) = arg).
  { intros key arg rest Hk Ha. unfold ruleArg.
    change (key ++ "=" ++ arg ++ "=" ++ rest)
      with (key ++ String "=" (arg ++ String "=" rest)).
    rewrite split_app_sep by assumption.
    rewrite split_app_sep by assumption. reflexivity. }
  split; [|split; [exact Hcut|]].
  - intros r. unfold ruleArg, at_.
    pose proof (split_parts_noChar "=" r) as H. rewrite Forall_forall in H.
    destruct (nth_in_or_default 1 (split "=" r) "") as [Hin | ->];
      [now apply H | reflexivity].
  - intros n t arg rest Ha. unfold zodType. cbn [rule type].
    change (truthy ("min=" ++ arg ++ "=" ++ rest)) with true. cbv iota.
    unfold zodRule.
    change (String.eqb ("min=" ++ arg ++ "=" ++ rest) "email") with false.
    change (startsWith ("min=" ++ arg ++ "=" ++ rest) "minlength=") with false.
    change (startsWith ("min=" ++ arg ++ "=" ++ rest) "maxlength=") with false.
    replace (startsWith ("min=" ++ arg ++ "=" ++ rest) "min=") with true
      by (symmetry; apply prefix_app).
    cbv iota.
    change (ruleArg ("min=" ++ arg ++ "=" ++ rest))
      with (ruleArg ("min" ++ "=" ++ arg ++ "=" ++ rest)).
    now rewrite (Hcut "min" arg rest eq_refl Ha).
Qed.

Lemma rule_argument_ends_at_second_equals_witness :
  ruleArg "enum=a=b|c" = "a" /\
  zodType (mkField "age" "number" (Some "min=1=2")) = "z.number().min(1)".
Proof.
  destruct rule_argument_ends_at_second_equals as (_ & Hcut & Hmin).
  split.
  - apply (Hcut "enum" "a" "b|c"); reflexivity.
  - apply (Hmin "age" "number" "1" "2"). reflexivity.
Defined.

(** ** [capitalize] *)

(** X8: on a text of ASCII characters [capitalize] touches the first
    character only: the length stays, the rest of the text stays, doing it
    twice is doing it once, the lower-cased text is the same before and
    after, and a word stays a word. *)
Theorem capitalize_first_character (s : string) :
  allChars isAscii s = true ->
  String.length (capitalize s) = String.length s /\
  capitalize (capitalize s) = capitalize s /\
  toLowerCase (capitalize s) = toLowerCase s /\
  slice_from 1 (capitalize s) = slice_from 1 s /\
  allChars isAscii (capitalize s) = true /\
  (allChars isWord s = true -> allChars isWord (capitalize s) = true).
Proof.
  intros Ha. destruct s as [|c s]; [repeat split; reflexivity|].
  cbn [capitalize]. split; [reflexivity|].
  split; [now rewrite upperChar_idem|].
  split; [cbn [toLowerCase]; now rewrite lowerChar_upperChar|].
  split; [reflexivity|].
  cbn [allChars] in *. apply andb_true_iff in Ha as [Hc Hs]. split.
  - now rewrite (isAscii_upperChar c Hc), Hs.
  - intros H. apply andb_true_iff in H as [Hw Hs'].
    now rewrite (isWord_upperChar c Hw), Hs'.
Qed.

Lemma capitalize_first_character_witness :
  capitalize (capitalize "order_items") = capitalize "order_items" /\
  toLowerCase (capitalize "order_items") = "order_items".
Proof.
  destruct (capitalize_first_character "order_items" eq_refl)
    as (_ & H2 & H3 & _).
  split; [exact H2 | exact H3].
Defined.

(** ** The rosters read back from the two files *)

(** X9: reading the roster from the bootstrap file never throws, whatever
    the file holds: inside every match of [/import { (\w+)Controller }/g]
    the pattern [/(\w+)Controller/] matches again, so the non-null
    assertion holds.  Every name read is a non-empty word of lower-case
    letters, digits and underscores, and every entry has the empty field
    text. *)
Theorem serverRoster_never_throws (serverContent : string) :
  exists fs,
    serverRoster serverContent = inr fs /\
    Forall (fun f => lowerName (fname f) = true /\ fields f = "") fs.
Proof. apply serverRoster_total. Qed.

(** X10: every name [addFeature] reads from the README with
    [/Create a (\w+)/g] and [m.split(' ')[2]] is a non-empty word: the third
    item of the split is the whole group, never a part of it. *)
Theorem readmeRoster_names_are_words (readmeContent : string) :
  Forall (fun n => wordName n = true) (readmeRoster readmeContent) /\
  readmeRoster readmeContent
  = map (fun m => slice_from (String.length phrase) m)
        (Scan.matchAll phrase "" readmeContent).
Proof.
  split; [apply readmeRoster_words|].
  unfold readmeRoster. apply map_ext_in. intros m Hm.
  apply matchAll_from_In in Hm as (cap & -> & Hne & Hw).
  rewrite app_nil_r_s. fold phrase.
  now rewrite (phrase_word cap Hw), slice_from_app.
Qed.

(** X11: the rosters of the two generated files, for a roster of any
    length whose names are non-empty words (letters, digits, underscores):
    the bootstrap file gives the names back in order but in lower case,
    each with the empty field text; the README gives them back as they are,
    provided neither the project name nor a sample object holds the phrase
    ["Create a "]. *)
Theorem rosters_of_generated_files
  (projectName : string) (features : list Feature) (sampleJsons : list string) :
  Forall wordFeature features ->
  serverRoster (templates.serverIndexTs features)
  = inr (map (fun f => mkFeature (toLowerCase (fname f)) "") features) /\
  (noPhrase projectName -> Forall noPhrase sampleJsons ->
   readmeRoster (templates.readmeMd projectName features sampleJsons)
   = map fname features).
Proof.
  intros Hfs. split.
  - now apply serverRoster_generated.
  - intros Hp Hs. now apply readmeRoster_generated.
Qed.

Lemma rosters_of_generated_files_witness :
  let features := [mkFeature "Users" "name:string"; mkFeature "order_items" ""] in
  let sampleJsons := map sampleOf features in
  serverRoster (templates.serverIndexTs features)
  = inr [mkFeature "users" ""; mkFeature "order_items" ""] /\
  readmeRoster (templates.readmeMd "shop" features sampleJsons)
  = ["Users"; "order_items"].
Proof.
  intros features sampleJsons.
  destruct (rosters_of_generated_files "shop" features sampleJsons) as [Hs Hr].
  - repeat constructor.
  - split; [exact Hs|]. apply Hr.
    + reflexivity.
    + repeat constructor.
Defined.

(** ** [generateFeature] *)

(** X12: [generateFeature] always returns.  It puts eleven files on the
    disk, at pairwise distinct paths under the project root as given (a
    relative root is taken from the current directory), each holding its
    template; every other path holds what it held before.  The ten
    directories of the feature exist afterwards, no directory is removed,
    no file goes into [delivery/routes], the current directory stays and
    one line is printed.  (The file system calls are taken to succeed, and
    paths are joined without normalisation.) *)
Theorem generateFeature_effect
  (projectRoot feature : string) (fields : list Field) (w : World) :
  let o := generateFeature projectRoot feature fields w in
  let base := resolve w (projectRoot ++ "/") in
  (exists w', o = Ret tt w') /\
  List.length (featureFiles feature fields) = 11 /\
  NoDup (map fst (featureFiles feature fields)) /\
  (forall rel content,
     In (rel, content) (featureFiles feature fields) ->
     lookup (base ++ rel) (files (final o)) = Some content) /\
  (forall p,
     (forall rel, In rel (map fst (featureFiles feature fields)) -> p <> base ++ rel) ->
     lookup p (files (final o)) = lookup p (files w)) /\
  (forall d, In d (dirs w) -> In d (dirs (final o))) /\
  (forall rel, In rel (featureDirs feature) -> In (base ++ rel) (dirs (final o))) /\
  List.length (featureDirs feature) = 10 /\
  (forall rel, In rel (map fst (featureFiles feature fields)) ->
     startsWith rel ("Features/" ++ feature ++ "/delivery/routes/") = false) /\
  cwd (final o) = cwd w /\
  console (final o)
  = List.app (console w) ["Created folder structure for feature: " ++ feature].
Proof.
  intros o base.
  destruct (generateFeature_run projectRoot feature fields w) as (dirs' & E & Hd).
  unfold o. rewrite E. cbn [final files dirs cwd console].
  fold base. fold base in Hd.
  split; [eexists; reflexivity|].
  split; [reflexivity|].
  split; [apply featureFiles_NoDup|].
  split.
  { intros rel content Hin. apply lookup_app_In.
    - apply written_NoDup, featureFiles_NoDup.
    - now apply written_In. }
  split.
  { intros p Hp. apply lookup_app_other. intros k Hk.
    apply written_fst in Hk as (rel & Hrel & ->). now apply Hp. }
  split; [intros d H; apply Hd; now left|].
  split; [intros rel H; apply Hd; right; now apply in_map|].
  split; [reflexivity|].
  split; [|split; reflexivity].
  unfold featureFiles. cbn [map fst In]. intros rel H.
  unfold startsWith.
  repeat (destruct H as [<-|H];
          [ first [ reflexivity
                  | apply (prefix_app_head ("Features/" ++ feature)) ] |]).
  destruct H.
Qed.

Lemma generateFeature_effect_witness :
  lookup "/srv/app/Features/user/delivery/controllers/user.controller.ts"
         (files (final (generateFeature "/srv/app" "user"
                          [mkField "name" "string" None] fresh_world)))
  = Some (templates.featureControllerTs "user").
Proof.
  destruct (generateFeature_effect "/srv/app" "user"
              [mkField "name" "string" None] fresh_world)
    as (_ & _ & _ & Hfiles & _).
  apply (Hfiles "Features/user/delivery/controllers/user.controller.ts").
  cbn [featureFiles In]. do 8 right. left. reflexivity.
Defined.

(** ** [createProject] *)

(** X13: with a Node.js older than 18, or a version text that does not
    start with [v] and a digit, [createProject] prints the requirement and
    ends with status 1 before it looks at the disk: no directory and no
    file is made. *)
Theorem createProject_requires_node
  (projectName pathSpec : string) (features : list Feature) (w : World) :
  nodeOk w = false ->
  createProject projectName pathSpec features w
  = Exit 1 (add_line w ("Node.js version 18 or higher is required. Found: "
                          ++ version w)).
Proof.
  intros Hn. unfold createProject, try_catch.
  rewrite (bind_Ret process.version_ _ w w (version w) eq_refl).
  unfold nodeOk in Hn.
  destruct (nodeVersionOf (version w)) as [v|].
  - apply negb_false_iff in Hn. rewrite Hn. reflexivity.
  - reflexivity.
Qed.

Lemma createProject_requires_node_witness :
  createProject "shop" "/tmp" []
    (mkWorld [] [] "/home/dev" "v16.20.2" [])
  = Exit 1 (mkWorld [] [] "/home/dev" "v16.20.2"
              ["Node.js version 18 or higher is required. Found: v16.20.2"]).
Proof.
  apply (createProject_requires_node "shop" "/tmp" []
           (mkWorld [] [] "/home/dev" "v16.20.2" [])).
  reflexivity.
Defined.





(** ** [addFeature] *)

(** X16: in a project (the marker is there), a field text that does not
    parse ends [addFeature] with status 1 before anything is written: the
    directories and the files are as before and one line is printed. *)
Theorem addFeature_rejects_fields_before_writing
  (featureName fields_ : string) (w : World) :
  fs.exists_ w (resolve w (path.join [cwd w; "Server/index.ts"])) = true ->
  fields_ <> "" -> forallb validEntry (split "," fields_) = false ->
  exists line,
    addFeature featureName fields_ w = Exit 1 (add_line w line) /\
    dirs (add_line w line) = dirs w /\ files (add_line w line) = files w.
Proof.
  intros Hx Hne Hbad.
  assert (Hparse : parseFields (or_else fields_ defaultFields)
                   = inl FieldSchema_message).
  { unfold or_else. apply truthy_true_iff in Hne as Ht. rewrite Ht.
    rewrite (parseFields_nonempty _ Hne). now apply mapThrow_some_invalid. }
  unfold addFeature.
  rewrite (bind_Ret process.cwd_ _ w w (cwd w) eq_refl).
  unfold try_catch.
  rewrite (bind_Ret (fs.access _) _ w w true)
    by (unfold fs.access; now rewrite Hx).
  rewrite (bind_Ret (when (negb true) _) _ w w tt eq_refl).
  rewrite Hparse.
  eexists. split; [reflexivity|]. split; reflexivity.
Qed.

Lemma addFeature_rejects_fields_before_writing_witness :
  exists line,
    addFeature "orders" "total" shop_world = Exit 1 (add_line shop_world line) /\
    dirs (add_line shop_world line) = dirs shop_world /\
    files (add_line shop_world line) = files shop_world.
Proof.
  apply (addFeature_rejects_fields_before_writing "orders" "total" shop_world).
  - reflexivity.
  - discriminate.
  - reflexivity.
Defined.

(** X17: in a project whose bootstrap file and README can be read,
    [addFeature] for a feature whose name is one path segment, with a field
    text that parses, always returns, whatever the two files hold (the file
    system calls succeeding, paths joined without normalisation): each of
    its files is written directly into a directory the run has made.
    Afterwards the eleven files of the feature hold their
    templates, the bootstrap file is the one generated for the roster read
    from the old one followed by the new feature, the README is the one
    generated for the names read from the old one followed by the new name,
    every other path holds what it held before, and the current directory
    is the same. *)
Theorem addFeature_succeeds
  (featureName fields_ : string) (parsed : list Field)
  (server0 readme0 : string) (w : World) :
  let base := resolve w (cwd w ++ "/") in
  pathSegment featureName = true ->
  parseFields (or_else fields_ defaultFields) = inr parsed ->
  lookup (markerPath w) (files w) = Some server0 ->
  lookup (readmePath w) (files w) = Some readme0 ->
  filesInDirs featureName parsed /\
  exists w' recovered,
    addFeature featureName fields_ w = Ret tt w' /\
    serverRoster server0 = inr recovered /\
    markerPath w = base ++ "Server/index.ts" /\
    readmePath w = base ++ "README.md" /\
    lookup (markerPath w) (files w')
    = Some (templates.serverIndexTs
              (List.app recovered [mkFeature featureName fields_])) /\
    lookup (readmePath w) (files w')
    = Some (templates.readmeMd (readmeProjectName readme0)
              (newRoster (readmeRoster readme0) featureName fields_)
              (map sampleOf (newRoster (readmeRoster readme0) featureName fields_))) /\
    (forall rel content,
       In (rel, content) (featureFiles featureName parsed) ->
       lookup (base ++ rel) (files w') = Some content) /\
    (forall p,
       p <> markerPath w -> p <> readmePath w ->
       (forall rel, In rel (map fst (featureFiles featureName parsed)) ->
                    p <> base ++ rel) ->
       lookup p (files w') = lookup p (files w)) /\
    cwd w' = cwd w.
Proof.
  intros base Hseg Hparse Hserver Hreadme.
  split; [now apply pathSegment_filesInDirs|].
  now apply addFeature_returns.
Qed.

Lemma addFeature_succeeds_witness :
  exists w',
    addFeature "orders" "total:number:min=0" shop_world = Ret tt w' /\
    lookup "/tmp/shop/Features/orders/domain/entity/orders.entity.ts" (files w')
    = Some (templates.featureEntityTs "orders"
              [mkField "total" "number" (Some "min=0")]).
Proof.
  destruct (addFeature_succeeds "orders" "total:number:min=0"
              [mkField "total" "number" (Some "min=0")]
              (templates.serverIndexTs [mkFeature "a" ""; mkFeature "b" ""])
              (templates.readmeMd "shop" [mkFeature "a" ""; mkFeature "b" ""]
                 [sampleOf (mkFeature "a" ""); sampleOf (mkFeature "b" "")])
              shop_world eq_refl eq_refl eq_refl eq_refl)
    as (_ & w' & recovered & Hrun & _ & _ & _ & _ & _ & Hfiles & _).
  exists w'. split; [exact Hrun|].
  apply (Hfiles "Features/orders/domain/entity/orders.entity.ts").
  cbn [featureFiles In]. right. now left.
Defined.

(** X18: [addFeature] is not all or nothing.  In a project whose bootstrap
    file can be read but whose README is missing, a run for a feature whose
    name is one path segment, with a field text that parses, ends with
    status 1, and yet the eleven files of the feature have been written,
    each directly into a directory the run has made, and the bootstrap file
    has been regenerated with the new feature (the file system calls before
    the missing README succeeding, paths joined without normalisation). *)
Theorem addFeature_without_readme
  (featureName fields_ : string) (parsed : list Field) (server0 : string)
  (w : World) :
  let base := resolve w (cwd w ++ "/") in
  let o := addFeature featureName fields_ w in
  pathSegment featureName = true ->
  parseFields (or_else fields_ defaultFields) = inr parsed ->
  lookup (markerPath w) (files w) = Some server0 ->
  lookup (readmePath w) (files w) = None ->
  filesInDirs featureName parsed /\
  exists recovered,
    serverRoster server0 = inr recovered /\
    exit_status o = 1 /\
    lookup (markerPath w) (files (final o))
    = Some (templates.serverIndexTs
              (List.app recovered [mkFeature featureName fields_])) /\
    lookup (readmePath w) (files (final o)) = None /\
    (forall rel content,
       In (rel, content) (featureFiles featureName parsed) ->
       lookup (base ++ rel) (files (final o)) = Some content).
Proof.
  intros base o Hseg Hparse Hserver Hreadme.
  split; [now apply pathSegment_filesInDirs|].
  now apply addFeature_readme_missing.
Qed.

Lemma addFeature_without_readme_witness :
  let w := mkWorld [] [("/srv/app/Server/index.ts", templates.serverIndexTs [])]
                   "/srv/app" "v20.11.0" [] in
  let o := addFeature "user" "" w in
  exit_status o = 1 /\
  lookup "/srv/app/Server/index.ts" (files (final o))
  = Some (templates.serverIndexTs [mkFeature "user" ""]).
Proof.
  intros w o.
  destruct (addFeature_without_readme "user" ""
              [mkField "name" "string" (Some "minlength=3");
               mkField "email" "string" (Some "email")]
              (templates.serverIndexTs []) w eq_refl eq_refl eq_refl eq_refl)
    as (_ & recovered & Hroster & Hexit & Hserver & _).
  split; [exact Hexit|].
  assert (E : recovered = []).
  { assert (H0 : serverRoster (templates.serverIndexTs []) = inr [])
      by (vm_compute; reflexivity).
    rewrite H0 in Hroster. now injection Hroster. }
  rewrite E in Hserver. exact Hserver.
Defined.

(** ** A create run followed by [addFeature] *)



(** ** The template catalog *)

(** X20: the injection tokens of the repository and of the data source
    agree across the files of a feature, for every feature name: the
    container registers the implementation under ['<Name>Repository'] and
    the data source under ['<Name>DataSource'], the use case injects the
    first, the repository implementation injects the second, and the
    use-case test stands in for the first under the same token; the two
    classes are declared under the names the container imports. *)
Theorem injection_tokens_agree
  (feature : string) (fields : list Field) (sampleJson : string) :
  let N := capitalize feature in
  let container := templates.featureContainerTs feature in
  includes container
    ("container.register<" ++ N ++ "RepositoryImpl>('" ++ N ++ "Repository', "
       ++ N ++ "RepositoryImpl);") = true /\
  includes container
    ("container.register<" ++ N ++ "DataSource>('" ++ N ++ "DataSource', "
       ++ N ++ "DataSource);") = true /\
  includes container
    ("import { " ++ N ++ "RepositoryImpl } from './data/repositories/"
       ++ feature ++ ".repository';") = true /\
  includes container
    ("import { " ++ N ++ "DataSource } from './data/datasources/"
       ++ feature ++ ".datasource';") = true /\
  includes (templates.featureUseCaseTs feature fields)
    ("@inject('" ++ N ++ "Repository') private " ++ feature ++ "Repository: "
       ++ N ++ "Repository") = true /\
  includes (templates.featureRepositoryTs feature)
    ("export class " ++ N ++ "RepositoryImpl implements " ++ N ++ "Repository {") = true /\
  includes (templates.featureRepositoryTs feature)
    ("@inject('" ++ N ++ "DataSource') private dataSource: " ++ N ++ "DataSource") = true /\
  includes (templates.featureDataSourceTs feature fields)
    ("export class " ++ N ++ "DataSource {") = true /\
  includes (templates.featureUseCaseTestTs feature fields sampleJson)
    ("container.registerInstance('" ++ N ++ "Repository', mockRepository);") = true.
Proof.
  intros N container. unfold N, container.
  split; [in_template "" ""|].
  split; [in_template "" ""|].
  split; [in_template "" ""|].
  split; [in_template "" ""|].
  split; [in_template "  constructor(" ") {}"|].
  split; [in_template "" ""|].
  split; [in_template "  constructor(" ") {}"|].
  split; [in_template "" ""|].
  in_template "    " "".
Qed.

(** X21: how far the files of a feature climb for the shared modules.
    The use case, the repository interface, the data source, the repository,
    the controller and the middleware of a feature all lie four directories
    below the project root, and [Core/error/custom-error.ts] lies under the
    root.  The first four import it four directories up; the controller and
    the middleware import it three directories up, that is from under
    [Features/]. *)
Theorem core_import_depth
  (projectName : string) (features : list Feature)
  (feature : string) (fields : list Field) :
  let up4 := "import { CustomError } from '../../../../Core/error/custom-error';" in
  let up3 := "import { CustomError } from '../../../Core/error/custom-error';" in
  let file dir name := "Features/" ++ feature ++ "/" ++ dir ++ "/" ++ name in
  let holds rel text :=
    exists content,
      In (rel, content) (featureFiles feature fields) /\
      includes content text = true in
  In "Core/error/custom-error.ts" (map fst (coreFiles projectName features)) /\
  holds (file "domain/usecases" ("create-" ++ feature ++ ".usecase.ts")) up4 /\
  holds (file "domain/repositories" (feature ++ ".repository.interface.ts")) up4 /\
  holds (file "data/datasources" (feature ++ ".datasource.ts")) up4 /\
  holds (file "data/repositories" (feature ++ ".repository.ts")) up4 /\
  holds (file "delivery/controllers" (feature ++ ".controller.ts")) up3 /\
  holds (file "delivery/middlewares" ("validate-" ++ feature ++ ".middleware.ts")) up3.
Proof.
  intros up4 up3 file holds. unfold holds, file, up4, up3.
  split; [cbn [coreFiles map fst In]; do 6 right; now left|].
  split; [eexists; split; [cbn [featureFiles In]; do 3 right; left; reflexivity
                          | in_template "" ""]|].
  split; [eexists; split; [cbn [featureFiles In]; do 2 right; left; reflexivity
                          | in_template "" ""]|].
  split; [eexists; split; [cbn [featureFiles In]; do 5 right; left; reflexivity
                          | in_template "" ""]|].
  split; [eexists; split; [cbn [featureFiles In]; do 6 right; left; reflexivity
                          | in_template "" ""]|].
  split; [eexists; split; [cbn [featureFiles In]; do 8 right; left; reflexivity
                          | in_template "" ""]|].
  eexists; split; [cbn [featureFiles In]; do 7 right; left; reflexivity
                  | in_template "" ""].
Qed.

(** X22: the parentheses of the two generated test files.  For a feature
    name and field names without a parenthesis and a sample object with as
    many opening as closing ones, the use-case test has as many ["("] as
    [")"], and the controller test has one ["("] more than [")"]. *)
Theorem controller_test_leaves_describe_open
  (feature sampleJson : string) (fields : list Field) :
  countChar "(" feature = 0 -> countChar ")" feature = 0 ->
  (forall x, In x fields ->
     countChar "(" (name x) = 0 /\ countChar ")" (name x) = 0) ->
  countChar "(" sampleJson = countChar ")" sampleJson ->
  let useCaseTest := templates.featureUseCaseTestTs feature fields sampleJson in
  let controllerTest := templates.featureControllerTestTs feature fields sampleJson in
  countChar "(" useCaseTest = countChar ")" useCaseTest /\
  countChar "(" controllerTest = S (countChar ")" controllerTest).
Proof.
  intros Hfl Hfr Hn Hs useCaseTest controllerTest.
  assert (Hnl : forall x, In x fields -> countChar "(" (name x) = 0)
    by (intros x Hx; now apply Hn).
  assert (Hnr : forall x, In x fields -> countChar ")" (name x) = 0)
    by (intros x Hx; now apply Hn).
  unfold useCaseTest, controllerTest.
  rewrite (useCaseTest_open feature sampleJson fields Hfl Hnl).
  rewrite (useCaseTest_close feature sampleJson fields Hfr Hnr).
  rewrite (controllerTest_open feature sampleJson fields Hfl Hnl).
  rewrite (controllerTest_close feature sampleJson fields Hfr Hnr).
  split; lia.
Qed.

Lemma controller_test_leaves_describe_open_witness :
  let sampleJson :=
    getSampleJson [mkField "name" "string" None; mkField "age" "number" None] in
  countChar "("
    (templates.featureControllerTestTs "user"
       [mkField "name" "string" None; mkField "age" "number" None] sampleJson)
  = S (countChar ")"
         (templates.featureControllerTestTs "user"
            [mkField "name" "string" None; mkField "age" "number" None] sampleJson)).
Proof.
  intros sampleJson.
  apply (proj2 (controller_test_leaves_describe_open "user" sampleJson
           [mkField "name" "string" None; mkField "age" "number" None]
           eq_refl eq_refl
           (fun x H => match H with
                       | or_introl E => match E with eq_refl => conj eq_refl eq_refl end
                       | or_intror (or_introl E) =>
                           match E with eq_refl => conj eq_refl eq_refl end
                       | or_intror (or_intror F) => match F with end
                       end)
           eq_refl)).
Defined.

(** X23: leaving [--fields] out of the [feature] command is the same as
    passing the default text [name:string:minlength=3,email:string:email]:
    from any project whose bootstrap file can be read the two runs end
    alike, with the same status, files, directories and printed lines. *)
Theorem addFeature_default_fields (featureName server0 : string) (w : World) :
  lookup (markerPath w) (files w) = Some server0 ->
  featureAction featureName None w = addFeature featureName "" w /\
  addFeature featureName "" w = addFeature featureName defaultFields w.
Proof.
  intros Hserver. split; [reflexivity|].
  destruct (serverRoster_total server0) as (recovered & Hroster & _).
  pose (parsed := [mkField "name" "string" (Some "minlength=3");
                   mkField "email" "string" (Some "email")]).
  destruct (addFeature_run w featureName "" parsed server0 recovered
              eq_refl Hserver Hroster) as (_ & H1).
  destruct (addFeature_run w featureName defaultFields parsed server0 recovered
              eq_refl Hserver Hroster) as (_ & H2).
  assert (Es : templates.serverIndexTs (List.app recovered [mkFeature featureName ""])
               = templates.serverIndexTs
                   (List.app recovered [mkFeature featureName defaultFields])).
  { apply serverIndexTs_names. now rewrite !map_app. }
  rewrite Es in H1.
  destruct (lookup (readmePath w) (files w)) as [readme0|].
  - cbv zeta in H1, H2. rewrite H1, H2.
    destruct (newRoster_default (readmeRoster readme0) featureName) as [En Esam].
    rewrite Esam.
    now rewrite (readmeMd_names _ _ _ _ En).
  - now rewrite H1, H2.
Qed.

Lemma addFeature_default_fields_witness :
  addFeature "orders" "" shop_world = addFeature "orders" defaultFields shop_world.
Proof.
  apply (addFeature_default_fields "orders"
           (templates.serverIndexTs [mkFeature "a" ""; mkFeature "b" ""])
           shop_world).
  reflexivity.
Defined.

(** ** More on [addFeature] *)

(** X24: the roster of the bootstrap file is stable under [addFeature].
    Whatever bootstrap file the roster was read from, the file regenerated
    for that roster and a new feature whose name is a non-empty word gives,
    when it is read the next time, the same roster followed by the new name
    in lower case: no earlier feature is lost or changed again. *)
Theorem bootstrap_roster_is_stable
  (serverContent featureName fields_ : string) (recovered : list Feature) :
  serverRoster serverContent = inr recovered ->
  wordName featureName = true ->
  serverRoster
    (templates.serverIndexTs (List.app recovered [mkFeature featureName fields_]))
  = inr (List.app recovered [mkFeature (toLowerCase featureName) ""]).
Proof.
  intros Hroster Hw.
  destruct (serverRoster_total serverContent) as (fs & E & Hall).
  rewrite Hroster in E. injection E as <-.
  rewrite serverRoster_generated.
  - rewrite map_app. cbn [map fname]. f_equal. f_equal.
    rewrite <- (map_id recovered) at 2. apply map_ext_in. intros f Hf.
    rewrite Forall_forall in Hall. destruct (Hall f Hf) as [Hl Hfields].
    apply andb_true_iff in Hl as [_ Hl]. rewrite (toLowerCase_fixed _ Hl).
    destruct f as [n fl]. cbn [fname fields] in *. now rewrite Hfields.
  - apply Forall_app. split.
    + revert Hall. apply Forall_impl. intros f [Hl _].
      now apply lowerName_wordName.
    + repeat constructor. exact Hw.
Qed.

Lemma bootstrap_roster_is_stable_witness :
  serverRoster
    (templates.serverIndexTs
       [mkFeature "users" ""; mkFeature "Orders" "total:number"])
  = inr [mkFeature "users" ""; mkFeature "orders" ""].
Proof.
  apply (bootstrap_roster_is_stable
           (templates.serverIndexTs [mkFeature "Users" "name:string"])
           "Orders" "total:number" [mkFeature "users" ""]).
  - apply (serverRoster_generated [mkFeature "Users" "name:string"]).
    repeat constructor.
  - reflexivity.
Defined.

(** X25: the project name [addFeature] reads from the README with
    [/^# (.+)/m] and [|| 'Project'] is never empty and holds no line feed
    and no carriage return, whatever the README holds; it is ['Project']
    when no line of the README starts with ["# "] followed by a character
    of that line. *)
Theorem readmeProjectName_single_line (readmeContent : string) :
  readmeProjectName readmeContent <> "" /\
  allChars (fun ch => negb (Scan.isLineTerminator ch))
           (readmeProjectName readmeContent) = true /\
  (Scan.heading readmeContent = None ->
   readmeProjectName readmeContent = "Project").
Proof.
  unfold readmeProjectName, Scan.heading.
  destruct (Scan.heading_from readmeContent true) as [l|] eqn:E.
  - destruct (heading_from_Some _ _ _ E) as [Hne Hl].
    split; [exact Hne|]. split; [exact Hl | discriminate].
  - split; [discriminate|]. split; reflexivity.
Qed.

Lemma readmeProjectName_single_line_witness :
  readmeProjectName ("Notes" ++ nl ++ "#shop" ++ nl ++ "# " ++ nl ++ "text")
  = "Project".
Proof.
  apply (proj2 (proj2 (readmeProjectName_single_line
           ("Notes" ++ nl ++ "#shop" ++ nl ++ "# " ++ nl ++ "text")))).
  reflexivity.
Defined.

(** ** The validator and the sample of an enumeration *)

(** X26: for a field with an [enum=] rule the validator lists the items of
    the rule's argument between ["|"], each in double quotes, whatever the
    type of the field is.  The sample of a string field is the first of
    these quoted items; the sample of a number field is [123], which is
    none of them. *)
Theorem enum_validator_and_sample (f : Field) (r : string) :
  rule f = Some r -> startsWith r "enum=" = true ->
  let items := map q (split "|" (ruleArg r)) in
  zodType f = "z.enum([" ++ join ", " items ++ "])" /\
  items <> [] /\
  (type f = "string" ->
   sampleValue f = hd "" items /\ In (sampleValue f) items) /\
  (type f = "number" ->
   sampleValue f = "123" /\ ~ In (sampleValue f) items).
Proof.
  intros Hr He items.
  assert (Er : exists t, r = "enum=" ++ t) by (now apply prefix_true_iff in He).
  destruct Er as [t ->].
  destruct (split_cons_form "|" (ruleArg ("enum=" ++ t))) as (h & tl & Es).
  split.
  { unfold zodType. rewrite Hr.
    change (truthy ("enum=" ++ t)) with true. cbv iota. unfold zodRule.
    change (String.eqb ("enum=" ++ t) "email") with false.
    change (startsWith ("enum=" ++ t) "minlength=") with false.
    change (startsWith ("enum=" ++ t) "maxlength=") with false.
    change (startsWith ("enum=" ++ t) "min=") with false.
    change (startsWith ("enum=" ++ t) "max=") with false.
    cbv iota. rewrite He. reflexivity. }
  split.
  { unfold items. rewrite Es. discriminate. }
  split.
  - intros Ht. unfold sampleValue. rewrite Ht, Hr.
    change (String.eqb "string" "string") with true. cbv iota.
    change (String.eqb ("enum=" ++ t) "email") with false. cbv iota.
    rewrite He. unfold items. rewrite Es. cbn [at_ nth map hd].
    split; [reflexivity | now left].
  - intros Ht. unfold sampleValue. rewrite Ht.
    change (String.eqb "number" "string") with false.
    change (String.eqb "number" "number") with true. cbv iota.
    split; [reflexivity|].
    unfold items. intros Hin. apply in_map_iff in Hin as (x & Ex & _).
    discriminate Ex.
Qed.

Lemma enum_validator_and_sample_witness :
  zodType (mkField "status" "string" (Some "enum=open|closed"))
  = "z.enum([" ++ q "open" ++ ", " ++ q "closed" ++ "])" /\
  sampleValue (mkField "status" "string" (Some "enum=open|closed")) = q "open".
Proof.
  destruct (enum_validator_and_sample
              (mkField "status" "string" (Some "enum=open|closed"))
              "enum=open|closed" eq_refl eq_refl)
    as (Hz & _ & Hs & _).
  split; [exact Hz|]. exact (proj1 (Hs eq_refl)).
Defined.
